(** * Tabulation layer of the survey reporting tool

    A shallow embedding of the frequency, combination, mention and filter
    functions of [app.py], [section2.py], [section3.py], [section4.py] and
    [filters.py], together with the properties the specification states
    about them.

    Modelling conventions.
    - A pandas cell is [option value]: [None] is NaN, a number is an
      integer code ([VNum]) and text is [VStr].  Survey codes are whole
      numbers; [astype_str] prints them in decimal (pandas adds ".0" when
      the column is stored as floats).
    - A [DataFrame] is a list of column names and a list of rows, each row
      holding one cell per column, so that every column has [len df] cells.
    - A Python [dict] is an association list in insertion order ([od_set]
      overwrites in place, a new key goes to the end), because the tables
      are built from [list(counts.keys())].
    - A percentage is computed over the rationals and rounded to one
      decimal, ties to even; it is stored in tenths ([333] is 33.3).
    - [str.upper], [str.lower] and [str.strip] act on the ASCII range.
    - [sort_values] is a stable insertion sort; pandas may order rows with
      equal keys differently, so the properties of sorted tables are
      stated on the order of the keys.
    - The widgets of streamlit are arguments: the selections of the
      filters, the texts of the login form, the secrets. *)

From Stdlib Require Import List ZArith QArith Qabs Qfield Bool Lia Ascii String.
From Stdlib Require Import DecimalString Permutation Sorted.
Import ListNotations.
Local Open Scope string_scope.
Local Open Scope list_scope.
Local Open Scope Z_scope.

(** ** Strings *)

Module Str.

Definition upper_ascii (c : ascii) : ascii :=
  let n := nat_of_ascii c in
  if (Nat.leb 97 n && Nat.leb n 122)%bool then ascii_of_nat (n - 32) else c.

Definition lower_ascii (c : ascii) : ascii :=
  let n := nat_of_ascii c in
  if (Nat.leb 65 n && Nat.leb n 90)%bool then ascii_of_nat (n + 32) else c.

Fixpoint upper (s : string) : string :=
  match s with
  | EmptyString => EmptyString
  | String c s' => String (upper_ascii c) (upper s')
  end.

Fixpoint lower (s : string) : string :=
  match s with
  | EmptyString => EmptyString
  | String c s' => String (lower_ascii c) (lower s')
  end.

(** Whitespace removed by [str.strip()]: space, tab, LF, VT, FF, CR and the
    separators 28..31. *)
Definition is_space (c : ascii) : bool :=
  let n := nat_of_ascii c in
  (Nat.eqb n 32 || (Nat.leb 9 n && Nat.leb n 13) || (Nat.leb 28 n && Nat.leb n 31))%bool.

Fixpoint lstrip (s : string) : string :=
  match s with
  | EmptyString => EmptyString
  | String c s' => if is_space c then lstrip s' else s
  end.

(** [rstrip_by p s] drops the longest suffix of [s] whose characters all
    satisfy [p]. *)
Fixpoint rstrip_by (p : ascii -> bool) (s : string) : string :=
  match s with
  | EmptyString => EmptyString
  | String c s' =>
      match rstrip_by p s' with
      | EmptyString => if p c then EmptyString else String c EmptyString
      | r => String c r
      end
  end.

Definition strip (s : string) : string := rstrip_by is_space (lstrip s).

(** [s.rstrip('_')] *)
Definition rstrip_underscore (s : string) : string :=
  rstrip_by (fun c => Ascii.eqb c "_"%char) s.

(** [str(n)] for an integer. *)
Definition of_Z (z : Z) : string := NilZero.string_of_int (Z.to_int z).
Definition of_nat (n : nat) : string := of_Z (Z.of_nat n).

Definition mem (s : string) (l : list string) : bool := existsb (String.eqb s) l.

End Str.

(** ** Values, cells and series *)

Inductive value : Type :=
| VNum (z : Z)
| VStr (s : string).

Definition value_eqb (a b : value) : bool :=
  match a, b with
  | VNum x, VNum y => Z.eqb x y
  | VStr s, VStr t => String.eqb s t
  | _, _ => false
  end.

Definition cell : Type := option value.
Definition Series : Type := list cell.

(** [str(v)] *)
Definition str (v : value) : string :=
  match v with
  | VNum z => Str.of_Z z
  | VStr s => s
  end.

(** One entry of [series.astype(str)]: NaN becomes the text "nan". *)
Definition astype_str1 (c : cell) : string :=
  match c with
  | None => "nan"
  | Some v => str v
  end.

Definition astype_str (s : Series) : list string := map astype_str1 s.

Definition isna (c : cell) : bool :=
  match c with None => true | Some _ => false end.

Definition dropna (s : Series) : Series := filter (fun c => negb (isna c)) s.

Definition fillna (v : value) (s : Series) : Series :=
  map (fun c => match c with None => Some v | Some _ => c end) s.

(** [s.fillna(t)] with a series [t] aligned on the same index. *)
Fixpoint fillna_series (s : Series) (t : list string) : Series :=
  match s, t with
  | c :: s', x :: t' =>
      (match c with None => Some (VStr x) | Some _ => c end) :: fillna_series s' t'
  | _, _ => s
  end.

Definition mem_value (v : value) (l : list value) : bool := existsb (value_eqb v) l.

(** One entry of [series.isin(values)]; NaN is in no set of codes. *)
Definition isin (l : list value) (c : cell) : bool :=
  match c with
  | None => false
  | Some v => mem_value v l
  end.

(** [series[~series.isin(values)]] *)
Definition drop_isin (l : list value) (s : Series) : Series :=
  filter (fun c => negb (isin l c)) s.

(** ** Dictionaries in insertion order *)

Section Dict.
Context {K V : Type}.
Variable eqb : K -> K -> bool.

Fixpoint od_get (d : list (K * V)) (k : K) : option V :=
  match d with
  | [] => None
  | (k', v) :: d' => if eqb k k' then Some v else od_get d' k
  end.

Definition od_mem (d : list (K * V)) (k : K) : bool :=
  match od_get d k with Some _ => true | None => false end.

Fixpoint od_set (d : list (K * V)) (k : K) (v : V) : list (K * V) :=
  match d with
  | [] => [(k, v)]
  | (k', v') :: d' => if eqb k k' then (k', v) :: d' else (k', v') :: od_set d' k v
  end.

Definition od_get_default (d : list (K * V)) (k : K) (dflt : V) : V :=
  match od_get d k with Some v => v | None => dflt end.
End Dict.

(** A code-to-label mapping such as [TV_CHANNELS_MAP]; the module
    [mappings.py] holds them as constants, here they are arguments. *)
Definition Mapping : Type := list (value * string).

Definition map_get (m : Mapping) (v : value) : option string := od_get value_eqb m v.
Definition map_mem (m : Mapping) (v : value) : bool := od_mem value_eqb m v.

(** [series.map(mapping)]: a value without an entry becomes NaN. *)
Definition series_map (m : Mapping) (s : Series) : Series :=
  map (fun c => match c with
                | None => None
                | Some v => option_map VStr (map_get m v)
                end) s.

(** ** Data frames *)

Record DataFrame : Type := mkDF {
  df_columns : list string;
  df_rows : list (list cell)
}.

Definition len (df : DataFrame) : Z := Z.of_nat (List.length (df_rows df)).

Definition has_column (df : DataFrame) (c : string) : bool :=
  Str.mem c (df_columns df).

Fixpoint index_of (c : string) (cols : list string) : option nat :=
  match cols with
  | [] => None
  | c' :: cols' =>
      if String.eqb c c' then Some O else option_map S (index_of c cols')
  end.

Definition row_get (cols : list string) (c : string) (row : list cell) : cell :=
  match index_of c cols with
  | Some i => nth i row None
  | None => None
  end.

(** [df[c]] *)
Definition column (df : DataFrame) (c : string) : Series :=
  map (row_get (df_columns df) c) (df_rows df).

(** [df[mask]] for a row predicate. *)
Definition select_rows (p : list cell -> bool) (df : DataFrame) : DataFrame :=
  mkDF (df_columns df) (filter p (df_rows df)).

(** ** Sorting and counting *)

Section Sort.
Context {A : Type}.
(** [before y x]: [y] goes strictly before [x]. *)
Variable before : A -> A -> bool.

Fixpoint insert_sorted (x : A) (l : list A) : list A :=
  match l with
  | [] => [x]
  | y :: l' => if before y x then y :: insert_sorted x l' else x :: l
  end.

(** Stable: among rows that neither goes before the other, the input
    order is kept. *)
Fixpoint sort_by (l : list A) : list A :=
  match l with
  | [] => []
  | x :: l' => insert_sorted x (sort_by l')
  end.
End Sort.

Definition sort_desc {A : Type} (key : A -> Z) : list A -> list A :=
  sort_by (fun y x => key x <? key y).

Definition sort_asc {A : Type} (key : A -> Z) : list A -> list A :=
  sort_by (fun y x => key y <? key x).

Definition sum_Z (l : list Z) : Z := fold_right Z.add 0 l.

(** ** Rounding *)

(** [numpy.rint]: nearest integer, ties to the even one. *)
Definition rint (q : Q) : Z :=
  let n := Qnum q in
  let d := Zpos (Qden q) in
  let f := n / d in
  let r := n mod d in
  if 2 * r <? d then f
  else if d <? 2 * r then f + 1
  else if Z.even f then f else f + 1.

(** [round(q, 1)], in tenths. *)
Definition round1 (q : Q) : Z := rint (q * 10)%Q.

(** [count / total * 100], rounded to one decimal. *)
Definition percent_of (count total : Z) : Z :=
  round1 (inject_Z count / inject_Z total * 100)%Q.

(** ** Frequency tables *)

Record Row (A : Type) : Type := mkRow {
  answer : A;
  count : Z;
  percent : Z
}.
Arguments mkRow {A} _ _ _.
Arguments answer {A} _.
Arguments count {A} _.
Arguments percent {A} _.

Definition FreqTable (A : Type) : Type := list (Row A).

(** [pd.DataFrame(columns=["answer", "count", "percent"])] *)
Definition empty_table {A : Type} : FreqTable A := [].

(** [series.value_counts()]: NaN is not counted, the distinct values are
    taken in order of first appearance and stably sorted by descending
    count. *)
Fixpoint tally (acc : list (value * Z)) (s : Series) : list (value * Z) :=
  match s with
  | [] => acc
  | None :: s' => tally acc s'
  | Some v :: s' =>
      tally (od_set value_eqb acc v (od_get_default value_eqb acc v 0 + 1)) s'
  end.

Definition value_counts (s : Series) : list (value * Z) :=
  sort_desc snd (tally [] s).

(** [tab["percent"] = (tab["count"] / tab["count"].sum() * 100).round(1)] *)
Definition with_percent_of_sum {A : Type} (tab : list (A * Z)) : FreqTable A :=
  let total := sum_Z (map snd tab) in
  map (fun r => mkRow (fst r) (snd r) (percent_of (snd r) total)) tab.

(** Number of cells that read "YES" in any casing:
    [series.astype(str).str.upper().eq("YES").sum()]. *)
Definition is_yes (c : cell) : bool := String.eqb (Str.upper (astype_str1 c)) "YES".

Definition yes_count (s : Series) : Z := Z.of_nat (List.length (filter is_yes s)).

(** [range(1, max_num + 1)] *)
Definition range1 (max_num : nat) : list nat := seq 1 max_num.

(** ** Columns written and rows cut *)

(** A row brought to [n] cells: missing cells are NaN, cells past the
    last column are not part of the frame. *)
Definition pad_row (n : nat) (row : list cell) : list cell :=
  firstn n (row ++ repeat None n).

Fixpoint replace_nth (i : nat) (c : cell) (row : list cell) : list cell :=
  match i, row with
  | O, _ :: row' => c :: row'
  | S i', x :: row' => x :: replace_nth i' c row'
  | _, [] => []
  end.

(** The rows with the cells of [s] put in by [put], NaN where [s] is short. *)
Fixpoint with_cells (put : list cell -> cell -> list cell) (rows : list (list cell))
    (s : Series) : list (list cell) :=
  match rows with
  | [] => []
  | row :: rows' => put row (hd None s) :: with_cells put rows' (tl s)
  end.

(** [df[name] = s]: the column is overwritten where it is, or added last. *)
Definition set_column (df : DataFrame) (name : string) (s : Series) : DataFrame :=
  let n := List.length (df_columns df) in
  match index_of name (df_columns df) with
  | Some i =>
      mkDF (df_columns df)
        (with_cells (fun row c => replace_nth i c (pad_row n row)) (df_rows df) s)
  | None =>
      mkDF (df_columns df ++ [name])
        (with_cells (fun row c => pad_row n row ++ [c]) (df_rows df) s)
  end.

(** [series.replace({0: np.nan})] *)
Definition replace_zero (s : Series) : Series :=
  map (fun c => match c with
                | Some v => if value_eqb v (VNum 0) then None else c
                | None => None
                end) s.

(** [tab.head(n)] *)
Definition head {A : Type} (n : nat) (tab : list A) : list A := firstn n tab.

(** ** app.py *)

Module App.

(** The "no data" category of [include_null]. *)
Definition NO_DATA : string := "Տվյալներ չկան".

(** [freq_single] of [app.py]; [section2.py] repeats it word for word. *)
Definition freq_single (df : DataFrame) (col : string) (mapping : option Mapping)
    (exclude_values : option (list value)) (include_null : bool) : FreqTable value :=
  if negb (has_column df col) then empty_table else
  let series := column df col in
  let series := if include_null then fillna (VStr NO_DATA) series else dropna series in
  let series := match exclude_values with
                | Some ex => drop_isin ex series
                | None => series
                end in
  let series := match mapping with
                | Some m => fillna_series (series_map m series) (astype_str series)
                | None => series
                end in
  match series with
  | [] => empty_table
  | _ =>
      let tab := value_counts series in
      let tab := filter (fun r => 0 <? snd r) tab in
      with_percent_of_sum tab
  end.

(** The chain of comparisons of [age_to_group]. *)
Definition age_label (a : Z) : string :=
  if a <? 16 then "Մինչև 16տ"
  else if (16 <=? a) && (a <=? 20) then "16-20տ."
  else if (21 <=? a) && (a <=? 29) then "21-29տ."
  else if (30 <=? a) && (a <=? 39) then "30-39տ."
  else if (40 <=? a) && (a <=? 49) then "40-49տ."
  else if (50 <=? a) && (a <=? 59) then "50-59տ."
  else if (60 <=? a) && (a <=? 69) then "60-69տ."
  else "70 և ավելի".

(** [int(age)]: a number is taken as it is; [int_of_text] stands for Python's
    reading of a text, [None] when it raises. *)
Definition to_int (int_of_text : string -> option Z) (v : value) : option Z :=
  match v with
  | VNum z => Some z
  | VStr s => int_of_text s
  end.

(** [age_to_group] of [load_data]: NaN for a missing age and for one that
    [int] refuses. *)
Definition age_to_group (int_of_text : string -> option Z) (age : cell) : cell :=
  match age with
  | None => None
  | Some v =>
      match to_int int_of_text v with
      | None => None
      | Some a => Some (VStr (age_label a))
      end
  end.

Definition dev_map : Mapping :=
  [(VNum 1, "Սմարթֆոն"); (VNum 2, "Սովորական բջջային հեռախոս")].

(** [load_data] once the sheet is read: [raw] is what [pd.read_excel]
    returned. *)
Definition load_data (int_of_text : string -> option Z) (raw : DataFrame) : DataFrame :=
  let df := mkDF (map Str.strip (df_columns raw)) (df_rows raw) in
  let df := if has_column df "AGE"
            then set_column df "AGE_GRP" (map (age_to_group int_of_text) (column df "AGE"))
            else df in
  let df := if has_column df "Dev"
            then set_column df "Dev_lbl"
                   (fillna_series (series_map dev_map (column df "Dev"))
                      (astype_str (column df "Dev")))
            else df in
  df.

(** The three keys of [st.session_state] that [check_password] uses. *)
Record Session : Type := mkSession {
  s_username : option string;
  s_password : option string;
  s_password_correct : option bool
}.

Definition new_session : Session := mkSession None None None.

(** [password_entered]: [username_known u] is
    [u in st.secrets["credentials"]["username"]] and [secret] is the
    configured password; [None] is the [KeyError] of a key that is not in
    the session. *)
Definition password_entered (username_known : string -> bool) (secret : string)
    (s : Session) : option Session :=
  match s_username s with
  | None => None
  | Some u =>
      if username_known u then
        match s_password s with
        | None => None
        | Some p =>
            if String.eqb p secret
            then Some (mkSession None None (Some true))
            else Some (mkSession (s_username s) (s_password s) (Some false))
        end
      else Some (mkSession (s_username s) (s_password s) (Some false))
  end.

(** The value [check_password] returns. *)
Definition check_password (s : Session) : bool :=
  match s_password_correct s with
  | None => false
  | Some correct => correct
  end.

(** The form sent with the texts [u] and [p]: the two inputs are written
    to the session under their keys, then the callback runs. *)
Definition login (username_known : string -> bool) (secret : string)
    (s : Session) (u p : string) : option Session :=
  password_entered username_known secret
    (mkSession (Some u) (Some p) (s_password_correct s)).

End App.

(** ** section2.py *)

Module Section2.

(** The loop body of [freq_multi]: one indicator column. *)
Definition count_column (df : DataFrame) (labels : list (string * string))
    (counts : list (string * Z)) (c : string) : list (string * Z) :=
  let label := od_get_default String.eqb labels c c in
  let cnt := yes_count (column df c) in
  if 0 <? cnt then od_set String.eqb counts label cnt else counts.

(** [freq_multi] of [section2.py]; [app.py] repeats it word for word. *)
Definition freq_multi (df : DataFrame) (cols : list string)
    (labels : list (string * string)) : FreqTable string :=
  let present_cols := filter (has_column df) cols in
  match present_cols with
  | [] => empty_table
  | _ =>
      let counts := fold_left (count_column df labels) present_cols [] in
      match counts with
      | [] => empty_table
      | _ => sort_desc percent (with_percent_of_sum counts)
      end
  end.

End Section2.

(** ** section3.py *)

Module Section3.

(** [if exclude_values: values = values[~values.isin(exclude_values)]]:
    nothing is removed for [None] or for an empty set. *)
Definition drop_excluded (exclude_values : option (list value)) (s : Series) : Series :=
  match exclude_values with
  | Some ((_ :: _) as ex) => drop_isin ex s
  | _ => s
  end.

(** The inner loop of [freq_multi_numbered]: one value of one slot. *)
Definition count_value (mapping : Mapping) (counts : list (string * Z)) (val : cell)
    : list (string * Z) :=
  match val with
  | None => counts
  | Some v =>
      match map_get mapping v with
      | Some label =>
          od_set String.eqb counts label (od_get_default String.eqb counts label 0 + 1)
      | None => counts
      end
  end.

(** The values of slot [i] that are counted. *)
Definition slot_values (df : DataFrame) (col_prefix : string)
    (exclude_values : option (list value)) (i : nat) : Series :=
  let col_name := (col_prefix ++ Str.of_nat i)%string in
  if negb (has_column df col_name) then []
  else drop_excluded exclude_values (dropna (column df col_name)).

Definition count_slot (df : DataFrame) (col_prefix : string) (mapping : Mapping)
    (exclude_values : option (list value)) (counts : list (string * Z)) (i : nat)
    : list (string * Z) :=
  fold_left (count_value mapping) (slot_values df col_prefix exclude_values i) counts.

Definition numbered_counts (df : DataFrame) (col_prefix : string) (max_num : nat)
    (mapping : Mapping) (exclude_values : option (list value)) : list (string * Z) :=
  fold_left (count_slot df col_prefix mapping exclude_values) (range1 max_num) [].

Definition freq_multi_numbered (df : DataFrame) (col_prefix : string) (max_num : nat)
    (mapping : Mapping) (exclude_values : option (list value)) : FreqTable string :=
  match numbered_counts df col_prefix max_num mapping exclude_values with
  | [] => empty_table
  | counts => sort_desc percent (with_percent_of_sum counts)
  end.

(** First loop of [freq_multi_yes]: the column of code [i]. *)
Definition yes_slot (df : DataFrame) (col_prefix : string) (mapping : Mapping)
    (counts : list (string * Z)) (i : nat) : list (string * Z) :=
  let col_name := (col_prefix ++ Str.of_nat i)%string in
  if negb (has_column df col_name) then counts else
  let yes := yes_count (column df col_name) in
  if (0 <? yes) then
    match map_get mapping (VNum (Z.of_nat i)) with
    | Some label => od_set String.eqb counts label yes
    | None => counts
    end
  else counts.

(** Second loop of [freq_multi_yes]: the columns [_98] and [_999]; [key] is
    the number after the underscore, [int(suffix.replace(...))]. *)
Definition yes_suffix (df : DataFrame) (col_prefix : string) (mapping : Mapping)
    (counts : list (string * Z)) (suffix : string * Z) : list (string * Z) :=
  let col_name := (Str.rstrip_underscore col_prefix ++ fst suffix)%string in
  if has_column df col_name then
    let yes := yes_count (column df col_name) in
    if 0 <? yes then
      match map_get mapping (VNum (snd suffix)) with
      | Some label => od_set String.eqb counts label yes
      | None => counts
      end
    else counts
  else counts.

Definition yes_counts (df : DataFrame) (col_prefix : string) (max_num : nat)
    (mapping : Mapping) : list (string * Z) :=
  let counts := fold_left (yes_slot df col_prefix mapping) (range1 max_num) [] in
  fold_left (yes_suffix df col_prefix mapping) [("_98", 98); ("_999", 999)] counts.

Definition freq_multi_yes (df : DataFrame) (col_prefix : string) (max_num : nat)
    (mapping : Mapping) : FreqTable string :=
  match yes_counts df col_prefix max_num mapping with
  | [] => empty_table
  | counts => sort_desc percent (with_percent_of_sum counts)
  end.

(** The three counts kept per channel in [all_channels]. *)
Record Counts : Type := mkCounts {
  c_TOM : Z;
  c_Other : Z;
  c_Prompted : Z
}.

Definition zero_counts : Counts := mkCounts 0 0 0.

Definition Channels : Type := list (value * Counts).

(** [if ch not in all_channels: all_channels[ch] = {"TOM": 0, "Other": 0,
    "Prompted": 0}] followed by the assignment of one field. *)
Definition set_field (upd : Counts -> Counts) (all : Channels) (ch : value) : Channels :=
  let all := if od_mem value_eqb all ch then all else od_set value_eqb all ch zero_counts in
  od_set value_eqb all ch (upd (od_get_default value_eqb all ch zero_counts)).

Definition set_TOM (n : Z) : Channels -> value -> Channels :=
  set_field (fun c => mkCounts n (c_Other c) (c_Prompted c)).
Definition set_Other (n : Z) : Channels -> value -> Channels :=
  set_field (fun c => mkCounts (c_TOM c) n (c_Prompted c)).
Definition set_Prompted (n : Z) : Channels -> value -> Channels :=
  set_field (fun c => mkCounts (c_TOM c) (c_Other c) n).

(** [{mapping.get(v, str(v)) for v in exclude_values if v in mapping}] *)
Definition exclude_names (mapping : Mapping) (ex : list value) : list value :=
  map (fun v => VStr (match map_get mapping v with Some l => l | None => str v end))
      (filter (map_mem mapping) ex).

Definition tom_series (df : DataFrame) (tom_col : string) (mapping : Mapping)
    (exclude_values : option (list value)) : Series :=
  let s := dropna (column df tom_col) in
  match exclude_values with
  | Some ((_ :: _) as ex) => drop_isin (exclude_names mapping ex) s
  | _ => s
  end.

(** Step 1: the top-of-mind column holds channel names. *)
Definition tom_entry (all : Channels) (e : value * Z) : Channels :=
  let (channel_name, n) := e in
  if Str.mem (Str.lower (str channel_name)) ["other"; "nan"; "none"] then all
  else set_TOM n all channel_name.

Definition tom_step (df : DataFrame) (tom_col : string) (mapping : Mapping)
    (exclude_values : option (list value)) (all : Channels) : Channels :=
  if has_column df tom_col then
    fold_left tom_entry (value_counts (tom_series df tom_col mapping exclude_values)) all
  else all.

(** Steps 2 and 3: one indicator column per code [i]. *)
Definition yes_step (set : Z -> Channels -> value -> Channels) (df : DataFrame)
    (prefix : string) (mapping : Mapping) (all : Channels) (i : nat) : Channels :=
  let col_name := (prefix ++ Str.of_nat i)%string in
  if negb (has_column df col_name) then all else
  let yes := yes_count (column df col_name) in
  if 0 <? yes then
    match map_get mapping (VNum (Z.of_nat i)) with
    | Some channel => set yes all (VStr channel)
    | None => all
    end
  else all.

(** [exclude_values and suffix in exclude_values] *)
Definition is_excluded (exclude_values : option (list value)) (v : value) : bool :=
  match exclude_values with
  | Some ex => mem_value v ex
  | None => false
  end.

(** The prompted columns [_98] and [_999]. *)
Definition suffix_step (df : DataFrame) (promp_prefix : string) (mapping : Mapping)
    (exclude_values : option (list value)) (all : Channels) (suffix : Z) : Channels :=
  if is_excluded exclude_values (VNum suffix) then all else
  let col_name := (Str.rstrip_underscore promp_prefix ++ "_" ++ Str.of_Z suffix)%string in
  match map_get mapping (VNum suffix) with
  | Some channel =>
      if has_column df col_name then
        let yes := yes_count (column df col_name) in
        if 0 <? yes then set_Prompted yes all (VStr channel) else all
      else all
  | None => all
  end.

(** The dictionary [all_channels] when the four loops are done. *)
Definition all_channels (df : DataFrame) (tom_col other_prefix promp_prefix : string)
    (max_num : nat) (mapping : Mapping) (exclude_values : option (list value)) : Channels :=
  let all := tom_step df tom_col mapping exclude_values [] in
  let all := fold_left (yes_step set_Other df other_prefix mapping) (range1 max_num) all in
  let all := fold_left (yes_step set_Prompted df promp_prefix mapping) (range1 max_num) all in
  fold_left (suffix_step df promp_prefix mapping exclude_values) [98; 999] all.

Record CombRow : Type := mkCombRow {
  channel : value;
  TOM : Z;
  Other : Z;
  Prompted : Z;
  Total : Z
}.

(** [n / total_respondents * 100] before rounding; dividing by zero raises. *)
Definition raw_percent (n total_respondents : Z) : option Q :=
  if total_respondents =? 0 then None
  else Some (inject_Z n / inject_Z total_respondents * 100)%Q.

Definition bind {A B : Type} (x : option A) (f : A -> option B) : option B :=
  match x with Some a => f a | None => None end.

Definition combined_row (total_respondents : Z) (e : value * Counts) : option CombRow :=
  let (ch, counts) := e in
  bind (raw_percent (c_TOM counts) total_respondents) (fun tom =>
  bind (raw_percent (c_Other counts) total_respondents) (fun other =>
  bind (raw_percent (c_Prompted counts) total_respondents) (fun prompted =>
  bind (raw_percent (c_TOM counts + c_Other counts + c_Prompted counts) total_respondents)
    (fun total =>
  Some (mkCombRow ch (round1 tom) (round1 other) (round1 prompted) (round1 total)))))).

Fixpoint map_option {A B : Type} (f : A -> option B) (l : list A) : option (list B) :=
  match l with
  | [] => Some []
  | x :: l' => bind (f x) (fun y => bind (map_option f l') (fun ys => Some (y :: ys)))
  end.

(** [combine_tom_other_promp]; [None] is a [ZeroDivisionError], and the
    empty list is the empty table of five columns. *)
Definition combine_tom_other_promp (df : DataFrame)
    (tom_col other_prefix promp_prefix : string) (max_num : nat) (mapping : Mapping)
    (exclude_values : option (list value)) : option (list CombRow) :=
  let total_respondents := len df in
  match all_channels df tom_col other_prefix promp_prefix max_num mapping exclude_values with
  | [] => Some []
  | all => bind (map_option (combined_row total_respondents) all) (fun data =>
           Some (sort_desc Total data))
  end.

(** [freq_single] of [section3.py]: missing answers are always dropped. *)
Definition freq_single (df : DataFrame) (col : string) (mapping : option Mapping)
    (exclude_values : option (list value)) : FreqTable value :=
  if negb (has_column df col) then empty_table else
  let series := dropna (column df col) in
  let series := match exclude_values with
                | Some ex => drop_isin ex series
                | None => series
                end in
  let series := match mapping with
                | Some m => fillna_series (series_map m series) (astype_str series)
                | None => series
                end in
  match series with
  | [] => empty_table
  | _ =>
      let tab := value_counts series in
      let tab := filter (fun r => 0 <? snd r) tab in
      with_percent_of_sum tab
  end.

(** The rows [grouped_bar_chart] draws:
    [tab.sort_values('Total', ascending=False).head(15)]. *)
Definition tab_sorted (tab : list CombRow) : list CombRow :=
  head 15 (sort_desc Total tab).



End Section3.

(** ** section4.py *)

Module Section4.

(** [series.isin(["1", "1.0", "Yes", "True", "checked"])] on the
    non-missing cells, compared letter for letter. *)
Definition CHECKED : list string := ["1"; "1.0"; "Yes"; "True"; "checked"].

Definition is_checked (c : cell) : bool := Str.mem (astype_str1 c) CHECKED.

Definition checked_count (s : Series) : Z :=
  Z.of_nat (List.length (filter is_checked (dropna s))).

Definition count_column (df : DataFrame) (labels : list (string * string))
    (counts : list (string * Z)) (c : string) : list (string * Z) :=
  let label := od_get_default String.eqb labels c c in
  let cnt := checked_count (column df c) in
  if 0 <? cnt then od_set String.eqb counts label cnt else counts.

Definition multi_counts (df : DataFrame) (cols : list string)
    (labels : list (string * string)) : list (string * Z) :=
  fold_left (count_column df labels) (filter (has_column df) cols) [].

(** [freq_multi] of [section4.py]: percent of the filtered respondents. *)
Definition freq_multi (df : DataFrame) (cols : list string)
    (labels : list (string * string)) : FreqTable string :=
  let present_cols := filter (has_column df) cols in
  match present_cols with
  | [] => empty_table
  | _ =>
      match multi_counts df cols labels with
      | [] => empty_table
      | counts =>
          let total_respondents := len df in
          let tab :=
            map (fun r => mkRow (fst r) (snd r)
                            (if 0 <? total_respondents
                             then percent_of (snd r) total_respondents
                             else round1 0)) counts in
          sort_desc percent tab
      end
  end.

(** [[f"{prefix}_{i}comment" for i in range(1, max_slots + 1)]] restricted
    to the columns of [df]. *)
Definition valid_comment_cols (df : DataFrame) (prefix : string) (max_slots : nat)
    : list string :=
  filter (has_column df)
    (map (fun i => (prefix ++ "_" ++ Str.of_nat i ++ "comment")%string) (range1 max_slots)).

(** The lambda applied to each row:
    [x.astype(str).str.strip().replace([...], pd.NA).count()], where the
    list holds "nan", "None", "0" and the empty string. *)
Definition count_comments (x : list cell) : Z :=
  Z.of_nat (List.length
    (filter (fun c => negb (Str.mem (Str.strip (astype_str1 c)) ["nan"; "None"; "0"; EmptyString])) x)).

Definition counts_per_user (df : DataFrame) (cols : list string) : list Z :=
  map (fun row => count_comments (map (fun c => row_get (df_columns df) c row) cols))
      (df_rows df).

Record SegRow : Type := mkSegRow {
  mentions_count : value;
  num_users : Z;
  seg_percent : Z
}.

Definition num_key (v : value) : Z := match v with VNum z => z | VStr _ => 0 end.

Definition segments_table (df : DataFrame) (cols : list string) : list SegRow :=
  let segments := value_counts (map (fun n => Some (VNum n)) (counts_per_user df cols)) in
  let segments := filter (fun r => 0 <? num_key (fst r)) segments in
  let segments := sort_asc (fun r => num_key (fst r)) segments in
  map (fun r => mkSegRow (fst r) (snd r) (percent_of (snd r) (len df))) segments.

(** The cleaned mentions of one column. *)
Definition column_mentions (df : DataFrame) (c : string) : list string :=
  filter (fun v_clean => negb (Str.mem (Str.lower v_clean) ["nan"; EmptyString; "0"; "none"]))
    (map Str.strip (astype_str (dropna (column df c)))).

Definition all_mentions (df : DataFrame) (cols : list string) : list string :=
  flat_map (column_mentions df) cols.

(** One group of [groupby("normalized")]: its size and its first original. *)
Record Group : Type := mkGroup {
  g_count : Z;
  g_example : string
}.

Definition add_mention (groups : list (string * Group)) (original : string)
    : list (string * Group) :=
  let normalized := Str.lower original in
  match od_get String.eqb groups normalized with
  | Some g => od_set String.eqb groups normalized (mkGroup (g_count g + 1) (g_example g))
  | None => od_set String.eqb groups normalized (mkGroup 1 original)
  end.

(** [groupby("normalized").agg(count, first).reset_index()]: the groups
    come out ordered by their key. *)
Definition groupby_normalized (mentions : list string) : list (string * Group) :=
  sort_by (fun y x => String.ltb (fst y) (fst x)) (fold_left add_mention mentions []).

Record MentionRow : Type := mkMentionRow {
  Mentioned : string;
  Count : Z
}.

Definition mentions_table (mentions : list string) : list MentionRow :=
  let grouped := groupby_normalized mentions in
  let grouped := sort_desc (fun r => g_count (snd r)) grouped in
  map (fun r => mkMentionRow (g_example (snd r)) (g_count (snd r))) grouped.

(** [process_open_ended_comments]; an empty [pd.DataFrame()] is the empty
    list. *)
Definition process_open_ended_comments (df : DataFrame) (prefix : string)
    (max_slots : nat) : list SegRow * list MentionRow :=
  match valid_comment_cols df prefix max_slots with
  | [] => ([], [])
  | cols =>
      let segments := segments_table df cols in
      match all_mentions df cols with
      | [] => (segments, [])
      | mentions => (segments, mentions_table mentions)
      end
  end.

(** [freq_single] of [section4.py]: the column is taken with its missing
    answers. *)
Definition freq_single (df : DataFrame) (col : string) (mapping : option Mapping)
    (exclude_values : option (list value)) : FreqTable value :=
  if negb (has_column df col) then empty_table else
  let series := column df col in
  let series := match exclude_values with
                | Some ex => drop_isin ex series
                | None => series
                end in
  let series := match mapping with
                | Some m => fillna_series (series_map m series) (astype_str series)
                | None => series
                end in
  match series with
  | [] => empty_table
  | _ =>
      let tab := value_counts series in
      let tab := filter (fun r => 0 <? snd r) tab in
      with_percent_of_sum tab
  end.

(** The rows of the "Top 20" charts of [page_section4]: [mentions.head(20)]. *)
Definition top_20 (mentions : list MentionRow) : list MentionRow := head 20 mentions.

End Section4.

(** ** filters.py *)

Module Filters.

(** The option "all" of every multiselect. *)
Definition ALL : string := "Բոլորը".

(** The nine blocks of [render_filters], in the order of the source. *)
Inductive Field : Type :=
| Sex | AgeGroup | City | Region | Settlement | Device
| Marital | Employment | Income.

Definition all_fields : list Field :=
  [Sex; AgeGroup; City; Region; Settlement; Device; Marital; Employment; Income].

Definition field_column (f : Field) : string :=
  match f with
  | Sex => "S2"
  | AgeGroup => "AGE_GRP"
  | City => "S3"
  | Region => "S4"
  | Settlement => "S5"
  | Device => "Dev_lbl"
  | Marital => "D1"
  | Employment => "D4"
  | Income => "D6"
  end.

(** What the widgets return: the selected options of each multiselect. *)
Definition Selections : Type := Field -> list value.

(** The label maps [D1_MARITAL_STATUS_MAP], [D4_EMPLOYMENT_STATUS_MAP] and
    [D6_INCOME_MAP] of [mappings.py]; no map for the other fields. *)
Definition LabelMaps : Type := Field -> option Mapping.

(** ["Բոլորը" not in sel and sel] *)
Definition active (sel : list value) : bool :=
  negb (mem_value (VStr ALL) sel) &&
  match sel with [] => false | _ => true end.

Fixpoint unique (seen : list value) (s : Series) : list value :=
  match s with
  | [] => []
  | None :: s' => unique seen s'
  | Some v :: s' =>
      if mem_value v seen then unique seen s' else v :: unique (v :: seen) s'
  end.

(** [[x for x in df[col].dropna().unique().tolist() if x != 99]]; the
    source sorts the list, which is used for membership only. *)
Definition unique_codes (df : DataFrame) (col : string) : list value :=
  filter (fun x => negb (value_eqb x (VNum 99))) (unique [] (dropna (column df col))).

(** The codes selected through their labels:
    [[k for k, v in MAP.items() if v in sel] + [x for x in unique if str(x) in sel]] *)
Definition selected_ids (df : DataFrame) (m : Mapping) (col : string) (sel : list value)
    : list value :=
  map fst (filter (fun kv => mem_value (VStr (snd kv)) sel) m) ++
  filter (fun x => mem_value (VStr (str x)) sel) (unique_codes df col).

(** The values a block keeps: the selection itself, or the codes behind
    the selected labels for the three mapped fields. *)
Definition allowed (maps : LabelMaps) (df : DataFrame) (sels : Selections) (f : Field)
    : list value :=
  match maps f with
  | Some m => selected_ids df m (field_column f) (sels f)
  | None => sels f
  end.

(** One block: [if col in df.columns: ... if "Բոլորը" not in sel and sel:
    filt_df = filt_df[filt_df[col].isin(...)]]. *)
Definition apply_filter (maps : LabelMaps) (df : DataFrame) (sels : Selections)
    (f : Field) (filt_df : DataFrame) : DataFrame :=
  if has_column df (field_column f) then
    if active (sels f) then
      select_rows
        (fun row => isin (allowed maps df sels f)
                      (row_get (df_columns filt_df) (field_column f) row))
        filt_df
    else filt_df
  else filt_df.

(** [render_filters]: the widgets' answers are the argument [sels]. *)
Definition render_filters (maps : LabelMaps) (df : DataFrame) (sels : Selections)
    : DataFrame :=
  let filt_df := df in
  let filt_df := apply_filter maps df sels Sex filt_df in
  let filt_df := apply_filter maps df sels AgeGroup filt_df in
  let filt_df := apply_filter maps df sels City filt_df in
  let filt_df := apply_filter maps df sels Region filt_df in
  let filt_df := apply_filter maps df sels Settlement filt_df in
  let filt_df := apply_filter maps df sels Device filt_df in
  let filt_df := apply_filter maps df sels Marital filt_df in
  let filt_df := apply_filter maps df sels Employment filt_df in
  let filt_df := apply_filter maps df sels Income filt_df in
  filt_df.

(** The same blocks run in another order. *)
Definition apply_filters (maps : LabelMaps) (df : DataFrame) (sels : Selections)
    (order : list Field) (filt_df : DataFrame) : DataFrame :=
  fold_left (fun acc f => apply_filter maps df sels f acc) order filt_df.

(** The order [sorted] uses: numbers by size, texts by code point; Python
    compares no number with a text. *)
Definition value_ltb (a b : value) : bool :=
  match a, b with
  | VNum x, VNum y => x <? y
  | VStr s, VStr t => String.ltb s t
  | _, _ => false
  end.

Definition same_kind (a b : value) : bool :=
  match a, b with
  | VNum _, VNum _ => true
  | VStr _, VStr _ => true
  | _, _ => false
  end.

Definition one_kind (l : list value) : bool :=
  match l with
  | [] => true
  | a :: l' => forallb (same_kind a) l'
  end.

(** [sorted(l)]; [None] is the [TypeError] of a list that mixes numbers
    and texts. *)
Definition sorted (l : list value) : option (list value) :=
  if one_kind l then Some (sort_by value_ltb l) else None.

(** [["Բոլորը"] + sorted([x for x in series.dropna().unique().tolist()])] *)
Definition options (s : Series) : option (list value) :=
  option_map (cons (VStr ALL)) (sorted (unique [] (dropna s))).

(** The options of the region filter are read from the frame filtered so
    far, with the code 0 taken as missing. *)
Definition s4_options (filt_df : DataFrame) : option (list value) :=
  options (replace_zero (column filt_df "S4")).

(** The options of a filter on labels (marital status, employment,
    income): the label of each code of the column except 99. *)
Definition label_options (df : DataFrame) (m : Mapping) (col : string)
    : option (list value) :=
  option_map
    (fun codes =>
       VStr ALL :: map (fun x => VStr (match map_get m x with
                                       | Some l => l
                                       | None => str x
                                       end)) codes)
    (sorted (unique_codes df col)).

End Filters.

(** ** Sample data *)

Module Samples.

Definition num (z : Z) : cell := Some (VNum z).
Definition txt (s : string) : cell := Some (VStr s).

(** Ten respondents, [SEX] = 1,1,2,2,2,NA,NA,1,2,1. *)
Definition sex_df : DataFrame :=
  mkDF ["SEX"]
    [[num 1]; [num 1]; [num 2]; [num 2]; [num 2]; [None]; [None]; [num 1]; [num 2]; [num 1]].

Definition sex_map : Mapping := [(VNum 1, "Male"); (VNum 2, "Female")].

(** Two respondents with the slots 1,2,NA and 2,NA,NA. *)
Definition slots_df : DataFrame :=
  mkDF ["Q1"; "Q2"; "Q3"] [[num 1; num 2; None]; [num 2; None; None]].

Definition xy_map : Mapping := [(VNum 1, "X"); (VNum 2, "Y")].

(** One respondent with the comments "A", empty, "a", "B". *)
Definition comments_df : DataFrame :=
  mkDF ["O21_1comment"; "O21_2comment"; "O21_3comment"; "O21_4comment"]
    [[txt "A"; txt EmptyString; txt "a"; txt "B"]].

(** One respondent who wrote "A" and "none". *)
Definition none_df : DataFrame :=
  mkDF ["O21_1comment"; "O21_2comment"] [[txt "A"; txt "none"]].

(** Three respondents ticking one option, written "Yes", "YES" and "yes". *)
Definition yes_df : DataFrame :=
  mkDF ["O3_1"] [[txt "Yes"]; [txt "YES"]; [txt "yes"]].

(** One respondent whose only slot holds the code 5, which [xy_map] lacks. *)
Definition unmapped_df : DataFrame := mkDF ["Q1"] [[num 5]].

(** Three respondents; the first names "H1" first, two tick channel 1
    unprompted and all three when prompted. *)
Definition tv_df : DataFrame :=
  mkDF ["R1TOM"; "R1Other_1"; "R1Propm_1"]
    [[txt "H1"; None; txt "Yes"]; [None; txt "Yes"; txt "YES"]; [None; txt "yes"; txt "Yes"]].

Definition tv_map : Mapping := [(VNum 1, "H1"); (VNum 2, "Armenia TV")].

(** The same columns and no respondent. *)
Definition empty_df : DataFrame := mkDF ["R1TOM"; "R1Other_1"; "R1Propm_1"] [].

(** Four respondents with sex, city and marital status. *)
Definition people_df : DataFrame :=
  mkDF ["S2"; "S3"; "D1"]
    [[txt "F"; txt "Yerevan"; num 1]; [txt "M"; txt "Yerevan"; num 2];
     [txt "F"; txt "Gyumri"; num 2]; [txt "F"; txt "Yerevan"; num 2]].

Definition people_maps : Filters.LabelMaps :=
  fun f => match f with
           | Filters.Marital => Some [(VNum 1, "Single"); (VNum 2, "Married")]
           | _ => None
           end.

Definition people_sels : Filters.Selections :=
  fun f => match f with
           | Filters.Sex => [VStr "F"]
           | Filters.City => [VStr "Yerevan"]
           | Filters.Marital => [VStr "Married"]
           | _ => [VStr Filters.ALL]
           end.


(** Three respondents asked about YouTube; the second gave no answer. *)
Definition o1_df : DataFrame := mkDF ["O1"] [[num 1]; [None]; [num 2]].

Definition o1_map : Mapping := [(VNum 1, "Yes"); (VNum 2, "No")].

(** Every filter left on "all". *)
Definition default_sels : Filters.Selections := fun _ => [VStr Filters.ALL].

(** Regions of four respondents: 3, 0, missing, 1. *)
Definition region_df : DataFrame := mkDF ["S4"] [[num 3]; [num 0]; [None]; [num 1]].

(** A sheet of three respondents whose column names carry blanks; the
    third gave neither age nor device. *)
Definition raw_sheet : DataFrame :=
  mkDF [" AGE"; "Dev "; "S2"]
    [[num 15; num 1; txt "F"]; [num 34; num 3; txt "M"]; [None; None; txt "F"]].

(** Six respondents asked their marital status; one refused (99), one did
    not answer and one gave a code that has no label. *)
Definition marital_df : DataFrame :=
  mkDF ["D1"] [[num 2]; [num 99]; [num 1]; [num 2]; [None]; [num 7]].

Definition marital_map : Mapping := [(VNum 1, "Single"); (VNum 2, "Married")].

End Samples.

(** ** Vocabulary of the specification *)

(** Each row's key is at least the key of the row after it. *)
Definition descending {A : Type} (key : A -> Z) (l : list A) : Prop :=
  Sorted (fun a b => key b <= key a) l.

(** The population [freq_single] tabulates: the column after the handling
    of missing values and the removal of the excluded codes; no record is
    eligible when the column is absent. *)
Definition eligible_single (df : DataFrame) (col : string)
    (exclude_values : option (list value)) (include_null : bool) : Series :=
  if negb (has_column df col) then [] else
  let series := column df col in
  let series := if include_null then fillna (VStr App.NO_DATA) series else dropna series in
  match exclude_values with
  | Some ex => drop_isin ex series
  | None => series
  end.

(** The label of a code: its entry in the mapping, else its text. *)
Definition label_of (m : Mapping) (v : value) : string :=
  match map_get m v with
  | Some l => l
  | None => str v
  end.

(** The label a slot value is counted under, if any. *)
Definition slot_labels (mapping : Mapping) (c : cell) : list string :=
  match c with
  | Some v => match map_get mapping v with Some l => [l] | None => [] end
  | None => []
  end.

(** The labels of the slot values [freq_multi_numbered] counts: over the
    slots 1..max_num, every value that is neither missing nor excluded and
    is a key of the mapping. *)
Definition counted_labels (df : DataFrame) (col_prefix : string) (max_num : nat)
    (mapping : Mapping) (exclude_values : option (list value)) : list string :=
  flat_map
    (fun i => flat_map (slot_labels mapping)
                (Section3.slot_values df col_prefix exclude_values i))
    (range1 max_num).

(** Number of occurrences of a label. *)
Definition occurrences (l : string) (ls : list string) : Z :=
  Z.of_nat (count_occ string_dec ls l).


(** Every entry of a counter is above zero. *)
Definition positive_counts {K : Type} (d : list (K * Z)) : Prop :=
  Forall (fun e => 0 < snd e) d.

(** A series without NaN. *)
Definition no_missing (s : Series) : Prop := Forall (fun c => c <> None) s.

(** The series after the optional relabelling. *)
Definition relabel (mapping : option Mapping) (s : Series) : Series :=
  match mapping with
  | Some m => fillna_series (series_map m s) (astype_str s)
  | None => s
  end.

(** [counts[label] = counts.get(label, 0) + 1] *)
Definition bump (counts : list (string * Z)) (label : string) : list (string * Z) :=
  od_set String.eqb counts label (od_get_default String.eqb counts label 0 + 1).

(** The label [freq_multi] gives to a column: [labels.get(c, c)]. *)
Definition option_label (labels : list (string * string)) (c : string) : string :=
  od_get_default String.eqb labels c c.

(** The row the source builds for one item. *)
Definition code_row (N : Z) (e : value * Section3.Counts) : Section3.CombRow :=
  let n := snd e in
  Section3.mkCombRow (fst e)
    (round1 (inject_Z (Section3.c_TOM n) / inject_Z N * 100))
    (round1 (inject_Z (Section3.c_Other n) / inject_Z N * 100))
    (round1 (inject_Z (Section3.c_Prompted n) / inject_Z N * 100))
    (round1 (inject_Z (Section3.c_TOM n + Section3.c_Other n + Section3.c_Prompted n)
             / inject_Z N * 100)).

(** The rows a block keeps, as a predicate on the row. *)
Definition keeps (maps : Filters.LabelMaps) (df : DataFrame) (sels : Filters.Selections)
    (cols : list string) (f : Filters.Field) (row : list cell) : bool :=
  if has_column df (Filters.field_column f) && Filters.active (sels f)
  then isin (Filters.allowed maps df sels f) (row_get cols (Filters.field_column f) row)
  else true.

(** ** More vocabulary *)

(** The age brackets, youngest first. *)
Definition AGE_GROUPS : list string :=
  ["Մինչև 16տ"; "16-20տ."; "21-29տ."; "30-39տ."; "40-49տ."; "50-59տ.";
   "60-69տ."; "70 և ավելի"].

(** The cell holds the value [v]. *)
Definition cell_is (v : value) (c : cell) : bool :=
  match c with
  | Some w => value_eqb w v
  | None => false
  end.

(** Number of cells of a series that hold [v]. *)
Definition times (v : value) (s : Series) : Z :=
  Z.of_nat (List.length (filter (cell_is v) s)).

(** The cells [freq_single] of [section4.py] tabulates: the column without
    the excluded codes, missing answers included. *)
Definition kept_cells (df : DataFrame) (col : string)
    (exclude_values : option (list value)) : Series :=
  if negb (has_column df col) then [] else
  match exclude_values with
  | Some ex => drop_isin ex (column df col)
  | None => column df col
  end.

(** The mention [m] is the text [k] when case is ignored. *)
Definition same_text (k m : string) : bool := String.eqb (Str.lower m) k.

(** Number of mentions that are [k] when case is ignored. *)
Definition mention_count (k : string) (ms : list string) : Z :=
  Z.of_nat (List.length (filter (same_text k) ms)).

(** The first mention that is [k] when case is ignored. *)
Definition first_spelling (k : string) (ms : list string) : option string :=
  find (same_text k) ms.

(** Each row's key is at most the key of the row after it. *)
Definition ascending {A : Type} (key : A -> Z) (l : list A) : Prop :=
  Sorted (fun a b => key a <= key b) l.

(** What the groups hold once the mentions [seen] are added. *)
Definition groups_of (seen : list string) (groups : list (string * Section4.Group))
    : Prop :=
  NoDup (map fst groups)
  /\ forall k, od_get String.eqb groups k =
               option_map (Section4.mkGroup (mention_count k seen))
                 (first_spelling k seen).

(** The number of comments of each respondent, as a series. *)
Definition comment_counts (df : DataFrame) (prefix : string) (max_slots : nat) : Series :=
  map (fun n => Some (VNum n))
    (Section4.counts_per_user df (Section4.valid_comment_cols df prefix max_slots)).

(** The cell holds a number above zero. *)
Definition positive_cell (c : cell) : bool :=
  match c with
  | Some v => 0 <? Section4.num_key v
  | None => false
  end.

(** The names that [combine_tom_other_promp] does not count as a first
    mention. *)
Definition placeholder_name (ch : value) : bool :=
  Str.mem (Str.lower (str ch)) ["other"; "nan"; "none"].

(** The rows of a table past the first [n]. *)
Definition beyond {A : Type} (n : nat) (tab : list A) : list A := skipn n tab.


(** The session after the forms [attempts] were sent one after the other:
    [check_password] shows the form only while the session does not pass, so
    a form is sent only then. *)
Fixpoint session_after (username_known : string -> bool) (secret : string)
    (s : App.Session) (attempts : list (string * string)) : option App.Session :=
  match attempts with
  | [] => Some s
  | (u, p) :: rest =>
      if App.check_password s then Some s
      else
        match App.login username_known secret s u p with
        | Some s' => session_after username_known secret s' rest
        | None => None
        end
  end.

(** The sheet read, with the names of its columns trimmed. *)
Definition stripped (raw : DataFrame) : DataFrame :=
  mkDF (map Str.strip (df_columns raw)) (df_rows raw).

(** The device label of a cell of the column Dev. *)
Definition device_label (c : cell) : cell :=
  match c with
  | Some v => Some (VStr (label_of App.dev_map v))
  | None => Some (VStr "nan")
  end.

(** * Properties *)

(** ** Decidable equalities *)

Lemma value_eqb_eq (a b : value) : value_eqb a b = true <-> a = b.
Proof.
  destruct a as [x|s], b as [y|t]; simpl; split; intro H;
    try discriminate; try (inversion H; subst).
  - apply Z.eqb_eq in H. now subst.
  - apply Z.eqb_refl.
  - apply String.eqb_eq in H. now subst.
  - apply String.eqb_refl.
Qed.

Lemma value_eqb_refl (a : value) : value_eqb a a = true.
Proof. now apply value_eqb_eq. Qed.

(** ** Stable sorting *)

Section SortFacts.
Context {A : Type}.
Variable before : A -> A -> bool.

Lemma insert_sorted_perm (x : A) (l : list A) :
  Permutation (x :: l) (insert_sorted before x l).
Proof.
  induction l as [|y l IH]; simpl.
  - apply Permutation_refl.
  - destruct (before y x).
    + eapply perm_trans; [apply perm_swap|]. now apply perm_skip.
    + apply Permutation_refl.
Qed.

Lemma sort_by_perm (l : list A) : Permutation l (sort_by before l).
Proof.
  induction l as [|x l IH]; simpl.
  - apply perm_nil.
  - eapply perm_trans; [apply perm_skip, IH | apply insert_sorted_perm].
Qed.

Lemma sort_by_In (l : list A) (x : A) : In x (sort_by before l) <-> In x l.
Proof.
  split; apply Permutation_in;
    [apply Permutation_sym|]; apply sort_by_perm.
Qed.

Lemma sort_by_Forall (P : A -> Prop) (l : list A) :
  Forall P l -> Forall P (sort_by before l).
Proof.
  intro H. eapply Permutation_Forall; [apply sort_by_perm | exact H].
Qed.

End SortFacts.

Section SortDesc.
Context {A : Type}.
Variable key : A -> Z.

Lemma insert_desc_sorted (x : A) (l : list A) :
  descending key l -> descending key (insert_sorted (fun y x => key x <? key y) x l).
Proof.
  unfold descending. induction l as [|y l IH]; simpl; intro Hs.
  - repeat constructor.
  - destruct (key x <? key y) eqn:E.
    + apply Sorted_inv in Hs as [Hs Hhd].
      constructor; [now apply IH|].
      destruct l as [|z l]; simpl.
      * constructor. apply Z.ltb_lt in E. lia.
      * destruct (key x <? key z) eqn:E'.
        -- constructor. now inversion Hhd.
        -- constructor. apply Z.ltb_lt in E. lia.
    + constructor; [assumption|]. constructor. apply Z.ltb_ge in E. lia.
Qed.

Lemma sort_desc_sorted (l : list A) : descending key (sort_desc key l).
Proof.
  unfold sort_desc. induction l as [|x l IH]; simpl.
  - constructor.
  - now apply insert_desc_sorted.
Qed.
End SortDesc.

Lemma sum_Z_perm (l1 l2 : list Z) : Permutation l1 l2 -> sum_Z l1 = sum_Z l2.
Proof. induction 1; simpl; lia. Qed.

Lemma sum_Z_sort {A : Type} (before : A -> A -> bool) (f : A -> Z) (l : list A) :
  sum_Z (map f (sort_by before l)) = sum_Z (map f l).
Proof.
  apply sum_Z_perm, Permutation_map, Permutation_sym, sort_by_perm.
Qed.

(** ** Dictionaries *)

Section DictFacts.
Context {K V : Type}.
Variable eqb : K -> K -> bool.
Hypothesis eqb_eq : forall a b, eqb a b = true <-> a = b.

Lemma eqb_refl' (a : K) : eqb a a = true.
Proof. now apply eqb_eq. Qed.

Lemma eqb_neq' (a b : K) : a <> b -> eqb a b = false.
Proof.
  intro H. destruct (eqb a b) eqn:E; [|reflexivity].
  apply eqb_eq in E. contradiction.
Qed.

Lemma od_get_set_same (d : list (K * V)) (k : K) (v : V) :
  od_get eqb (od_set eqb d k v) k = Some v.
Proof.
  induction d as [|[k' v'] d IH]; simpl.
  - now rewrite eqb_refl'.
  - destruct (eqb k k') eqn:E; simpl; rewrite E; [reflexivity | exact IH].
Qed.

Lemma od_get_set_other (d : list (K * V)) (k k0 : K) (v : V) :
  k0 <> k -> od_get eqb (od_set eqb d k v) k0 = od_get eqb d k0.
Proof.
  intro Hne. induction d as [|[k' v'] d IH]; simpl.
  - now rewrite (eqb_neq' k0 k).
  - destruct (eqb k k') eqn:E; simpl.
    + apply eqb_eq in E. subst k'. now rewrite (eqb_neq' k0 k).
    + now rewrite IH.
Qed.

Lemma od_get_In (d : list (K * V)) (k : K) (v : V) :
  od_get eqb d k = Some v -> In (k, v) d.
Proof.
  induction d as [|[k' v'] d IH]; simpl; [discriminate|].
  destruct (eqb k k') eqn:E.
  - intro H. inversion H. subst. apply eqb_eq in E. subst. now left.
  - intro H. right. now apply IH.
Qed.

Lemma od_get_None (d : list (K * V)) (k : K) :
  od_get eqb d k = None <-> ~ In k (map fst d).
Proof.
  induction d as [|[k' v'] d IH]; simpl.
  - tauto.
  - destruct (eqb k k') eqn:E.
    + apply eqb_eq in E. subst. split; [discriminate | intro H; exfalso; auto].
    + rewrite IH. split.
      * intros H [H1|H1]; [subst; now rewrite eqb_refl' in E | auto].
      * intros H H1. auto.
Qed.

Lemma In_od_get (d : list (K * V)) (k : K) (v : V) :
  NoDup (map fst d) -> In (k, v) d -> od_get eqb d k = Some v.
Proof.
  induction d as [|[k' v'] d IH]; simpl; [tauto|].
  intros Hnd [H|H].
  - inversion H. subst. now rewrite eqb_refl'.
  - inversion Hnd as [|? ? Hnotin Hnd']. subst.
    destruct (eqb k k') eqn:E.
    + apply eqb_eq in E. subst. exfalso. apply Hnotin.
      change k' with (fst (k', v)). now apply in_map.
    + now apply IH.
Qed.

Lemma od_set_keys_present (d : list (K * V)) (k : K) (v : V) :
  In k (map fst d) -> map fst (od_set eqb d k v) = map fst d.
Proof.
  induction d as [|[k' v'] d IH]; simpl; [tauto|].
  intro H. destruct (eqb k k') eqn:E; simpl; [reflexivity|].
  f_equal. apply IH. destruct H as [H|H]; [|assumption].
  subst. now rewrite eqb_refl' in E.
Qed.

Lemma od_set_fresh (d : list (K * V)) (k : K) (v : V) :
  ~ In k (map fst d) -> od_set eqb d k v = d ++ [(k, v)].
Proof.
  induction d as [|[k' v'] d IH]; simpl; [reflexivity|].
  intro H. rewrite eqb_neq' by (intro; subst; auto).
  f_equal. apply IH. auto.
Qed.

Lemma od_keys_dec (d : list (K * V)) (k : K) :
  In k (map fst d) \/ ~ In k (map fst d).
Proof.
  destruct (od_get eqb d k) as [v|] eqn:E.
  - left. apply od_get_In in E. change k with (fst (k, v)). now apply in_map.
  - right. now apply od_get_None.
Qed.

Lemma od_set_NoDup (d : list (K * V)) (k : K) (v : V) :
  NoDup (map fst d) -> NoDup (map fst (od_set eqb d k v)).
Proof.
  intro Hnd. destruct (od_keys_dec d k) as [Hin|Hnin].
  - now rewrite od_set_keys_present.
  - rewrite od_set_fresh by assumption. rewrite map_app. simpl.
    eapply Permutation_NoDup; [apply Permutation_cons_append|].
    now constructor.
Qed.

Lemma od_set_Forall (P : K * V -> Prop) (d : list (K * V)) (k : K) (v : V) :
  Forall P d -> P (k, v) -> Forall P (od_set eqb d k v).
Proof.
  intros Hd Hk. induction Hd as [|[k' v'] d Hp Hd IH]; simpl.
  - now constructor.
  - destruct (eqb k k') eqn:E.
    + apply eqb_eq in E. subst. now constructor.
    + now constructor.
Qed.

Lemma od_set_In (d : list (K * V)) (k : K) (v : V) (e : K * V) :
  In e (od_set eqb d k v) -> e = (k, v) \/ In e d.
Proof.
  induction d as [|[k' v'] d IH]; simpl.
  - intros [H|[]]. now left.
  - destruct (eqb k k') eqn:E; simpl.
    + apply eqb_eq in E. subst. intros [H|H]; auto.
    + intros [H|H]; auto. apply IH in H. tauto.
Qed.

End DictFacts.

Section Counters.
Context {K : Type}.
Variable eqb : K -> K -> bool.

(** Writing [v] over the entry of [k] changes the total by the difference. *)
Lemma od_set_sum (d : list (K * Z)) (k : K) (v : Z) :
  sum_Z (map snd (od_set eqb d k v)) =
  sum_Z (map snd d) - od_get_default eqb d k 0 + v.
Proof.
  unfold od_get_default. induction d as [|[k' v'] d IH]; simpl; [lia|].
  destruct (eqb k k'); simpl; lia.
Qed.

Lemma od_get_default_nonneg (d : list (K * Z)) (k : K) :
  Forall (fun e => 0 < snd e) d -> 0 <= od_get_default eqb d k 0.
Proof.
  unfold od_get_default. induction 1 as [|[k' v'] d Hp Hd IH]; simpl; [lia|].
  destruct (eqb k k'); simpl in *; lia.
Qed.
End Counters.

(** ** Counting values *)

Lemma tally_sum (s : Series) (acc : list (value * Z)) :
  sum_Z (map snd (tally acc s)) =
  sum_Z (map snd acc) + Z.of_nat (List.length (dropna s)).
Proof.
  revert acc. induction s as [|[v|] s IH]; intro acc; simpl.
  - lia.
  - rewrite IH, od_set_sum. lia.
  - apply IH.
Qed.

Lemma tally_positive (s : Series) (acc : list (value * Z)) :
  positive_counts acc -> positive_counts (tally acc s).
Proof.
  revert acc. induction s as [|[v|] s IH]; intros acc Hacc; simpl; auto.
  apply IH. apply od_set_Forall; [apply value_eqb_eq | assumption |].
  simpl. pose proof (od_get_default_nonneg value_eqb acc v Hacc). lia.
Qed.

Lemma tally_keys (s : Series) (acc : list (value * Z)) (v : value) :
  In v (map fst acc) \/ In (Some v) s -> In v (map fst (tally acc s)).
Proof.
  revert acc. induction s as [|[w|] s IH]; intros acc H; simpl.
  - destruct H as [H|[]]. exact H.
  - apply IH. destruct H as [H|[H|H]].
    + left. destruct (od_keys_dec value_eqb value_eqb_eq acc w) as [Hw|Hw].
      * now rewrite od_set_keys_present by (auto using value_eqb_eq).
      * rewrite od_set_fresh by (auto using value_eqb_eq).
        rewrite map_app. apply in_or_app. now left.
    + inversion H. subst w. left.
      pose proof (od_get_set_same value_eqb value_eqb_eq acc v
                    (od_get_default value_eqb acc v 0 + 1)) as Hg.
      apply od_get_In in Hg; [|apply value_eqb_eq].
      change v with (fst (v, od_get_default value_eqb acc v 0 + 1)).
      now apply in_map.
    + now right.
  - apply IH. destruct H as [H|[H|H]]; [now left | discriminate | now right].
Qed.

Lemma tally_keys_inv (s : Series) (acc : list (value * Z)) (v : value) :
  In v (map fst (tally acc s)) -> In v (map fst acc) \/ In (Some v) s.
Proof.
  revert acc. induction s as [|[w|] s IH]; intros acc H; simpl in *.
  - now left.
  - apply IH in H. destruct H as [H|H]; [|now right; right].
    apply in_map_iff in H as [[k n] [Hk Hin]]. simpl in Hk. subst k.
    apply od_set_In in Hin; [|apply value_eqb_eq].
    destruct Hin as [Heq|Hin].
    + inversion Heq. subst. right. now left.
    + left. change v with (fst (v, n)). now apply in_map.
  - apply IH in H. destruct H; [now left | now right; right].
Qed.

Lemma value_counts_sum (s : Series) :
  sum_Z (map snd (value_counts s)) = Z.of_nat (List.length (dropna s)).
Proof.
  unfold value_counts, sort_desc. rewrite sum_Z_sort, tally_sum. simpl. lia.
Qed.

Lemma value_counts_positive (s : Series) : positive_counts (value_counts s).
Proof.
  unfold value_counts, sort_desc. apply sort_by_Forall, tally_positive. constructor.
Qed.

Lemma value_counts_keys (s : Series) (v : value) :
  In v (map fst (value_counts s)) <-> In (Some v) s.
Proof.
  unfold value_counts, sort_desc. split; intro H.
  - apply in_map_iff in H as [e [He Hin]]. apply sort_by_In in Hin.
    assert (Hk : In v (map fst (tally [] s))) by (subst; now apply in_map).
    apply tally_keys_inv in Hk. destruct Hk as [[]|Hk]. exact Hk.
  - assert (Hk : In v (map fst (tally [] s))) by (apply tally_keys; now right).
    apply in_map_iff in Hk as [e [He Hin]].
    apply in_map_iff. exists e. split; [assumption|]. now apply sort_by_In.
Qed.

Lemma filter_positive {K : Type} (d : list (K * Z)) :
  positive_counts d -> filter (fun r => 0 <? snd r) d = d.
Proof.
  induction 1 as [|e d He Hd IH]; simpl; [reflexivity|].
  apply Z.ltb_lt in He. now rewrite He, IH.
Qed.

Lemma with_percent_counts {A : Type} (tab : list (A * Z)) :
  map count (with_percent_of_sum tab) = map snd tab.
Proof. unfold with_percent_of_sum. rewrite map_map. reflexivity. Qed.

Lemma with_percent_answers {A : Type} (tab : list (A * Z)) :
  map answer (with_percent_of_sum tab) = map fst tab.
Proof. unfold with_percent_of_sum. rewrite map_map. reflexivity. Qed.

Lemma with_percent_positive {A : Type} (tab : list (A * Z)) :
  positive_counts tab -> Forall (fun r => 0 < count r) (with_percent_of_sum tab).
Proof.
  unfold with_percent_of_sum. intro H. apply Forall_map.
  eapply Forall_impl; [|exact H]. auto.
Qed.

(** ** The series [freq_single] counts *)

Lemma dropna_no_missing (s : Series) : no_missing s -> dropna s = s.
Proof.
  induction 1 as [|c s Hc Hs IH]; simpl; [reflexivity|].
  destruct c; [simpl; now rewrite IH | contradiction].
Qed.

Lemma dropna_is_clean (s : Series) : no_missing (dropna s).
Proof.
  induction s as [|[v|] s IH]; simpl; try constructor; auto. discriminate.
Qed.

Lemma fillna_is_clean (v : value) (s : Series) : no_missing (fillna v s).
Proof.
  induction s as [|[w|] s IH]; simpl; constructor; auto; discriminate.
Qed.

Lemma drop_isin_clean (ex : list value) (s : Series) :
  no_missing s -> no_missing (drop_isin ex s).
Proof.
  unfold no_missing, drop_isin. intro H. apply Forall_forall. intros c Hc.
  apply filter_In in Hc as [Hc _]. rewrite Forall_forall in H. now apply H.
Qed.

Lemma eligible_single_clean df col ex incl : no_missing (eligible_single df col ex incl).
Proof.
  unfold eligible_single. destruct (negb (has_column df col)); [constructor|].
  destruct ex as [ex|]; [apply drop_isin_clean|];
    destruct incl; auto using dropna_is_clean, fillna_is_clean.
Qed.

(** [series.map(mapping).fillna(series.astype(str))] labels every cell. *)
Lemma labelled_series (m : Mapping) (s : Series) :
  fillna_series (series_map m s) (astype_str s) =
  map (fun c => match c with
                | Some v => Some (VStr (label_of m v))
                | None => Some (VStr "nan")
                end) s.
Proof.
  induction s as [|[v|] s IH]; simpl; [reflexivity| |]; rewrite IH; try reflexivity.
  unfold label_of. now destruct (map_get m v).
Qed.

Lemma relabel_length mapping s : List.length (relabel mapping s) = List.length s.
Proof.
  destruct mapping as [m|]; simpl; [|reflexivity].
  rewrite labelled_series. apply length_map.
Qed.

Lemma relabel_clean mapping s : no_missing s -> no_missing (relabel mapping s).
Proof.
  destruct mapping as [m|]; simpl; [|auto]. intros _.
  rewrite labelled_series. apply Forall_map, Forall_forall.
  intros [v|] _; discriminate.
Qed.

(** [freq_single] is the table of counts of the relabelled eligible series. *)
Lemma freq_single_table df col mapping ex incl :
  App.freq_single df col mapping ex incl =
  with_percent_of_sum
    (value_counts (relabel mapping (eligible_single df col ex incl))).
Proof.
  unfold App.freq_single, eligible_single.
  destruct (negb (has_column df col)).
  - destruct mapping; reflexivity.
  - fold (relabel mapping
            (match ex with
             | Some ex0 =>
                 drop_isin ex0
                   (if incl then fillna (VStr App.NO_DATA) (column df col)
                    else dropna (column df col))
             | None =>
                 if incl then fillna (VStr App.NO_DATA) (column df col)
                 else dropna (column df col)
             end)).
    match goal with |- context [relabel mapping ?e] => set (s := relabel mapping e) end.
    destruct s eqn:Es; [reflexivity|].
    rewrite filter_positive by apply value_counts_positive. reflexivity.
Qed.

Lemma freq_single_sum df col mapping ex incl :
  sum_Z (map count (App.freq_single df col mapping ex incl)) =
  Z.of_nat (List.length (eligible_single df col ex incl)).
Proof.
  rewrite freq_single_table, with_percent_counts, value_counts_sum.
  rewrite dropna_no_missing by apply relabel_clean, eligible_single_clean.
  now rewrite relabel_length.
Qed.

Lemma freq_single_positive df col mapping ex incl :
  Forall (fun r => 0 < count r) (App.freq_single df col mapping ex incl).
Proof.
  rewrite freq_single_table. apply with_percent_positive, value_counts_positive.
Qed.

(** An eligible value without an entry in the mapping has a row under its
    own text. *)
Lemma freq_single_unmapped df col m ex incl (v : value) :
  In (Some v) (eligible_single df col ex incl) ->
  map_get m v = None ->
  exists r, In r (App.freq_single df col (Some m) ex incl) /\
            answer r = VStr (str v) /\ 0 < count r.
Proof.
  intros Hin Hm.
  assert (Hk : In (VStr (str v))
                 (map answer (App.freq_single df col (Some m) ex incl))).
  { rewrite freq_single_table, with_percent_answers. apply value_counts_keys.
    simpl. rewrite labelled_series. apply in_map_iff.
    exists (Some v). split; [|assumption].
    unfold label_of. now rewrite Hm. }
  apply in_map_iff in Hk as [r [Ha Hr]]. exists r. repeat split; auto.
  pose proof (freq_single_positive df col (Some m) ex incl) as Hp.
  rewrite Forall_forall in Hp. now apply Hp.
Qed.

(** ** Counters filled one mention at a time *)


Lemma bump_positive (ls : list string) (d : list (string * Z)) :
  positive_counts d -> positive_counts (fold_left bump ls d).
Proof.
  revert d. induction ls as [|l ls IH]; intros d Hd; simpl; auto.
  apply IH. apply od_set_Forall; [apply String.eqb_eq | assumption |].
  simpl. pose proof (od_get_default_nonneg String.eqb d l Hd). lia.
Qed.

Lemma bump_NoDup (ls : list string) (d : list (string * Z)) :
  NoDup (map fst d) -> NoDup (map fst (fold_left bump ls d)).
Proof.
  revert d. induction ls as [|l ls IH]; intros d Hd; simpl; auto.
  apply IH. apply od_set_NoDup; [apply String.eqb_eq | assumption].
Qed.

Lemma bump_get (ls : list string) (d : list (string * Z)) (l : string) :
  od_get_default String.eqb (fold_left bump ls d) l 0 =
  od_get_default String.eqb d l 0 + occurrences l ls.
Proof.
  unfold occurrences. revert d. induction ls as [|x ls IH]; intro d; simpl; [lia|].
  rewrite IH. unfold bump at 1. unfold od_get_default at 1.
  destruct (string_dec x l) as [->|Hne].
  - rewrite od_get_set_same by apply String.eqb_eq. lia.
  - rewrite od_get_set_other by (try apply String.eqb_eq; congruence).
    unfold od_get_default. lia.
Qed.

(** The entries of a counter are the labels mentioned, each with its
    number of mentions. *)
Lemma bump_entries (ls : list string) (l : string) (n : Z) :
  In (l, n) (fold_left bump ls []) <-> In l ls /\ n = occurrences l ls.
Proof.
  pose proof (bump_get ls [] l) as Hg. unfold od_get_default at 2 in Hg. simpl in Hg.
  pose proof (bump_NoDup ls [] (NoDup_nil _)) as Hnd.
  pose proof (bump_positive ls [] (Forall_nil _)) as Hpos.
  split.
  - intro Hin.
    pose proof (In_od_get String.eqb String.eqb_eq _ _ _ Hnd Hin) as Hget.
    unfold od_get_default in Hg. rewrite Hget in Hg.
    unfold positive_counts in Hpos. rewrite Forall_forall in Hpos.
    specialize (Hpos _ Hin). simpl in Hpos.
    split; [|assumption].
    unfold occurrences in Hg.
    destruct (count_occ string_dec ls l) eqn:E; [simpl in Hg; lia|].
    apply (count_occ_In string_dec). lia.
  - intros [Hin ->].
    apply (count_occ_In string_dec) in Hin.
    unfold od_get_default in Hg.
    destruct (od_get String.eqb (fold_left bump ls []) l) as [k|] eqn:E.
    + apply od_get_In in E; [|apply String.eqb_eq]. now rewrite <- Hg.
    + unfold occurrences in Hg. lia.
Qed.

(** ** Tables built from a counter *)

Lemma finish_table {A : Type} (counts : list (A * Z)) :
  match counts with
  | [] => empty_table
  | _ => sort_desc percent (with_percent_of_sum counts)
  end = sort_desc percent (with_percent_of_sum counts).
Proof. destruct counts; reflexivity. Qed.


Lemma sorted_table_rows {A : Type} (counts : list (A * Z)) (r : Row A) :
  In r (sort_desc percent (with_percent_of_sum counts)) <->
  In (answer r, count r) counts /\
  percent r = percent_of (count r) (sum_Z (map snd counts)).
Proof.
  unfold sort_desc. rewrite sort_by_In. unfold with_percent_of_sum.
  rewrite in_map_iff. split.
  - intros [[a n] [Hr Hin]]. subst r. simpl. auto.
  - intros [Hin Hp]. exists (answer r, count r). split; [|assumption].
    destruct r as [a n p]. simpl in *. now subst p.
Qed.

Lemma sorted_table_positive {A : Type} (counts : list (A * Z)) :
  positive_counts counts ->
  Forall (fun r => 0 < count r) (sort_desc percent (with_percent_of_sum counts)).
Proof.
  intro H. unfold sort_desc. now apply sort_by_Forall, with_percent_positive.
Qed.

Lemma sorted_table_answers {A : Type} (counts : list (A * Z)) :
  Permutation (map fst counts)
    (map answer (sort_desc percent (with_percent_of_sum counts))).
Proof.
  rewrite <- with_percent_answers. apply Permutation_map, sort_by_perm.
Qed.

(** ** Numbered slots *)

Lemma count_values_bump (mapping : Mapping) (s : Series) (counts : list (string * Z)) :
  fold_left (Section3.count_value mapping) s counts =
  fold_left bump (flat_map (slot_labels mapping) s) counts.
Proof.
  revert counts. induction s as [|c s IH]; intro counts; simpl; [reflexivity|].
  rewrite fold_left_app, IH. f_equal.
  destruct c as [v|]; simpl; [|reflexivity].
  destruct (map_get mapping v); reflexivity.
Qed.

Lemma numbered_counts_bump df col_prefix max_num mapping ex :
  Section3.numbered_counts df col_prefix max_num mapping ex =
  fold_left bump (counted_labels df col_prefix max_num mapping ex) [].
Proof.
  unfold Section3.numbered_counts, counted_labels.
  generalize (@nil (string * Z)). induction (range1 max_num) as [|i rest IH];
    intro counts; simpl; [reflexivity|].
  rewrite fold_left_app, IH. f_equal.
  unfold Section3.count_slot. apply count_values_bump.
Qed.

Lemma freq_multi_numbered_table df col_prefix max_num mapping ex :
  Section3.freq_multi_numbered df col_prefix max_num mapping ex =
  sort_desc percent
    (with_percent_of_sum
       (fold_left bump (counted_labels df col_prefix max_num mapping ex) [])).
Proof.
  unfold Section3.freq_multi_numbered.
  rewrite <- numbered_counts_bump.
  destruct (Section3.numbered_counts df col_prefix max_num mapping ex); reflexivity.
Qed.

(** ** Indicator columns *)

Lemma fold_left_invariant {A B : Type} (P : A -> Prop) (f : A -> B -> A)
    (l : list B) (a : A) :
  P a -> (forall a b, P a -> P (f a b)) -> P (fold_left f l a).
Proof.
  intros Ha Hstep. revert a Ha. induction l as [|b l IH]; intros a Ha; simpl; auto.
Qed.

Lemma od_set_positive (counts : list (string * Z)) (label : string) (n : Z) :
  positive_counts counts -> 0 < n -> positive_counts (od_set String.eqb counts label n).
Proof. intros Hc Hn. apply od_set_Forall; [apply String.eqb_eq | |]; assumption. Qed.

Lemma section2_counts_positive df labels cols :
  positive_counts (fold_left (Section2.count_column df labels) cols []).
Proof.
  apply fold_left_invariant; [constructor|].
  intros counts c Hc. unfold Section2.count_column.
  destruct (0 <? yes_count (column df c)) eqn:E; [|assumption].
  apply od_set_positive; [assumption | now apply Z.ltb_lt].
Qed.

Lemma section2_freq_multi_positive df cols labels :
  Forall (fun r => 0 < count r) (Section2.freq_multi df cols labels).
Proof.
  unfold Section2.freq_multi. destruct (filter (has_column df) cols) eqn:E.
  - constructor.
  - rewrite finish_table. apply sorted_table_positive, section2_counts_positive.
Qed.

Lemma section4_counts_positive df cols labels :
  positive_counts (Section4.multi_counts df cols labels).
Proof.
  unfold Section4.multi_counts. apply fold_left_invariant; [constructor|].
  intros counts c Hc. unfold Section4.count_column.
  destruct (0 <? Section4.checked_count (column df c)) eqn:E; [|assumption].
  apply od_set_positive; [assumption | now apply Z.ltb_lt].
Qed.

Lemma section4_freq_multi_rows df cols labels :
  Permutation
    (map (fun r => (answer r, count r)) (Section4.freq_multi df cols labels))
    (Section4.multi_counts df cols labels).
Proof.
  unfold Section4.freq_multi.
  destruct (filter (has_column df) cols) eqn:E.
  - unfold Section4.multi_counts. rewrite E. apply perm_nil.
  - destruct (Section4.multi_counts df cols labels) as [|e counts] eqn:Ec;
      [apply perm_nil|].
    cbv zeta. unfold sort_desc.
    eapply perm_trans; [apply Permutation_map, Permutation_sym, sort_by_perm|].
    rewrite map_map. simpl. apply Permutation_refl'.
    destruct e as [a n]. f_equal.
    rewrite <- (map_id counts) at 2. apply map_ext. now intros [b m].
Qed.

Lemma section4_freq_multi_positive df cols labels :
  Forall (fun r => 0 < count r) (Section4.freq_multi df cols labels).
Proof.
  pose proof (section4_freq_multi_rows df cols labels) as Hp.
  pose proof (section4_counts_positive df cols labels) as Hc.
  apply Forall_forall. intros r Hr.
  assert (Hin : In (answer r, count r) (Section4.multi_counts df cols labels)).
  { eapply Permutation_in; [exact Hp|].
    apply (in_map (fun r => (answer r, count r))). exact Hr. }
  unfold positive_counts in Hc. rewrite Forall_forall in Hc. now apply Hc in Hin.
Qed.

Lemma yes_counts_positive df col_prefix max_num mapping :
  positive_counts (Section3.yes_counts df col_prefix max_num mapping).
Proof.
  unfold Section3.yes_counts.
  apply fold_left_invariant.
  - apply fold_left_invariant; [constructor|].
    intros counts i Hc. unfold Section3.yes_slot.
    destruct (negb (has_column df _)); [assumption|].
    destruct (0 <? yes_count _) eqn:E; [|assumption].
    destruct (map_get mapping _); [|assumption].
    apply od_set_positive; [assumption | now apply Z.ltb_lt].
  - intros counts sfx Hc. unfold Section3.yes_suffix.
    destruct (has_column df _); [|assumption].
    destruct (0 <? yes_count _) eqn:E; [|assumption].
    destruct (map_get mapping _); [|assumption].
    apply od_set_positive; [assumption | now apply Z.ltb_lt].
Qed.

Lemma freq_multi_yes_positive df col_prefix max_num mapping :
  Forall (fun r => 0 < count r) (Section3.freq_multi_yes df col_prefix max_num mapping).
Proof.
  unfold Section3.freq_multi_yes.
  pose proof (yes_counts_positive df col_prefix max_num mapping) as H.
  destruct (Section3.yes_counts df col_prefix max_num mapping) eqn:E;
    [constructor|]. now apply sorted_table_positive.
Qed.

Lemma freq_multi_numbered_positive df col_prefix max_num mapping ex :
  Forall (fun r => 0 < count r)
    (Section3.freq_multi_numbered df col_prefix max_num mapping ex).
Proof.
  rewrite freq_multi_numbered_table.
  apply sorted_table_positive, bump_positive. constructor.
Qed.





(** ** Rounding *)

Lemma rint_fraction (n d n' d' : Z) :
  0 < d -> 0 < d' -> n * d' = n' * d ->
  n / d = n' / d' /\ (n mod d) * d' = (n' mod d') * d.
Proof.
  intros Hd Hd' Heq.
  pose proof (Z.div_mod n d ltac:(lia)) as Hn.
  pose proof (Z.div_mod n' d' ltac:(lia)) as Hn'.
  pose proof (Z.mod_pos_bound n d Hd) as Hr.
  pose proof (Z.mod_pos_bound n' d' Hd') as Hr'.
  set (f := n / d) in *. set (r := n mod d) in *.
  set (f' := n' / d') in *. set (r' := n' mod d') in *.
  assert (Hff : f = f').
  { assert (H : d * d' * (f - f') = r' * d - r * d') by nia.
    assert (Hlt : - (d * d') < d * d' * (f - f') < d * d') by nia.
    nia. }
  split; [assumption|]. subst f'. nia.
Qed.

Lemma rint_Qeq (p q : Q) : (p == q)%Q -> rint p = rint q.
Proof.
  unfold Qeq, rint. intro Heq.
  destruct (rint_fraction (Qnum p) (Zpos (Qden p)) (Qnum q) (Zpos (Qden q)))
    as [Hf Hr]; [lia | lia | exact Heq |].
  pose proof (Z.mod_pos_bound (Qnum p) (Zpos (Qden p)) ltac:(lia)) as Hb.
  pose proof (Z.mod_pos_bound (Qnum q) (Zpos (Qden q)) ltac:(lia)) as Hb'.
  rewrite <- Hf.
  set (r := Qnum p mod Zpos (Qden p)) in *.
  set (r' := Qnum q mod Zpos (Qden q)) in *.
  set (d := Zpos (Qden p)) in *. set (d' := Zpos (Qden q)) in *.
  assert (Hd : 0 < d) by (subst d; lia).
  assert (Hd' : 0 < d') by (subst d'; lia).
  assert (H1 : (2 * r <? d) = (2 * r' <? d')).
  { destruct (2 * r <? d) eqn:E; symmetry.
    - apply Z.ltb_lt in E. apply Z.ltb_lt. nia.
    - apply Z.ltb_ge in E. apply Z.ltb_ge. nia. }
  assert (H2 : (d <? 2 * r) = (d' <? 2 * r')).
  { destruct (d <? 2 * r) eqn:E; symmetry.
    - apply Z.ltb_lt in E. apply Z.ltb_lt. nia.
    - apply Z.ltb_ge in E. apply Z.ltb_ge. nia. }
  now rewrite H1, H2.
Qed.


Lemma rint_bound (q : Q) :
  - QDen q <= 2 * (rint q * QDen q - Qnum q) <= QDen q.
Proof.
  unfold rint.
  pose proof (Z.div_mod (Qnum q) (QDen q) ltac:(lia)) as Hn.
  pose proof (Z.mod_pos_bound (Qnum q) (QDen q) ltac:(lia)) as Hr.
  set (f := Qnum q / QDen q) in *. set (r := Qnum q mod QDen q) in *.
  destruct (2 * r <? QDen q) eqn:E1.
  - apply Z.ltb_lt in E1. nia.
  - apply Z.ltb_ge in E1. destruct (QDen q <? 2 * r) eqn:E2.
    + apply Z.ltb_lt in E2. nia.
    + apply Z.ltb_ge in E2. destruct (Z.even f); nia.
Qed.



(** ** The combination table *)

Lemma fold_left_fixed {A B : Type} (f : A -> B -> A) (l : list B) (a : A) :
  (forall b, f a b = a) -> fold_left f l a = a.
Proof.
  intro H. induction l as [|b l IH]; simpl; [reflexivity|]. now rewrite H.
Qed.

Lemma column_no_rows (df : DataFrame) (c : string) :
  df_rows df = [] -> column df c = [].
Proof. unfold column. now intros ->. Qed.

Lemma len_zero_rows (df : DataFrame) : len df = 0 -> df_rows df = [].
Proof.
  unfold len. destruct (df_rows df); [reflexivity | simpl; lia].
Qed.

Lemma yes_step_no_rows set df prefix mapping all i :
  df_rows df = [] -> Section3.yes_step set df prefix mapping all i = all.
Proof.
  intro H. unfold Section3.yes_step.
  destruct (negb (has_column df _)); [reflexivity|].
  now rewrite column_no_rows.
Qed.

Lemma all_channels_no_rows df tom_col other_prefix promp_prefix max_num mapping ex :
  df_rows df = [] ->
  Section3.all_channels df tom_col other_prefix promp_prefix max_num mapping ex = [].
Proof.
  intro H. unfold Section3.all_channels.
  assert (Htom : Section3.tom_step df tom_col mapping ex [] = []).
  { unfold Section3.tom_step, Section3.tom_series.
    destruct (has_column df tom_col); [|reflexivity].
    rewrite column_no_rows by assumption. simpl.
    destruct ex as [[|v ex]|]; reflexivity. }
  rewrite Htom.
  rewrite (fold_left_fixed (Section3.yes_step Section3.set_Other df other_prefix mapping))
    by (intro; now apply yes_step_no_rows).
  rewrite (fold_left_fixed (Section3.yes_step Section3.set_Prompted df promp_prefix mapping))
    by (intro; now apply yes_step_no_rows).
  apply fold_left_fixed. intro sfx. unfold Section3.suffix_step.
  destruct (Section3.is_excluded ex (VNum sfx)); [reflexivity|].
  destruct (map_get mapping (VNum sfx)); [|reflexivity].
  destruct (has_column df _); [|reflexivity].
  now rewrite column_no_rows.
Qed.

(** An item was collected only if some respondent is there. *)
Lemma channels_need_respondents df tom_col other_prefix promp_prefix max_num mapping ex :
  Section3.all_channels df tom_col other_prefix promp_prefix max_num mapping ex <> [] ->
  0 < len df.
Proof.
  intro Hne. destruct (Z.eq_dec (len df) 0) as [Hz|Hnz].
  - exfalso. apply Hne. now apply all_channels_no_rows, len_zero_rows.
  - unfold len in *. lia.
Qed.

Lemma combined_row_defined (N : Z) (e : value * Section3.Counts) :
  N <> 0 -> Section3.combined_row N e = Some (code_row N e).
Proof.
  intro HN. destruct e as [ch n]. unfold Section3.combined_row, Section3.raw_percent.
  apply Z.eqb_neq in HN. now rewrite HN.
Qed.

Lemma map_option_defined {A B : Type} (f : A -> option B) (g : A -> B) (l : list A) :
  (forall x, f x = Some (g x)) -> Section3.map_option f l = Some (map g l).
Proof.
  intro H. induction l as [|x l IH]; simpl; [reflexivity|]. now rewrite H, IH.
Qed.

Lemma combine_defined df tom_col other_prefix promp_prefix max_num mapping ex :
  Section3.combine_tom_other_promp df tom_col other_prefix promp_prefix max_num mapping ex =
  Some (sort_desc Section3.Total
          (map (code_row (len df))
             (Section3.all_channels df tom_col other_prefix promp_prefix
                max_num mapping ex))).
Proof.
  unfold Section3.combine_tom_other_promp.
  pose proof (channels_need_respondents df tom_col other_prefix promp_prefix
                max_num mapping ex) as HN.
  destruct (Section3.all_channels df tom_col other_prefix promp_prefix
              max_num mapping ex) as [|e all] eqn:E; [reflexivity|].
  assert (Hpos : 0 < len df) by (apply HN; discriminate).
  rewrite (map_option_defined _ (code_row (len df)))
    by (intro; apply combined_row_defined; lia).
  reflexivity.
Qed.



(** ** Filters *)

Lemma filter_commute {A : Type} (p q : A -> bool) (l : list A) :
  filter p (filter q l) = filter q (filter p l).
Proof.
  induction l as [|x l IH]; simpl; [reflexivity|].
  destruct (q x) eqn:Eq, (p x) eqn:Ep; simpl;
    rewrite ?Eq, ?Ep, IH; reflexivity.
Qed.

Lemma filter_all {A : Type} (l : list A) : filter (fun _ => true) l = l.
Proof. induction l as [|x l IH]; simpl; [reflexivity | now rewrite IH]. Qed.

Lemma apply_filter_keeps maps df sels f (d : DataFrame) :
  Filters.apply_filter maps df sels f d =
  mkDF (df_columns d) (filter (keeps maps df sels (df_columns d) f) (df_rows d)).
Proof.
  unfold Filters.apply_filter, keeps.
  destruct (has_column df (Filters.field_column f)); simpl;
    [destruct (Filters.active (sels f)); simpl|];
    try reflexivity; rewrite filter_all; now destruct d.
Qed.

Lemma apply_filter_commute maps df sels f g (d : DataFrame) :
  Filters.apply_filter maps df sels f (Filters.apply_filter maps df sels g d) =
  Filters.apply_filter maps df sels g (Filters.apply_filter maps df sels f d).
Proof.
  rewrite !apply_filter_keeps. simpl. f_equal. apply filter_commute.
Qed.

Lemma apply_filters_permutation maps df sels (ps qs : list Filters.Field) :
  Permutation ps qs ->
  forall d, Filters.apply_filters maps df sels ps d = Filters.apply_filters maps df sels qs d.
Proof.
  unfold Filters.apply_filters.
  induction 1 as [|f ps qs Hperm IH|f g ps|ps qs rs H1 IH1 H2 IH2]; intro d; simpl.
  - reflexivity.
  - apply IH.
  - now rewrite apply_filter_commute.
  - now rewrite IH1, IH2.
Qed.

Lemma render_filters_fold maps df sels :
  Filters.render_filters maps df sels =
  Filters.apply_filters maps df sels Filters.all_fields df.
Proof. reflexivity. Qed.

(** * The claims *)

Import Samples.




(** C2, as stated, fails: the table does not start with Female. *)
Lemma C2_female_first_refuted :
  App.freq_single sex_df "SEX" (Some sex_map) (Some []) false
  <> [mkRow (VStr "Female") 4 500; mkRow (VStr "Male") 4 500].
Proof. vm_compute. discriminate. Qed.

(** C2, amended.  For the ten records 1,1,2,2,2,NA,NA,1,2,1 with the
    mapping 1:Male, 2:Female, no excluded code and missing values dropped,
    the table has exactly two rows, Male with count 4 and 50.0 percent, then
    Female with count 4 and 50.0 percent: eight records are eligible and the
    tie is kept in the order in which the answers are first met. *)
Theorem C2_sex_table :
  App.freq_single sex_df "SEX" (Some sex_map) (Some []) false
    = [mkRow (VStr "Male") 4 500; mkRow (VStr "Female") 4 500]
  /\ List.length (eligible_single sex_df "SEX" (Some []) false) = 8%nat.
Proof. split; reflexivity. Qed.



(** C5.  The slots "A", empty, "a", "B" of one respondent make a segment of
    3 and the mentions A (twice, under its first spelling) and B.  The
    segment count compares the placeholders letter for letter, so that a
    respondent who wrote "A" and "none" is put in the segment of 2 although
    only "A" is kept as a mention. *)
Theorem C5_placeholder_casing :
  Section4.counts_per_user comments_df
      (Section4.valid_comment_cols comments_df "O21" 10) = [3]
  /\ snd (Section4.process_open_ended_comments comments_df "O21" 10)
      = [Section4.mkMentionRow "A" 2; Section4.mkMentionRow "B" 1]
  /\ Section4.counts_per_user none_df
      (Section4.valid_comment_cols none_df "O21" 10) = [2]
  /\ Section4.process_open_ended_comments none_df "O21" 10
      = ([Section4.mkSegRow (VNum 2) 1 1000], [Section4.mkMentionRow "A" 1]).
Proof. repeat split; reflexivity. Qed.

(** C6.  [freq_multi] of [section4.py] compares with its tokens letter for
    letter: of three respondents who ticked an option as "Yes", "YES" and
    "yes" it counts one, where [freq_multi] of [section2.py] counts three. *)
Theorem C6_checked_casing :
  Section4.is_checked (txt "Yes") = true
  /\ Section4.is_checked (txt "YES") = false
  /\ Section4.is_checked (txt "yes") = false
  /\ Section4.freq_multi yes_df ["O3_1"] [] = [mkRow "O3_1" 1 333]
  /\ Section2.freq_multi yes_df ["O3_1"] [] = [mkRow "O3_1" 3 1000].
Proof. repeat split; reflexivity. Qed.

(** C7.  Two blocks of [render_filters] applied to a record set in either
    order leave the same records; a sequence of blocks run in any two
    orders that are permutations of each other leaves the same records; and
    the nine blocks run in any order give the result of [render_filters]. *)
Theorem C7_filter_order (maps : Filters.LabelMaps) (df : DataFrame)
    (sels : Filters.Selections) (f g : Filters.Field)
    (ps qs order : list Filters.Field) (filt_df : DataFrame) :
  Permutation ps qs ->
  Permutation Filters.all_fields order ->
  Filters.apply_filter maps df sels f (Filters.apply_filter maps df sels g filt_df)
    = Filters.apply_filter maps df sels g (Filters.apply_filter maps df sels f filt_df)
  /\ Filters.apply_filters maps df sels ps filt_df
    = Filters.apply_filters maps df sels qs filt_df
  /\ Filters.apply_filters maps df sels order df = Filters.render_filters maps df sels.
Proof.
  intros Hpq Horder. split; [apply apply_filter_commute | split].
  - now apply apply_filters_permutation.
  - rewrite render_filters_fold. symmetry. now apply apply_filters_permutation.
Qed.

(** C7 on four respondents filtered by sex, city and marital status, with
    the blocks run backwards. *)
Lemma C7_filter_order_witness :
  Permutation [Filters.Sex; Filters.Marital] [Filters.Marital; Filters.Sex]
  /\ Permutation Filters.all_fields (rev Filters.all_fields)
  /\ Filters.apply_filters people_maps people_df people_sels
       [Filters.Sex; Filters.Marital] people_df
     = Filters.apply_filters people_maps people_df people_sels
         [Filters.Marital; Filters.Sex] people_df
  /\ Filters.apply_filters people_maps people_df people_sels
       (rev Filters.all_fields) people_df
     = Filters.render_filters people_maps people_df people_sels.
Proof.
  assert (H1 : Permutation [Filters.Sex; Filters.Marital] [Filters.Marital; Filters.Sex])
    by apply perm_swap.
  assert (H2 : Permutation Filters.all_fields (rev Filters.all_fields))
    by apply Permutation_rev.
  split; [exact H1 | split; [exact H2|]].
  exact (proj2 (C7_filter_order people_maps people_df people_sels Filters.Sex
                  Filters.City [Filters.Sex; Filters.Marital]
                  [Filters.Marital; Filters.Sex] (rev Filters.all_fields)
                  people_df H1 H2)).
Defined.

(** C8.  Every row of every table of [freq_single], [freq_multi] (both
    versions), [freq_multi_numbered] and [freq_multi_yes] has a count above
    zero. *)
Theorem C8_counts_positive (df : DataFrame) (col : string) (mapping : option Mapping)
    (exclude_values : option (list value)) (include_null : bool)
    (cols : list string) (labels : list (string * string))
    (col_prefix : string) (max_num : nat) (codes : Mapping) :
  Forall (fun r => 0 < count r)
    (App.freq_single df col mapping exclude_values include_null)
  /\ Forall (fun r => 0 < count r) (Section2.freq_multi df cols labels)
  /\ Forall (fun r => 0 < count r) (Section4.freq_multi df cols labels)
  /\ Forall (fun r => 0 < count r)
       (Section3.freq_multi_numbered df col_prefix max_num codes exclude_values)
  /\ Forall (fun r => 0 < count r)
       (Section3.freq_multi_yes df col_prefix max_num codes).
Proof.
  repeat split.
  - apply freq_single_positive.
  - apply section2_freq_multi_positive.
  - apply section4_freq_multi_positive.
  - apply freq_multi_numbered_positive.
  - apply freq_multi_yes_positive.
Qed.

Lemma counted_labels_mapped df col_prefix max_num mapping ex :
  incl (counted_labels df col_prefix max_num mapping ex) (map snd mapping).
Proof.
  intros l Hl. unfold counted_labels in Hl.
  apply in_flat_map in Hl as [i [_ Hl]].
  apply in_flat_map in Hl as [c [_ Hl]]. unfold slot_labels in Hl.
  destruct c as [v|]; [|contradiction].
  destruct (map_get mapping v) as [l'|] eqn:E; [|contradiction].
  destruct Hl as [<-|[]].
  apply od_get_In in E; [|apply value_eqb_eq].
  change l' with (snd (v, l')). now apply in_map.
Qed.

Lemma numbered_answers_counted df col_prefix max_num mapping ex :
  incl (map answer (Section3.freq_multi_numbered df col_prefix max_num mapping ex))
       (counted_labels df col_prefix max_num mapping ex).
Proof.
  intros l Hl. rewrite freq_multi_numbered_table in Hl.
  eapply Permutation_in in Hl; [|apply Permutation_sym, sorted_table_answers].
  apply in_map_iff in Hl as [[k n] [Hk Hin]]. simpl in Hk. subst k.
  now apply bump_entries in Hin.
Qed.

(** C9, as stated, fails for the numbered slots: the code 5 is in the data
    and not in the mapping, and the table has no row under "5". *)
Lemma C9_unmapped_slot_value_dropped :
  In (Some (VNum 5)) (column unmapped_df "Q1")
  /\ map_get xy_map (VNum 5) = None
  /\ ~ In (str (VNum 5))
         (map answer (Section3.freq_multi_numbered unmapped_df "Q" 1 xy_map None)).
Proof.
  split; [now left | split; [reflexivity|]]. vm_compute. tauto.
Qed.

(** C9, amended.  In [freq_single] an eligible value without an entry in
    the supplied mapping has a row under its literal text.  In
    [freq_multi_numbered] every row is the label of a counted slot value,
    taken from the mapping: a slot value without an entry is skipped.
    Neither function fails. *)
Theorem C9_unmapped_codes (df : DataFrame) (col : string) (m : Mapping)
    (exclude_values : option (list value)) (include_null : bool) (v : value)
    (col_prefix : string) (max_num : nat) (codes : Mapping)
    (excluded : option (list value)) :
  In (Some v) (eligible_single df col exclude_values include_null) ->
  map_get m v = None ->
  (exists r, In r (App.freq_single df col (Some m) exclude_values include_null)
             /\ answer r = VStr (str v) /\ 0 < count r)
  /\ incl (map answer (Section3.freq_multi_numbered df col_prefix max_num codes excluded))
          (counted_labels df col_prefix max_num codes excluded)
  /\ incl (counted_labels df col_prefix max_num codes excluded) (map snd codes).
Proof.
  intros Hin Hm. split; [now apply freq_single_unmapped | split].
  - apply numbered_answers_counted.
  - apply counted_labels_mapped.
Qed.

(** C9 on the single answer 5, which the mapping lacks. *)
Lemma C9_unmapped_codes_witness :
  In (Some (VNum 5)) (eligible_single unmapped_df "Q1" (Some [VNum 0]) false)
  /\ map_get xy_map (VNum 5) = None
  /\ exists r, In r (App.freq_single unmapped_df "Q1" (Some xy_map) (Some [VNum 0]) false)
               /\ answer r = VStr "5" /\ 0 < count r.
Proof.
  assert (Hin : In (Some (VNum 5))
                  (eligible_single unmapped_df "Q1" (Some [VNum 0]) false))
    by (vm_compute; now left).
  assert (Hm : map_get xy_map (VNum 5) = None) by reflexivity.
  split; [exact Hin | split; [exact Hm|]].
  exact (proj1 (C9_unmapped_codes unmapped_df "Q1" xy_map (Some [VNum 0]) false
                  (VNum 5) "Q" 1 xy_map None Hin Hm)).
Defined.

(** C10.  When [combine_tom_other_promp] has collected an item, the filtered
    record set is not empty, so that the percentages are never divided by
    zero and the function returns a table; with no record it returns the
    empty table. *)
Theorem C10_no_division_by_zero (df : DataFrame)
    (tom_col other_prefix promp_prefix : string) (max_num : nat) (mapping : Mapping)
    (exclude_values : option (list value)) :
  (Section3.all_channels df tom_col other_prefix promp_prefix max_num mapping
     exclude_values <> [] -> 0 < len df)
  /\ (exists table,
        Section3.combine_tom_other_promp df tom_col other_prefix promp_prefix max_num
          mapping exclude_values = Some table)
  /\ (len df = 0 ->
      Section3.combine_tom_other_promp df tom_col other_prefix promp_prefix max_num
        mapping exclude_values = Some []).
Proof.
  split; [apply channels_need_respondents | split].
  - eexists. apply combine_defined.
  - intro Hz. unfold Section3.combine_tom_other_promp.
    now rewrite all_channels_no_rows by now apply len_zero_rows.
Qed.

(** C10 on three respondents, and on none. *)
Lemma C10_no_division_by_zero_witness :
  (Section3.all_channels tv_df "R1TOM" "R1Other_" "R1Propm_" 2 tv_map None <> []
   /\ 0 < len tv_df)
  /\ (len empty_df = 0
      /\ Section3.combine_tom_other_promp empty_df "R1TOM" "R1Other_" "R1Propm_" 2
           tv_map None = Some []).
Proof.
  assert (Hne : Section3.all_channels tv_df "R1TOM" "R1Other_" "R1Propm_" 2 tv_map None
                <> []) by (vm_compute; discriminate).
  assert (Hz : len empty_df = 0) by reflexivity.
  split; split.
  - exact Hne.
  - exact (proj1 (C10_no_division_by_zero tv_df "R1TOM" "R1Other_" "R1Propm_" 2
                    tv_map None) Hne).
  - exact Hz.
  - exact (proj2 (proj2 (C10_no_division_by_zero empty_df "R1TOM" "R1Other_" "R1Propm_"
                           2 tv_map None)) Hz).
Defined.


(** * Further properties *)

(** ** Rounding keeps the order *)

Lemma rint_monotone (p q : Q) : (p <= q)%Q -> rint p <= rint q.
Proof.
  intro Hle.
  destruct (Z_le_gt_dec (rint p) (rint q)) as [H|Hgt]; [assumption|].
  exfalso.
  pose proof (rint_bound p) as Hp. pose proof (rint_bound q) as Hq.
  assert (Heq : (p == q)%Q).
  { unfold Qle in Hle. unfold Qeq.
    set (a := rint p) in *. set (b := rint q) in *.
    set (n := Qnum p) in *. set (n' := Qnum q) in *.
    set (d := QDen p) in *. set (d' := QDen q) in *.
    assert (Hd : 0 < d) by (subst d; lia).
    assert (Hd' : 0 < d') by (subst d'; lia).
    assert (H1 : 2 * a * d * d' <= 2 * n * d' + d * d') by nia.
    assert (H2 : 2 * n' * d <= 2 * b * d * d' + d * d') by nia.
    assert (H3 : 2 * b * d * d' + 2 * d * d' <= 2 * a * d * d') by nia.
    lia. }
  apply rint_Qeq in Heq. lia.
Qed.

Lemma rint_integer (k : Z) : rint (inject_Z k) = k.
Proof.
  unfold rint. simpl. rewrite Z.div_1_r, Z.mod_1_r. reflexivity.
Qed.

Lemma round1_monotone (p q : Q) : (p <= q)%Q -> round1 p <= round1 q.
Proof.
  intro H. unfold round1. apply rint_monotone.
  apply Qmult_le_compat_r; [assumption | discriminate].
Qed.

Lemma percent_of_monotone (c1 c2 total : Z) :
  0 <= total -> c1 <= c2 -> percent_of c1 total <= percent_of c2 total.
Proof.
  intros Ht Hc. unfold percent_of. apply round1_monotone.
  apply Qmult_le_compat_r; [|discriminate].
  unfold Qdiv. apply Qmult_le_compat_r.
  - now rewrite <- Zle_Qle.
  - apply Qinv_le_0_compat. unfold Qle. simpl. lia.
Qed.

Lemma percent_of_nonneg (c total : Z) :
  0 <= total -> 0 <= c -> 0 <= percent_of c total.
Proof.
  intros Ht Hc.
  assert (H0 : percent_of 0 total = 0).
  { unfold percent_of, round1. transitivity (rint (inject_Z 0)).
    - apply rint_Qeq. unfold Qdiv. ring.
    - apply rint_integer. }
  rewrite <- H0. now apply percent_of_monotone.
Qed.

Lemma percent_of_at_most_100 (c total : Z) :
  0 < total -> c <= total -> percent_of c total <= 1000.
Proof.
  intros Ht Hc.
  assert (H100 : percent_of total total = 1000).
  { unfold percent_of, round1. transitivity (rint (inject_Z 1000)).
    - apply rint_Qeq. field. intro H. unfold Qeq in H. simpl in H. lia.
    - apply rint_integer. }
  rewrite <- H100. apply percent_of_monotone; lia.
Qed.

(** ** Exact counts of [value_counts] *)

Lemma times_cons_same (v : value) (s : Series) : times v (Some v :: s) = times v s + 1.
Proof. unfold times. simpl. rewrite value_eqb_refl. simpl. lia. Qed.

Lemma times_cons_other (v w : value) (s : Series) :
  w <> v -> times v (Some w :: s) = times v s.
Proof.
  intro H. unfold times. simpl.
  destruct (value_eqb w v) eqn:E; [|reflexivity].
  apply value_eqb_eq in E. contradiction.
Qed.

Lemma times_positive (v : value) (s : Series) : In (Some v) s <-> 0 < times v s.
Proof.
  unfold times. split.
  - intro H. assert (Hin : In (Some v) (filter (cell_is v) s)).
    { apply filter_In. split; [assumption|]. simpl. apply value_eqb_refl. }
    destruct (filter (cell_is v) s); [contradiction | simpl; lia].
  - intro H. destruct (filter (cell_is v) s) as [|c l] eqn:E; [simpl in H; lia|].
    assert (Hc : In c (filter (cell_is v) s)) by (rewrite E; now left).
    apply filter_In in Hc as [Hc Hv]. destruct c as [w|]; [|discriminate].
    simpl in Hv. apply value_eqb_eq in Hv. now subst.
Qed.

Lemma tally_get (s : Series) (acc : list (value * Z)) (v : value) :
  od_get_default value_eqb (tally acc s) v 0 =
  od_get_default value_eqb acc v 0 + times v s.
Proof.
  revert acc. induction s as [|[w|] s IH]; intro acc; simpl.
  - unfold times. simpl. lia.
  - rewrite IH. unfold od_get_default at 1.
    destruct (value_eqb w v) eqn:E.
    + apply value_eqb_eq in E. subst w.
      rewrite od_get_set_same by apply value_eqb_eq.
      rewrite times_cons_same. lia.
    + assert (Hne : w <> v) by (intro; subst; now rewrite value_eqb_refl in E).
      rewrite od_get_set_other by (try apply value_eqb_eq; congruence).
      rewrite times_cons_other by assumption. unfold od_get_default. lia.
  - rewrite IH. unfold times. simpl. lia.
Qed.

Lemma tally_NoDup (s : Series) (acc : list (value * Z)) :
  NoDup (map fst acc) -> NoDup (map fst (tally acc s)).
Proof.
  revert acc. induction s as [|[w|] s IH]; intros acc H; simpl; auto.
  apply IH. apply od_set_NoDup; [apply value_eqb_eq | assumption].
Qed.

Lemma tally_entries (s : Series) (v : value) (n : Z) :
  In (v, n) (tally [] s) <-> In (Some v) s /\ n = times v s.
Proof.
  pose proof (tally_get s [] v) as Hg. unfold od_get_default at 2 in Hg. simpl in Hg.
  pose proof (tally_NoDup s [] (NoDup_nil _)) as Hnd.
  split.
  - intro Hin.
    assert (Hk : In v (map fst (tally [] s))).
    { change v with (fst (v, n)). now apply in_map. }
    apply tally_keys_inv in Hk. destruct Hk as [[]|Hk].
    split; [assumption|].
    pose proof (In_od_get value_eqb value_eqb_eq _ _ _ Hnd Hin) as Hget.
    unfold od_get_default in Hg. rewrite Hget in Hg. lia.
  - intros [Hin ->].
    apply times_positive in Hin.
    unfold od_get_default in Hg.
    destruct (od_get value_eqb (tally [] s) v) as [k|] eqn:E.
    + apply od_get_In in E; [|apply value_eqb_eq]. now rewrite <- Hg.
    + lia.
Qed.

Lemma value_counts_entries (s : Series) (v : value) (n : Z) :
  In (v, n) (value_counts s) <-> In (Some v) s /\ n = times v s.
Proof.
  unfold value_counts, sort_desc. rewrite sort_by_In. apply tally_entries.
Qed.

Lemma value_counts_NoDup (s : Series) : NoDup (map fst (value_counts s)).
Proof.
  unfold value_counts, sort_desc.
  eapply Permutation_NoDup; [apply Permutation_map, sort_by_perm|].
  apply tally_NoDup. constructor.
Qed.

Lemma descending_map {A B : Type} (f : A -> B) (key : A -> Z) (key' : B -> Z)
    (l : list A) :
  (forall a b, key b <= key a -> key' (f b) <= key' (f a)) ->
  descending key l -> descending key' (map f l).
Proof.
  intros Hf. unfold descending. induction 1 as [|a l Hs IH Hhd]; simpl.
  - constructor.
  - constructor; [assumption|].
    destruct Hhd as [|b l' Hab]; simpl; constructor. now apply Hf.
Qed.

Lemma sum_nonneg (l : list Z) : Forall (fun n => 0 < n) l -> 0 <= sum_Z l.
Proof. induction 1; simpl; lia. Qed.

Lemma positive_counts_sum {K : Type} (d : list (K * Z)) :
  positive_counts d -> 0 <= sum_Z (map snd d).
Proof.
  intro H. apply sum_nonneg. apply Forall_map.
  eapply Forall_impl; [|exact H]. auto.
Qed.

(** ** More on [freq_single] *)

Lemma entry_at_most_sum {K : Type} (d : list (K * Z)) (e : K * Z) :
  positive_counts d -> In e d -> snd e <= sum_Z (map snd d).
Proof.
  induction 1 as [|x d Hx Hd IH]; intro Hin; [contradiction|].
  simpl. pose proof (positive_counts_sum d Hd) as Hs.
  destruct Hin as [->|Hin]; [lia|]. specialize (IH Hin). lia.
Qed.

Lemma with_percent_bounds {A : Type} (tab : list (A * Z)) :
  positive_counts tab ->
  Forall (fun r => 0 <= percent r <= 1000) (with_percent_of_sum tab).
Proof.
  intro Hpos. unfold with_percent_of_sum. apply Forall_map, Forall_forall.
  intros e He. simpl.
  pose proof (entry_at_most_sum tab e Hpos He) as Hle.
  assert (He0 : 0 < snd e).
  { unfold positive_counts in Hpos. rewrite Forall_forall in Hpos. now apply Hpos. }
  split.
  - apply percent_of_nonneg; lia.
  - apply percent_of_at_most_100; lia.
Qed.

Lemma with_percent_descending {A : Type} (tab : list (A * Z)) :
  positive_counts tab -> descending snd tab ->
  descending count (with_percent_of_sum tab)
  /\ descending percent (with_percent_of_sum tab).
Proof.
  intros Hpos Hs. unfold with_percent_of_sum. split.
  - eapply descending_map; [|exact Hs]. auto.
  - eapply descending_map; [|exact Hs]. intros a b Hab. simpl.
    apply percent_of_monotone; [now apply positive_counts_sum | assumption].
Qed.

Lemma value_counts_descending (s : Series) : descending snd (value_counts s).
Proof. apply sort_desc_sorted. Qed.

Lemma value_counts_nil (s : Series) : value_counts s = [] <-> dropna s = [].
Proof.
  split; intro H.
  - pose proof (value_counts_sum s) as Hs. rewrite H in Hs. simpl in Hs.
    destruct (dropna s); [reflexivity | simpl in Hs; lia].
  - destruct (value_counts s) as [|[v n] l] eqn:E; [reflexivity|].
    assert (Hin : In (Some v) s).
    { apply value_counts_keys. rewrite E. now left. }
    assert (Hd : In (Some v) (dropna s)) by (apply filter_In; auto).
    rewrite H in Hd. contradiction.
Qed.

Lemma with_percent_nil {A : Type} (tab : list (A * Z)) :
  with_percent_of_sum tab = [] <-> tab = [].
Proof.
  unfold with_percent_of_sum. split; intro H.
  - now apply map_eq_nil in H.
  - now subst.
Qed.

Lemma relabel_nil mapping (s : Series) : relabel mapping s = [] <-> s = [].
Proof.
  split; intro H.
  - apply length_zero_iff_nil. rewrite <- relabel_length with (mapping := mapping).
    now rewrite H.
  - subst. now destruct mapping.
Qed.

(** X1.  The table of [freq_single] lists every answer once, in descending
    order of count and so of percent, and every percent is between 0.0 and
    100.0. *)
Theorem X1_freq_single_rows (df : DataFrame) (col : string) (mapping : option Mapping)
    (exclude_values : option (list value)) (include_null : bool) :
  let table := App.freq_single df col mapping exclude_values include_null in
  NoDup (map answer table)
  /\ descending count table
  /\ descending percent table
  /\ Forall (fun r => 0 <= percent r <= 1000) table.
Proof.
  intro table. subst table. rewrite freq_single_table.
  set (s := relabel mapping (eligible_single df col exclude_values include_null)).
  pose proof (with_percent_descending (value_counts s) (value_counts_positive s)
                (value_counts_descending s)) as [Hc Hp].
  repeat split; try assumption.
  - rewrite with_percent_answers. apply value_counts_NoDup.
  - apply with_percent_bounds, value_counts_positive.
Qed.

(** X2.  [freq_single] returns the empty table exactly when no record is
    eligible: the column is absent, or every cell is missing (and not kept
    as "no data") or excluded. *)
Theorem X2_freq_single_empty (df : DataFrame) (col : string) (mapping : option Mapping)
    (exclude_values : option (list value)) (include_null : bool) :
  App.freq_single df col mapping exclude_values include_null = []
  <-> eligible_single df col exclude_values include_null = [].
Proof.
  rewrite freq_single_table, with_percent_nil, value_counts_nil.
  rewrite dropna_no_missing by apply relabel_clean, eligible_single_clean.
  apply relabel_nil.
Qed.

(** X3.  The answers of [freq_single] are the values of the eligible cells
    once relabelled (the label of a mapped code, the text of an unmapped
    one), and the count of an answer is the number of eligible cells that
    carry it. *)
Theorem X3_freq_single_counts (df : DataFrame) (col : string) (mapping : option Mapping)
    (exclude_values : option (list value)) (include_null : bool) :
  let table := App.freq_single df col mapping exclude_values include_null in
  let cells := relabel mapping (eligible_single df col exclude_values include_null) in
  (forall v, In v (map answer table) <-> In (Some v) cells)
  /\ Forall (fun r => count r = times (answer r) cells) table.
Proof.
  intros table cells. subst table. rewrite freq_single_table. fold cells. split.
  - intro v. rewrite with_percent_answers. apply value_counts_keys.
  - unfold with_percent_of_sum. apply Forall_map, Forall_forall.
    intros [v n] Hin. simpl. now apply value_counts_entries in Hin.
Qed.

(** ** The copies of [freq_single] *)

Lemma section3_freq_single_app df col mapping ex :
  Section3.freq_single df col mapping ex = App.freq_single df col mapping ex false.
Proof. reflexivity. Qed.

Lemma section4_freq_single_table df col mapping ex :
  Section4.freq_single df col mapping ex =
  with_percent_of_sum (value_counts (relabel mapping (kept_cells df col ex))).
Proof.
  unfold Section4.freq_single, kept_cells.
  destruct (negb (has_column df col)).
  - destruct mapping; reflexivity.
  - fold (relabel mapping
            (match ex with
             | Some ex0 => drop_isin ex0 (column df col)
             | None => column df col
             end)).
    match goal with |- context [relabel mapping ?e] => set (s := relabel mapping e) end.
    destruct s eqn:Es; [reflexivity|].
    rewrite filter_positive by apply value_counts_positive. reflexivity.
Qed.

Lemma relabel_some_clean (m : Mapping) (s : Series) : no_missing (relabel (Some m) s).
Proof.
  simpl. rewrite labelled_series. apply Forall_map, Forall_forall.
  intros [v|] _; discriminate.
Qed.

(** X4.  [freq_single] of [section4.py] does not drop missing answers: with
    a mapping its counts add up to all the cells left by the exclusion,
    missing ones included, and without a mapping to the non-missing ones. *)
Theorem X4_section4_freq_single_sum (df : DataFrame) (col : string) (m : Mapping)
    (exclude_values : option (list value)) :
  sum_Z (map count (Section4.freq_single df col (Some m) exclude_values))
    = Z.of_nat (List.length (kept_cells df col exclude_values))
  /\ sum_Z (map count (Section4.freq_single df col None exclude_values))
    = Z.of_nat (List.length (dropna (kept_cells df col exclude_values))).
Proof.
  rewrite !section4_freq_single_table, !with_percent_counts, !value_counts_sum.
  split.
  - rewrite dropna_no_missing by apply relabel_some_clean.
    now rewrite relabel_length.
  - reflexivity.
Qed.

(** X5.  In [freq_single] of [section4.py] with a mapping, the missing
    answers that the exclusion leaves are shown as the answer "nan", whose
    count is at least their number. *)
Theorem X5_section4_missing_as_nan (df : DataFrame) (col : string) (m : Mapping)
    (exclude_values : option (list value)) :
  In None (kept_cells df col exclude_values) ->
  exists r, In r (Section4.freq_single df col (Some m) exclude_values)
            /\ answer r = VStr "nan"
            /\ Z.of_nat (List.length (filter isna (kept_cells df col exclude_values)))
               <= count r.
Proof.
  intro Hin. rewrite section4_freq_single_table.
  set (cells := kept_cells df col exclude_values) in *.
  assert (Hnan : In (Some (VStr "nan")) (relabel (Some m) cells)).
  { simpl. rewrite labelled_series. apply in_map_iff. now exists None. }
  exists (mkRow (VStr "nan") (times (VStr "nan") (relabel (Some m) cells))
            (percent_of (times (VStr "nan") (relabel (Some m) cells))
               (sum_Z (map snd (value_counts (relabel (Some m) cells)))))).
  split; [|split; [reflexivity|]].
  - unfold with_percent_of_sum. apply in_map_iff.
    exists (VStr "nan", times (VStr "nan") (relabel (Some m) cells)).
    split; [reflexivity|]. apply value_counts_entries. auto.
  - simpl count. unfold times. simpl relabel. rewrite labelled_series.
    clear Hin Hnan. induction cells as [|[v|] cells IH]; simpl.
    + lia.
    + match goal with |- context [if ?b then _ else _] => destruct b end;
        simpl in *; lia.
    + simpl in *. lia.
Qed.

(** X5 on three respondents, one without an answer. *)
Lemma X5_section4_missing_as_nan_witness :
  In None (kept_cells o1_df "O1" None)
  /\ exists r, In r (Section4.freq_single o1_df "O1" (Some o1_map) None)
               /\ answer r = VStr "nan" /\ 1 <= count r.
Proof.
  assert (Hin : In None (kept_cells o1_df "O1" None)) by (vm_compute; tauto).
  split; [exact Hin|].
  exact (X5_section4_missing_as_nan o1_df "O1" o1_map None Hin).
Defined.

(** X6.  On a column without missing answers the copy of [freq_single] in
    [section4.py] returns the table of the copy in [app.py] (and of the
    copy in [section3.py]) with missing values dropped. *)
Theorem X6_freq_single_copies_agree (df : DataFrame) (col : string)
    (mapping : option Mapping) (exclude_values : option (list value)) :
  no_missing (column df col) ->
  Section4.freq_single df col mapping exclude_values
    = App.freq_single df col mapping exclude_values false
  /\ Section4.freq_single df col mapping exclude_values
    = Section3.freq_single df col mapping exclude_values.
Proof.
  intro Hclean. rewrite section3_freq_single_app.
  assert (H : Section4.freq_single df col mapping exclude_values
              = App.freq_single df col mapping exclude_values false).
  { rewrite section4_freq_single_table, freq_single_table.
    unfold kept_cells, eligible_single.
    now rewrite (dropna_no_missing _ Hclean). }
  split; exact H.
Qed.

(** X6 on the sex of four respondents, all answered. *)
Lemma X6_freq_single_copies_agree_witness :
  no_missing (column people_df "S2")
  /\ Section4.freq_single people_df "S2" None (Some [VNum 0])
     = App.freq_single people_df "S2" None (Some [VNum 0]) false.
Proof.
  assert (H : no_missing (column people_df "S2")).
  { vm_compute. repeat constructor; discriminate. }
  split; [exact H|].
  exact (proj1 (X6_freq_single_copies_agree people_df "S2" None (Some [VNum 0]) H)).
Defined.

(** ** More on the filters *)

Lemma filter_filter_and {A : Type} (p q : A -> bool) (l : list A) :
  filter p (filter q l) = filter (fun x => q x && p x) l.
Proof.
  induction l as [|x l IH]; simpl; [reflexivity|].
  destruct (q x); simpl; [destruct (p x)|]; now rewrite IH.
Qed.

Lemma apply_filter_columns maps df sels f (d : DataFrame) :
  df_columns (Filters.apply_filter maps df sels f d) = df_columns d.
Proof. now rewrite apply_filter_keeps. Qed.

Lemma apply_filters_rows maps df sels (fs : list Filters.Field) (d : DataFrame) :
  Filters.apply_filters maps df sels fs d =
  mkDF (df_columns d)
    (filter (fun row => forallb (fun f => keeps maps df sels (df_columns d) f row) fs)
       (df_rows d)).
Proof.
  unfold Filters.apply_filters. revert d.
  induction fs as [|f fs IH]; intro d; simpl.
  - rewrite filter_all. now destruct d.
  - rewrite IH, apply_filter_keeps. simpl. f_equal. apply filter_filter_and.
Qed.

(** X7.  [render_filters] keeps the columns and keeps, in their order,
    exactly the rows that pass every block: for each filter whose column
    is in the data and whose selection is active, the row's value is one
    of the values allowed.  It never adds a row. *)
Theorem X7_render_filters_conjunction (maps : Filters.LabelMaps) (df : DataFrame)
    (sels : Filters.Selections) :
  Filters.render_filters maps df sels
    = mkDF (df_columns df)
        (filter (fun row =>
                   forallb (fun f => keeps maps df sels (df_columns df) f row)
                     Filters.all_fields)
           (df_rows df))
  /\ len (Filters.render_filters maps df sels) <= len df.
Proof.
  rewrite render_filters_fold, apply_filters_rows. split; [reflexivity|].
  unfold len. cbn [df_rows]. apply inj_le, filter_length_le.
Qed.

(** X8.  When every selection holds the option "all" or is empty,
    [render_filters] returns the data unchanged. *)
Theorem X8_render_filters_inactive (maps : Filters.LabelMaps) (df : DataFrame)
    (sels : Filters.Selections) :
  (forall f, Filters.active (sels f) = false) ->
  Filters.render_filters maps df sels = df.
Proof.
  intro Hin. rewrite render_filters_fold, apply_filters_rows.
  destruct df as [cols rows]. cbn [df_columns df_rows]. f_equal.
  rewrite <- (filter_all rows) at 2. apply filter_ext. intro row.
  apply forallb_forall. intros f _. unfold keeps.
  now rewrite Hin, andb_false_r.
Qed.

Lemma X8_render_filters_inactive_witness :
  (forall f, Filters.active (default_sels f) = false)
  /\ Filters.render_filters people_maps people_df default_sels = people_df.
Proof.
  assert (H : forall f, Filters.active (default_sels f) = false)
    by (intro f; reflexivity).
  split; [exact H|].
  exact (X8_render_filters_inactive people_maps people_df default_sels H).
Defined.

(** X9.  After [render_filters], for every filter whose column is in the
    data and whose selection is active, each remaining row holds one of
    the allowed values in that column; in particular no remaining row has
    a missing value there, so that selecting every listed value is not the
    same as "all". *)
Theorem X9_render_filters_sound (maps : Filters.LabelMaps) (df : DataFrame)
    (sels : Filters.Selections) (f : Filters.Field) :
  has_column df (Filters.field_column f) = true ->
  Filters.active (sels f) = true ->
  Forall (fun row =>
            exists v, row_get (df_columns df) (Filters.field_column f) row = Some v
                      /\ In v (Filters.allowed maps df sels f))
    (df_rows (Filters.render_filters maps df sels)).
Proof.
  intros Hcol Hact. rewrite render_filters_fold, apply_filters_rows.
  cbn [df_columns df_rows].
  apply Forall_forall. intros row Hrow. apply filter_In in Hrow as [_ Hrow].
  rewrite forallb_forall in Hrow.
  assert (Hf : In f Filters.all_fields) by (destruct f; simpl; tauto).
  specialize (Hrow f Hf). unfold keeps in Hrow. rewrite Hcol, Hact in Hrow.
  simpl in Hrow.
  destruct (row_get (df_columns df) (Filters.field_column f) row) as [v|];
    [|discriminate].
  exists v. split; [reflexivity|]. simpl in Hrow.
  unfold mem_value in Hrow. apply existsb_exists in Hrow as [w [Hw Heq]].
  apply value_eqb_eq in Heq. now subst.
Qed.

Lemma X9_render_filters_sound_witness :
  has_column people_df (Filters.field_column Filters.Marital) = true
  /\ Filters.active (people_sels Filters.Marital) = true
  /\ Forall (fun row =>
               exists v, row_get (df_columns people_df)
                           (Filters.field_column Filters.Marital) row = Some v
                         /\ In v (Filters.allowed people_maps people_df people_sels
                                    Filters.Marital))
       (df_rows (Filters.render_filters people_maps people_df people_sels)).
Proof.
  assert (H1 : has_column people_df (Filters.field_column Filters.Marital) = true)
    by reflexivity.
  assert (H2 : Filters.active (people_sels Filters.Marital) = true) by reflexivity.
  split; [exact H1 | split; [exact H2|]].
  exact (X9_render_filters_sound people_maps people_df people_sels Filters.Marital H1 H2).
Defined.

(** The codes behind a selected label are selected: for every code of the
    column that is offered under a label, choosing that label allows the
    code. *)
Lemma selected_ids_complete (df : DataFrame) (m : Mapping) (col : string)
    (sel : list value) (x : value) :
  In x (Filters.unique_codes df col) ->
  In (VStr (label_of m x)) sel ->
  In x (Filters.selected_ids df m col sel).
Proof.
  intros Hx Hsel. unfold Filters.selected_ids, label_of in *.
  apply in_or_app.
  destruct (map_get m x) as [l|] eqn:E.
  - left. apply od_get_In in E; [|apply value_eqb_eq].
    change x with (fst (x, l)). apply in_map. apply filter_In.
    split; [assumption|]. simpl. unfold mem_value. apply existsb_exists.
    exists (VStr l). split; [assumption | apply value_eqb_refl].
  - right. apply filter_In. split; [assumption|].
    unfold mem_value. apply existsb_exists.
    exists (VStr (str x)). split; [assumption | apply value_eqb_refl].
Qed.

(** ** The options offered by the filters *)

Lemma dropna_In (s : Series) (v : value) : In (Some v) (dropna s) <-> In (Some v) s.
Proof.
  unfold dropna. rewrite filter_In. simpl. tauto.
Qed.

Lemma unique_In (s : Series) (seen : list value) (v : value) :
  In v (Filters.unique seen s) <-> In (Some v) s /\ ~ In v seen.
Proof.
  revert seen. induction s as [|[w|] s IH]; intro seen; simpl.
  - tauto.
  - destruct (mem_value w seen) eqn:E.
    + rewrite IH. split.
      * intros [H1 H2]. auto.
      * intros [[H1|H1] H2]; [|auto].
        inversion H1. subst w. exfalso. apply H2.
        unfold mem_value in E. apply existsb_exists in E as [x [Hx Heq]].
        apply value_eqb_eq in Heq. now subst.
    + assert (Hw : ~ In w seen).
      { intro Hin. assert (Ht : mem_value w seen = true).
        { unfold mem_value. apply existsb_exists. exists w.
          split; [assumption | apply value_eqb_refl]. }
        congruence. }
      simpl. rewrite IH. simpl. split.
      * intros [H|[H1 H2]]; [subst; auto|]. split; [auto|]. intro; apply H2; auto.
      * intros [[H1|H1] H2].
        -- inversion H1. now left.
        -- destruct (value_eqb w v) eqn:Ewv.
           ++ apply value_eqb_eq in Ewv. now left.
           ++ right. split; [assumption|]. intros [H|H]; [|auto].
              subst. now rewrite value_eqb_refl in Ewv.
  - rewrite IH. split; intros [H1 H2]; split; auto.
    destruct H1 as [H1|H1]; [discriminate | assumption].
Qed.

Lemma unique_NoDup (s : Series) (seen : list value) : NoDup (Filters.unique seen s).
Proof.
  revert seen. induction s as [|[w|] s IH]; intro seen; simpl.
  - constructor.
  - destruct (mem_value w seen); [apply IH|].
    constructor; [|apply IH]. rewrite unique_In. intros [_ H]. apply H. now left.
  - apply IH.
Qed.

Lemma sorted_perm (l l' : list value) :
  Filters.sorted l = Some l' -> Permutation l l'.
Proof.
  unfold Filters.sorted. destruct (Filters.one_kind l); [|discriminate].
  intro H. inversion H. apply sort_by_perm.
Qed.

Lemma replace_zero_In (s : Series) (v : value) :
  In (Some v) (replace_zero s) <-> v <> VNum 0 /\ In (Some v) s.
Proof.
  unfold replace_zero. rewrite in_map_iff. split.
  - intros [[w|] [Hw Hin]]; [|discriminate].
    destruct (value_eqb w (VNum 0)) eqn:E; [discriminate|].
    inversion Hw. subst w. split; [|assumption].
    intro H. subst. now rewrite value_eqb_refl in E.
  - intros [Hne Hin]. exists (Some v). split; [|assumption].
    destruct (value_eqb v (VNum 0)) eqn:E; [|reflexivity].
    apply value_eqb_eq in E. contradiction.
Qed.

(** X10.  The options of the region filter start with "all" and then list,
    each once, exactly the values of the column S4 of the frame filtered so
    far, without the code 0 and without missing values. *)
Theorem X10_region_options (filt_df : DataFrame) (opts : list value) :
  Filters.s4_options filt_df = Some opts ->
  exists rest,
    opts = VStr Filters.ALL :: rest
    /\ NoDup rest
    /\ forall v, In v rest <-> v <> VNum 0 /\ In (Some v) (column filt_df "S4").
Proof.
  unfold Filters.s4_options, Filters.options. intro H.
  destruct (Filters.sorted _) as [rest|] eqn:E; [|discriminate].
  inversion H. subst opts. exists rest.
  apply sorted_perm in E. split; [reflexivity | split].
  - eapply Permutation_NoDup; [exact E | apply unique_NoDup].
  - intro v. rewrite <- replace_zero_In, <- dropna_In. split; intro Hv.
    + eapply Permutation_in in Hv; [|apply Permutation_sym, E].
      now apply unique_In in Hv.
    + eapply Permutation_in; [exact E|]. apply unique_In. auto.
Qed.

Lemma X10_region_options_witness :
  Filters.s4_options region_df = Some [VStr Filters.ALL; VNum 1; VNum 3]
  /\ exists rest,
       [VStr Filters.ALL; VNum 1; VNum 3] = VStr Filters.ALL :: rest
       /\ NoDup rest
       /\ forall v, In v rest <-> v <> VNum 0 /\ In (Some v) (column region_df "S4").
Proof.
  assert (H : Filters.s4_options region_df = Some [VStr Filters.ALL; VNum 1; VNum 3])
    by reflexivity.
  split; [exact H|].
  exact (X10_region_options region_df [VStr Filters.ALL; VNum 1; VNum 3] H).
Defined.

(** X11.  In a filter on labels (marital status, employment, income),
    choosing the label under which a code of the column is offered keeps
    every row that holds this code. *)
Theorem X11_label_filter_keeps_code (maps : Filters.LabelMaps) (df : DataFrame)
    (sels : Filters.Selections) (f : Filters.Field) (m : Mapping) (x : value)
    (filt_df : DataFrame) (row : list cell) :
  maps f = Some m ->
  In x (Filters.unique_codes df (Filters.field_column f)) ->
  In (VStr (label_of m x)) (sels f) ->
  In row (df_rows filt_df) ->
  row_get (df_columns filt_df) (Filters.field_column f) row = Some x ->
  In row (df_rows (Filters.apply_filter maps df sels f filt_df)).
Proof.
  intros Hm Hx Hsel Hrow Hget. rewrite apply_filter_keeps. cbn [df_rows].
  apply filter_In. split; [assumption|]. unfold keeps.
  destruct (has_column df (Filters.field_column f) && Filters.active (sels f));
    [|reflexivity].
  rewrite Hget. unfold Filters.allowed. rewrite Hm. simpl.
  unfold mem_value. apply existsb_exists. exists x.
  split; [|apply value_eqb_refl]. now apply selected_ids_complete.
Qed.

Lemma X11_label_filter_keeps_code_witness :
  people_maps Filters.Marital = Some [(VNum 1, "Single"); (VNum 2, "Married")]
  /\ In (VNum 2) (Filters.unique_codes people_df (Filters.field_column Filters.Marital))
  /\ In (VStr (label_of [(VNum 1, "Single"); (VNum 2, "Married")] (VNum 2)))
        (people_sels Filters.Marital)
  /\ In [txt "M"; txt "Yerevan"; num 2] (df_rows people_df)
  /\ row_get (df_columns people_df) (Filters.field_column Filters.Marital)
       [txt "M"; txt "Yerevan"; num 2] = Some (VNum 2)
  /\ In [txt "M"; txt "Yerevan"; num 2]
        (df_rows (Filters.apply_filter people_maps people_df people_sels
                    Filters.Marital people_df)).
Proof.
  assert (H1 : people_maps Filters.Marital
               = Some [(VNum 1, "Single"); (VNum 2, "Married")]) by reflexivity.
  assert (H2 : In (VNum 2)
                 (Filters.unique_codes people_df (Filters.field_column Filters.Marital)))
    by (vm_compute; tauto).
  assert (H3 : In (VStr (label_of [(VNum 1, "Single"); (VNum 2, "Married")] (VNum 2)))
                 (people_sels Filters.Marital)) by (vm_compute; tauto).
  assert (H4 : In [txt "M"; txt "Yerevan"; num 2] (df_rows people_df))
    by (simpl; tauto).
  assert (H5 : row_get (df_columns people_df) (Filters.field_column Filters.Marital)
                 [txt "M"; txt "Yerevan"; num 2] = Some (VNum 2)) by reflexivity.
  repeat (split; [assumption|]).
  exact (X11_label_filter_keeps_code people_maps people_df people_sels Filters.Marital
           [(VNum 1, "Single"); (VNum 2, "Married")] (VNum 2) people_df
           [txt "M"; txt "Yerevan"; num 2] H1 H2 H3 H4 H5).
Defined.

(** ** The mentions table *)

Lemma mention_count_app (k : string) (l1 l2 : list string) :
  mention_count k (l1 ++ l2) = mention_count k l1 + mention_count k l2.
Proof. unfold mention_count. rewrite filter_app, length_app. lia. Qed.

Lemma first_spelling_app (k : string) (l1 l2 : list string) :
  first_spelling k (l1 ++ l2) =
  match first_spelling k l1 with
  | Some x => Some x
  | None => first_spelling k l2
  end.
Proof.
  unfold first_spelling. induction l1 as [|x l1 IH]; simpl; [reflexivity|].
  now destruct (same_text k x).
Qed.

Lemma first_spelling_none_count (k : string) (l : list string) :
  first_spelling k l = None -> mention_count k l = 0.
Proof.
  unfold first_spelling, mention_count. induction l as [|x l IH]; simpl; [reflexivity|].
  destruct (same_text k x); [discriminate | exact IH].
Qed.

Lemma add_mention_groups (seen : list string) (groups : list (string * Section4.Group))
    (m : string) :
  groups_of seen groups -> groups_of (seen ++ [m]) (Section4.add_mention groups m).
Proof.
  intros [Hnd Hget]. unfold Section4.add_mention.
  assert (Hnd' : forall g, NoDup (map fst (od_set String.eqb groups (Str.lower m) g))).
  { intro g. apply od_set_NoDup; [apply String.eqb_eq | assumption]. }
  split.
  - destruct (od_get String.eqb groups (Str.lower m)); apply Hnd'.
  - intro k. rewrite mention_count_app, first_spelling_app.
    assert (Hm : mention_count k [m] = if same_text k m then 1 else 0).
    { unfold mention_count. simpl. now destruct (same_text k m). }
    assert (Hf : first_spelling k [m] = if same_text k m then Some m else None).
    { unfold first_spelling. simpl. now destruct (same_text k m). }
    rewrite Hm, Hf.
    destruct (String.eqb (Str.lower m) k) eqn:E.
    + apply String.eqb_eq in E. subst k.
      assert (Hs : same_text (Str.lower m) m = true)
        by (unfold same_text; apply String.eqb_refl).
      rewrite Hs. specialize (Hget (Str.lower m)).
      destruct (od_get String.eqb groups (Str.lower m)) as [g|] eqn:Eg.
      * rewrite od_get_set_same by apply String.eqb_eq.
        destruct (first_spelling (Str.lower m) seen) as [x|]; [|discriminate].
        simpl in *. inversion Hget. subst g. reflexivity.
      * rewrite od_get_set_same by apply String.eqb_eq.
        destruct (first_spelling (Str.lower m) seen) as [x|] eqn:Ef; [discriminate|].
        rewrite (first_spelling_none_count _ _ Ef). reflexivity.
    + assert (Hs : same_text k m = false) by exact E.
      rewrite Hs, Z.add_0_r.
      assert (Hne : k <> Str.lower m).
      { intro; subst. now rewrite String.eqb_refl in E. }
      destruct (od_get String.eqb groups (Str.lower m));
        rewrite od_get_set_other by (try apply String.eqb_eq; assumption);
        rewrite Hget; now destruct (first_spelling k seen).
Qed.

Lemma fold_mentions_groups (ms seen : list string)
    (groups : list (string * Section4.Group)) :
  groups_of seen groups ->
  groups_of (seen ++ ms) (fold_left Section4.add_mention ms groups).
Proof.
  revert seen groups. induction ms as [|m ms IH]; intros seen groups H; simpl.
  - now rewrite app_nil_r.
  - replace (seen ++ m :: ms) with ((seen ++ [m]) ++ ms)
      by (now rewrite <- app_assoc).
    apply IH. now apply add_mention_groups.
Qed.

Lemma groupby_groups (ms : list string) :
  groups_of ms (fold_left Section4.add_mention ms []).
Proof.
  apply (fold_mentions_groups ms [] []). split; [constructor | reflexivity].
Qed.

Lemma grouped_rows_perm (ms : list string) :
  Permutation
    (sort_desc (fun r => Section4.g_count (snd r)) (Section4.groupby_normalized ms))
    (fold_left Section4.add_mention ms []).
Proof.
  unfold sort_desc, Section4.groupby_normalized.
  eapply perm_trans; apply Permutation_sym, sort_by_perm.
Qed.

Lemma first_spelling_same (k x : string) (ms : list string) :
  first_spelling k ms = Some x -> Str.lower x = k /\ In x ms.
Proof.
  unfold first_spelling. intro H. apply find_some in H as [Hin Hs].
  unfold same_text in Hs. apply String.eqb_eq in Hs. auto.
Qed.

(** Every group is a text of the mentions when case is ignored, with the
    number of its mentions and its first spelling. *)
Lemma group_entry (ms : list string) (k : string) (g : Section4.Group) :
  In (k, g) (fold_left Section4.add_mention ms []) ->
  Section4.g_count g = mention_count k ms
  /\ first_spelling k ms = Some (Section4.g_example g)
  /\ Str.lower (Section4.g_example g) = k.
Proof.
  intro Hin. destruct (groupby_groups ms) as [Hnd Hget].
  pose proof (In_od_get String.eqb String.eqb_eq _ _ _ Hnd Hin) as Hk.
  rewrite Hget in Hk.
  destruct (first_spelling k ms) as [x|] eqn:Ef; [|discriminate].
  simpl in Hk. inversion Hk. subst g. simpl.
  apply first_spelling_same in Ef as [Hl _]. auto.
Qed.

Lemma od_set_group_sum (d : list (string * Section4.Group)) (k : string)
    (g : Section4.Group) :
  sum_Z (map (fun r => Section4.g_count (snd r)) (od_set String.eqb d k g))
  = sum_Z (map (fun r => Section4.g_count (snd r)) d)
    - match od_get String.eqb d k with
      | Some g0 => Section4.g_count g0
      | None => 0
      end
    + Section4.g_count g.
Proof.
  induction d as [|[k' g'] d IH]; simpl; [lia|].
  destruct (String.eqb k k'); simpl; lia.
Qed.

Lemma sum_group_counts (ms : list string) (groups : list (string * Section4.Group)) :
  sum_Z (map (fun r => Section4.g_count (snd r))
           (fold_left Section4.add_mention ms groups))
  = sum_Z (map (fun r => Section4.g_count (snd r)) groups) + Z.of_nat (List.length ms).
Proof.
  revert groups. induction ms as [|m ms IH]; intro groups; simpl; [lia|].
  rewrite IH. unfold Section4.add_mention.
  destruct (od_get String.eqb groups (Str.lower m)) as [g|] eqn:E;
    rewrite od_set_group_sum, E; simpl; lia.
Qed.

Lemma mentions_of_process (df : DataFrame) (prefix : string) (max_slots : nat) :
  snd (Section4.process_open_ended_comments df prefix max_slots)
  = Section4.mentions_table
      (Section4.all_mentions df (Section4.valid_comment_cols df prefix max_slots)).
Proof.
  unfold Section4.process_open_ended_comments.
  destruct (Section4.valid_comment_cols df prefix max_slots) as [|c cols] eqn:E;
    [reflexivity|].
  destruct (Section4.all_mentions df (c :: cols)); reflexivity.
Qed.

(** X12.  The mentions table of [process_open_ended_comments] has one row
    for every text mentioned, case ignored: no two rows are the same text
    up to case, every count is above zero, the counts add up to the number
    of mentions kept, and the rows are in descending order of count. *)
Theorem X12_mentions_table_rows (df : DataFrame) (prefix : string) (max_slots : nat) :
  let table := snd (Section4.process_open_ended_comments df prefix max_slots) in
  let mentions :=
    Section4.all_mentions df (Section4.valid_comment_cols df prefix max_slots) in
  NoDup (map (fun r => Str.lower (Section4.Mentioned r)) table)
  /\ Forall (fun r => 0 < Section4.Count r) table
  /\ sum_Z (map Section4.Count table) = Z.of_nat (List.length mentions)
  /\ descending Section4.Count table.
Proof.
  intros table mentions. subst table. rewrite mentions_of_process. fold mentions.
  unfold Section4.mentions_table.
  set (grouped := sort_desc (fun r => Section4.g_count (snd r))
                    (Section4.groupby_normalized mentions)).
  pose proof (grouped_rows_perm mentions) as Hperm. fold grouped in Hperm.
  destruct (groupby_groups mentions) as [Hnd _].
  assert (Hentry : forall e, In e grouped ->
            Section4.g_count (snd e) = mention_count (fst e) mentions
            /\ first_spelling (fst e) mentions = Some (Section4.g_example (snd e))
            /\ Str.lower (Section4.g_example (snd e)) = fst e).
  { intros [k g] He. apply group_entry. eapply Permutation_in; [exact Hperm | exact He]. }
  split; [|split; [|split]].
  - rewrite map_map. simpl.
    assert (Heq : map (fun x => Str.lower (Section4.g_example (snd x))) grouped
                  = map fst grouped).
    { apply map_ext_in. intros e He. now apply Hentry. }
    rewrite Heq. eapply Permutation_NoDup; [|exact Hnd].
    apply Permutation_map, Permutation_sym, Hperm.
  - apply Forall_map, Forall_forall. intros e He. simpl.
    destruct (Hentry e He) as [Hc [Hf _]]. rewrite Hc.
    apply first_spelling_same in Hf as [Hl Hin].
    unfold mention_count.
    assert (Hx : In (Section4.g_example (snd e)) (filter (same_text (fst e)) mentions)).
    { apply filter_In. split; [assumption|]. unfold same_text.
      rewrite Hl. apply String.eqb_refl. }
    destruct (filter (same_text (fst e)) mentions); [contradiction | simpl; lia].
  - rewrite map_map. simpl.
    rewrite (sum_Z_perm _ _ (Permutation_map (fun r => Section4.g_count (snd r)) Hperm)).
    rewrite sum_group_counts. simpl. lia.
  - eapply descending_map; [|apply sort_desc_sorted]. auto.
Qed.

(** X13.  In each row of the mentions table the count is the number of
    kept mentions that are the row's text when case is ignored, and the text
    shown is the spelling of the first of them. *)
Theorem X13_mentions_first_spelling (df : DataFrame) (prefix : string)
    (max_slots : nat) :
  let table := snd (Section4.process_open_ended_comments df prefix max_slots) in
  let mentions :=
    Section4.all_mentions df (Section4.valid_comment_cols df prefix max_slots) in
  Forall (fun r =>
            Section4.Count r = mention_count (Str.lower (Section4.Mentioned r)) mentions
            /\ first_spelling (Str.lower (Section4.Mentioned r)) mentions
               = Some (Section4.Mentioned r)) table
  /\ incl (map Str.lower mentions) (map (fun r => Str.lower (Section4.Mentioned r)) table).
Proof.
  intros table mentions. subst table. rewrite mentions_of_process. fold mentions.
  unfold Section4.mentions_table.
  set (grouped := sort_desc (fun r => Section4.g_count (snd r))
                    (Section4.groupby_normalized mentions)).
  pose proof (grouped_rows_perm mentions) as Hperm. fold grouped in Hperm.
  split.
  - apply Forall_map, Forall_forall. intros [k g] He. simpl.
    assert (Hin : In (k, g) (fold_left Section4.add_mention mentions []))
      by (eapply Permutation_in; [exact Hperm | exact He]).
    apply group_entry in Hin as [Hc [Hf Hl]]. rewrite Hl. auto.
  - intros k Hk. apply in_map_iff in Hk as [m [Hk Hm]]. subst k.
    destruct (groupby_groups mentions) as [_ Hget]. specialize (Hget (Str.lower m)).
    destruct (first_spelling (Str.lower m) mentions) as [x|] eqn:Ef.
    + simpl in Hget. apply od_get_In in Hget; [|apply String.eqb_eq].
      apply first_spelling_same in Ef as [Hl _].
      rewrite map_map. simpl. apply in_map_iff.
      exists (Str.lower m, Section4.mkGroup (mention_count (Str.lower m) mentions) x).
      split; [exact Hl|].
      eapply Permutation_in; [apply Permutation_sym, Hperm | exact Hget].
    + exfalso. unfold first_spelling in Ef.
      apply (find_none _ _ Ef) in Hm. unfold same_text in Hm.
      now rewrite String.eqb_refl in Hm.
Qed.

(** ** The segments table *)

Lemma insert_asc_sorted {A : Type} (key : A -> Z) (x : A) (l : list A) :
  ascending key l -> ascending key (insert_sorted (fun y x => key y <? key x) x l).
Proof.
  unfold ascending. induction l as [|y l IH]; simpl; intro Hs.
  - repeat constructor.
  - destruct (key y <? key x) eqn:E.
    + apply Sorted_inv in Hs as [Hs Hhd].
      constructor; [now apply IH|].
      destruct l as [|z l]; simpl.
      * constructor. apply Z.ltb_lt in E. lia.
      * destruct (key z <? key x) eqn:E'.
        -- constructor. now inversion Hhd.
        -- constructor. apply Z.ltb_lt in E. lia.
    + constructor; [assumption|]. constructor. apply Z.ltb_ge in E. lia.
Qed.

Lemma sort_asc_sorted {A : Type} (key : A -> Z) (l : list A) :
  ascending key (sort_asc key l).
Proof.
  unfold sort_asc. induction l as [|x l IH]; simpl.
  - constructor.
  - now apply insert_asc_sorted.
Qed.

Lemma ascending_map {A B : Type} (f : A -> B) (key : A -> Z) (key' : B -> Z)
    (l : list A) :
  (forall a, key' (f a) = key a) -> ascending key l -> ascending key' (map f l).
Proof.
  intros Hf. unfold ascending. induction 1 as [|a l Hs IH Hhd]; simpl.
  - constructor.
  - constructor; [assumption|].
    destruct Hhd as [|b l' Hab]; simpl; constructor. now rewrite !Hf.
Qed.

Lemma filter_perm {A : Type} (p : A -> bool) (l l' : list A) :
  Permutation l l' -> Permutation (filter p l) (filter p l').
Proof.
  induction 1 as [|x l l' H IH|x y l|l1 l2 l3 H1 IH1 H2 IH2]; simpl.
  - constructor.
  - destruct (p x); [now constructor | assumption].
  - destruct (p x), (p y); try apply Permutation_refl. apply perm_swap.
  - eapply perm_trans; eassumption.
Qed.

Lemma kept_keys_NoDup {K V : Type} (keep : K * V -> bool) (d : list (K * V)) :
  NoDup (map fst d) -> NoDup (map fst (filter keep d)).
Proof.
  intro Hd. induction d as [|[k v] d IH]; simpl; [constructor|].
  simpl in Hd. apply NoDup_cons_iff in Hd as [Hk Hd].
  destruct (keep (k, v)); simpl; [|now apply IH].
  apply NoDup_cons_iff. split; [|now apply IH].
  intro Hin. apply Hk. apply in_map_iff in Hin as [e [He Hin]].
  apply filter_In in Hin as [Hin _]. apply in_map_iff. now exists e.
Qed.

(** The counts kept for the keys that satisfy [p] add up to the cells that
    satisfy it. *)
Lemma tally_filter_sum (p : value -> bool) (s : Series) (acc : list (value * Z)) :
  sum_Z (map snd (filter (fun e => p (fst e)) (tally acc s)))
  = sum_Z (map snd (filter (fun e => p (fst e)) acc))
    + Z.of_nat (List.length
                  (filter (fun c => match c with Some v => p v | None => false end) s)).
Proof.
  revert acc. induction s as [|[w|] s IH]; intro acc; simpl; [lia| |apply IH].
  rewrite IH.
  assert (H : sum_Z (map snd (filter (fun e => p (fst e))
                                (od_set value_eqb acc w
                                   (od_get_default value_eqb acc w 0 + 1))))
              = sum_Z (map snd (filter (fun e => p (fst e)) acc))
                + (if p w then 1 else 0)).
  { unfold od_get_default. induction acc as [|[k n] acc IHa]; simpl.
    - destruct (p w); simpl; lia.
    - destruct (value_eqb w k) eqn:E; simpl.
      + apply value_eqb_eq in E. subst k. destruct (p w); simpl; lia.
      + destruct (p k); simpl; rewrite IHa; lia. }
  rewrite H. destruct (p w); simpl; lia.
Qed.

Lemma times_at_most_length (v : value) (s : Series) :
  times v s <= Z.of_nat (List.length s).
Proof. unfold times. apply inj_le, filter_length_le. Qed.

Lemma segments_of_process (df : DataFrame) (prefix : string) (max_slots : nat) :
  fst (Section4.process_open_ended_comments df prefix max_slots)
  = match Section4.valid_comment_cols df prefix max_slots with
    | [] => []
    | cols => Section4.segments_table df cols
    end.
Proof.
  unfold Section4.process_open_ended_comments.
  destruct (Section4.valid_comment_cols df prefix max_slots) as [|c cols];
    [reflexivity|].
  destruct (Section4.all_mentions df (c :: cols)); reflexivity.
Qed.

Lemma comment_counts_length (df : DataFrame) (prefix : string) (max_slots : nat) :
  Z.of_nat (List.length (comment_counts df prefix max_slots)) = len df.
Proof.
  unfold comment_counts, Section4.counts_per_user, len. now rewrite !length_map.
Qed.

(** X14.  In the segments table of [process_open_ended_comments] every row
    stands for a number of comments above zero, the rows are in ascending
    order of that number without repetition, the users of a row are the
    respondents with exactly that many comments, every percent is between
    0.0 and 100.0, and the users add up to the respondents with at least
    one comment. *)
Theorem X14_segments_table_rows (df : DataFrame) (prefix : string) (max_slots : nat) :
  let table := fst (Section4.process_open_ended_comments df prefix max_slots) in
  let counts := comment_counts df prefix max_slots in
  Forall (fun r => 0 < Section4.num_key (Section4.mentions_count r)
                   /\ Section4.num_users r = times (Section4.mentions_count r) counts
                   /\ 0 <= Section4.seg_percent r <= 1000) table
  /\ NoDup (map Section4.mentions_count table)
  /\ ascending (fun r => Section4.num_key (Section4.mentions_count r)) table
  /\ sum_Z (map Section4.num_users table)
     = Z.of_nat (List.length (filter positive_cell counts)).
Proof.
  intros table counts. subst table. rewrite segments_of_process.
  unfold counts, comment_counts.
  destruct (Section4.valid_comment_cols df prefix max_slots) as [|c cols] eqn:Ecols.
  { repeat split; try constructor.
    unfold Section4.counts_per_user. simpl.
    induction (df_rows df) as [|row rows IH]; simpl; [reflexivity|].
    unfold Section4.count_comments at 1. simpl. exact IH. }
  set (series := map (fun n => Some (VNum n))
                   (Section4.counts_per_user df (c :: cols))).
  assert (Hlen : Z.of_nat (List.length series) = len df).
  { unfold series, Section4.counts_per_user, len. now rewrite !length_map. }
  unfold Section4.segments_table. fold series.
  set (kept := filter (fun r => 0 <? Section4.num_key (fst r)) (value_counts series)).
  assert (Hkept : forall e, In e kept ->
            0 < Section4.num_key (fst e) /\ In (Some (fst e)) series
            /\ snd e = times (fst e) series).
  { intros [v n] He. apply filter_In in He as [He Hk]. simpl in *.
    apply value_counts_entries in He as [Hin Hn]. apply Z.ltb_lt in Hk. auto. }
  assert (Hperm : Permutation kept
                    (sort_asc (fun r => Section4.num_key (fst r)) kept))
    by apply sort_by_perm.
  split; [|split; [|split]].
  - apply Forall_map, Forall_forall. intros e He. simpl.
    apply (Permutation_in _ (Permutation_sym Hperm)) in He.
    destruct (Hkept e He) as [Hk [Hin Hn]].
    split; [assumption | split; [assumption|]].
    assert (Hle : times (fst e) series <= len df)
      by (rewrite <- Hlen; apply times_at_most_length).
    apply times_positive in Hin.
    rewrite Hn.
    split.
    + apply percent_of_nonneg; lia.
    + apply percent_of_at_most_100; lia.
  - rewrite map_map. simpl.
    eapply Permutation_NoDup; [apply Permutation_map, Hperm|].
    apply kept_keys_NoDup, value_counts_NoDup.
  - eapply ascending_map; [|apply sort_asc_sorted]. reflexivity.
  - rewrite map_map. simpl.
    transitivity (sum_Z (map snd kept));
      [apply sum_Z_perm, Permutation_map, Permutation_sym, Hperm|].
    transitivity
      (sum_Z (map snd (filter (fun e => 0 <? Section4.num_key (fst e))
                         (tally [] series)))).
    { apply sum_Z_perm, Permutation_map. unfold kept, value_counts, sort_desc.
      apply filter_perm, Permutation_sym, sort_by_perm. }
    rewrite (tally_filter_sum (fun v => 0 <? Section4.num_key v)). simpl.
    reflexivity.
Qed.

(** ** More on the combination table *)

Lemma percent_of_zero (total : Z) : percent_of 0 total = 0.
Proof.
  unfold percent_of, round1. transitivity (rint (inject_Z 0)).
  - apply rint_Qeq. unfold Qdiv. ring.
  - apply rint_integer.
Qed.

Lemma percent_of_at_most (k c total : Z) :
  0 < total -> c <= k * total -> percent_of c total <= 1000 * k.
Proof.
  intros Ht Hc.
  assert (Hk : percent_of (k * total) total = 1000 * k).
  { unfold percent_of, round1. transitivity (rint (inject_Z (1000 * k))).
    - apply rint_Qeq. rewrite !inject_Z_mult. field.
      intro H. unfold Qeq in H. simpl in H. lia.
    - apply rint_integer. }
  rewrite <- Hk. apply percent_of_monotone; lia.
Qed.

Lemma od_get_default_key {V : Type} (P : value -> V -> Prop) (d : list (value * V))
    (k : value) (dflt : V) :
  Forall (fun e => P (fst e) (snd e)) d -> P k dflt ->
  P k (od_get_default value_eqb d k dflt).
Proof.
  intros Hd Hdflt. unfold od_get_default.
  destruct (od_get value_eqb d k) as [v|] eqn:E; [|assumption].
  apply od_get_In in E; [|apply value_eqb_eq].
  rewrite Forall_forall in Hd. now apply (Hd (k, v)).
Qed.

(** Writing one field keeps a property of the entries that the new entry
    has. *)
Lemma set_field_invariant (P : value -> Section3.Counts -> Prop)
    (upd : Section3.Counts -> Section3.Counts) (all : Section3.Channels) (ch : value) :
  Forall (fun e => P (fst e) (snd e)) all ->
  P ch Section3.zero_counts ->
  (forall n, P ch n -> P ch (upd n)) ->
  Forall (fun e => P (fst e) (snd e)) (Section3.set_field upd all ch).
Proof.
  intros Hall Hzero Hupd. unfold Section3.set_field.
  set (all' := if od_mem value_eqb all ch then all
               else od_set value_eqb all ch Section3.zero_counts).
  assert (Hall' : Forall (fun e => P (fst e) (snd e)) all').
  { unfold all'. destruct (od_mem value_eqb all ch); [assumption|].
    apply od_set_Forall; [apply value_eqb_eq | assumption | assumption]. }
  apply od_set_Forall; [apply value_eqb_eq | assumption|].
  simpl. apply Hupd. now apply od_get_default_key.
Qed.

Lemma fold_left_invariant_in {A B : Type} (P : A -> Prop) (f : A -> B -> A)
    (l : list B) (a : A) :
  P a -> (forall a b, In b l -> P a -> P (f a b)) -> P (fold_left f l a).
Proof.
  revert a. induction l as [|b l IH]; intros a Ha Hstep; simpl; [assumption|].
  apply IH.
  - apply Hstep; [now left | assumption].
  - intros a' b' Hb. apply Hstep. now right.
Qed.

(** A property of the entries that the zero entry has, that writing Other
    or Prompted keeps, and that writing TOM keeps for every name counted
    as a first mention, holds of all the items collected. *)
Lemma all_channels_invariant (P : value -> Section3.Counts -> Prop)
    df tom_col other_prefix promp_prefix max_num mapping ex :
  (forall ch, P ch Section3.zero_counts) ->
  (forall ch n k, 0 < k <= len df -> P ch n ->
     P ch (Section3.mkCounts (Section3.c_TOM n) k (Section3.c_Prompted n))) ->
  (forall ch n k, 0 < k <= len df -> P ch n ->
     P ch (Section3.mkCounts (Section3.c_TOM n) (Section3.c_Other n) k)) ->
  (forall ch n k,
     In (Some ch) (Section3.tom_series df tom_col mapping ex) ->
     placeholder_name ch = false ->
     0 < k <= len df -> P ch n ->
     P ch (Section3.mkCounts k (Section3.c_Other n) (Section3.c_Prompted n))) ->
  Forall (fun e => P (fst e) (snd e))
    (Section3.all_channels df tom_col other_prefix promp_prefix max_num mapping ex).
Proof.
  intros Hzero Hother Hprompted Htom.
  assert (Hyes : forall s, 0 < yes_count (column df s) ->
                   0 < yes_count (column df s) <= len df).
  { intros s H. split; [assumption|]. unfold yes_count, len, column.
    apply inj_le. eapply Nat.le_trans; [apply filter_length_le|].
    now rewrite length_map. }
  unfold Section3.all_channels.
  apply fold_left_invariant; [apply fold_left_invariant; [apply fold_left_invariant|]|].
  - unfold Section3.tom_step. destruct (has_column df tom_col); [|constructor].
    apply fold_left_invariant_in; [constructor|].
    intros all [ch k] Hin Hall. unfold Section3.tom_entry.
    fold (placeholder_name ch).
    destruct (placeholder_name ch) eqn:Eph; [assumption|].
    apply value_counts_entries in Hin as [Hin Hk].
    apply set_field_invariant; [assumption | apply Hzero|].
    intros n Hn. apply Htom; try assumption.
    split.
    + rewrite Hk. now apply times_positive.
    + rewrite Hk. eapply Z.le_trans; [apply times_at_most_length|].
      unfold len, Section3.tom_series. apply inj_le.
      assert (Hd : (List.length (dropna (column df tom_col))
                    <= List.length (df_rows df))%nat).
      { eapply Nat.le_trans; [apply filter_length_le|].
        unfold column. now rewrite length_map. }
      destruct ex as [[|v ex]|]; try assumption.
      eapply Nat.le_trans; [apply filter_length_le | assumption].
  - intros all i Hall. unfold Section3.yes_step.
    destruct (negb (has_column df _)); [assumption|].
    destruct (0 <? yes_count _) eqn:E; [|assumption].
    destruct (map_get mapping _); [|assumption].
    apply Z.ltb_lt in E.
    apply set_field_invariant; [assumption | apply Hzero|].
    intros n Hn. apply Hother; [now apply Hyes | assumption].
  - intros all i Hall. unfold Section3.yes_step.
    destruct (negb (has_column df _)); [assumption|].
    destruct (0 <? yes_count _) eqn:E; [|assumption].
    destruct (map_get mapping _); [|assumption].
    apply Z.ltb_lt in E.
    apply set_field_invariant; [assumption | apply Hzero|].
    intros n Hn. apply Hprompted; [now apply Hyes | assumption].
  - intros all sfx Hall. unfold Section3.suffix_step.
    destruct (Section3.is_excluded ex (VNum sfx)); [assumption|].
    destruct (map_get mapping (VNum sfx)); [|assumption].
    destruct (has_column df _); [|assumption].
    destruct (0 <? yes_count _) eqn:E; [|assumption].
    apply Z.ltb_lt in E.
    apply set_field_invariant; [assumption | apply Hzero|].
    intros n Hn. apply Hprompted; [now apply Hyes | assumption].
Qed.

Lemma combine_rows df tom_col other_prefix promp_prefix max_num mapping ex table r :
  Section3.combine_tom_other_promp df tom_col other_prefix promp_prefix max_num
    mapping ex = Some table ->
  In r table ->
  exists n,
    In (Section3.channel r, n)
       (Section3.all_channels df tom_col other_prefix promp_prefix max_num mapping ex)
    /\ r = code_row (len df) (Section3.channel r, n).
Proof.
  rewrite combine_defined. intro H. inversion H. subst table. clear H.
  intro Hr. unfold sort_desc in Hr. apply sort_by_In in Hr.
  apply in_map_iff in Hr as [[ch n] [Hr Hin]]. subst r. simpl. now exists n.
Qed.

Lemma code_row_fields (N : Z) (ch : value) (n : Section3.Counts) :
  Section3.TOM (code_row N (ch, n)) = percent_of (Section3.c_TOM n) N
  /\ Section3.Other (code_row N (ch, n)) = percent_of (Section3.c_Other n) N
  /\ Section3.Prompted (code_row N (ch, n)) = percent_of (Section3.c_Prompted n) N
  /\ Section3.Total (code_row N (ch, n))
     = percent_of (Section3.c_TOM n + Section3.c_Other n + Section3.c_Prompted n) N.
Proof. repeat split; reflexivity. Qed.

(** X15.  A name that reads "other", "nan" or "none" in any casing is never
    counted as a first mention: in the table of [combine_tom_other_promp] a
    row under such a name has TOM 0.0. *)
Theorem X15_placeholder_names_have_no_tom (df : DataFrame)
    (tom_col other_prefix promp_prefix : string) (max_num : nat) (mapping : Mapping)
    (exclude_values : option (list value)) :
  match Section3.combine_tom_other_promp df tom_col other_prefix promp_prefix max_num
          mapping exclude_values with
  | Some table =>
      Forall (fun r => placeholder_name (Section3.channel r) = true -> Section3.TOM r = 0)
        table
  | None => False
  end.
Proof.
  destruct (Section3.combine_tom_other_promp df tom_col other_prefix promp_prefix
              max_num mapping exclude_values) as [table|] eqn:E.
  2: { rewrite combine_defined in E. discriminate. }
  apply Forall_forall. intros r Hr Hph.
  destruct (combine_rows _ _ _ _ _ _ _ _ _ E Hr) as [n [Hin Hrow]].
  pose proof (all_channels_invariant
                (fun ch n => placeholder_name ch = true -> Section3.c_TOM n = 0)
                df tom_col other_prefix promp_prefix max_num mapping exclude_values)
    as Hinv.
  rewrite Forall_forall in Hinv.
  assert (Ht : Section3.c_TOM n = 0).
  { apply (Hinv ltac:(reflexivity) ltac:(auto) ltac:(auto)
             ltac:(intros; congruence) (Section3.channel r, n) Hin Hph). }
  rewrite Hrow. destruct (code_row_fields (len df) (Section3.channel r) n) as [H _].
  rewrite H, Ht. apply percent_of_zero.
Qed.

(** X16.  In every row of the table of [combine_tom_other_promp] each of
    TOM, Other and Prompted is between 0.0 and 100.0, and Total is at least
    each of them and at most 300.0. *)
Theorem X16_combination_bounds (df : DataFrame)
    (tom_col other_prefix promp_prefix : string) (max_num : nat) (mapping : Mapping)
    (exclude_values : option (list value)) :
  match Section3.combine_tom_other_promp df tom_col other_prefix promp_prefix max_num
          mapping exclude_values with
  | Some table =>
      Forall (fun r => 0 <= Section3.TOM r <= 1000
                       /\ 0 <= Section3.Other r <= 1000
                       /\ 0 <= Section3.Prompted r <= 1000
                       /\ Section3.TOM r <= Section3.Total r
                       /\ Section3.Other r <= Section3.Total r
                       /\ Section3.Prompted r <= Section3.Total r
                       /\ Section3.Total r <= 3000) table
  | None => False
  end.
Proof.
  destruct (Section3.combine_tom_other_promp df tom_col other_prefix promp_prefix
              max_num mapping exclude_values) as [table|] eqn:E.
  2: { rewrite combine_defined in E. discriminate. }
  apply Forall_forall. intros r Hr.
  destruct (combine_rows _ _ _ _ _ _ _ _ _ E Hr) as [n [Hin Hrow]].
  assert (HN : 0 < len df).
  { eapply channels_need_respondents. intro H. rewrite H in Hin. exact Hin. }
  pose proof (all_channels_invariant
                (fun _ n => 0 <= Section3.c_TOM n <= len df
                            /\ 0 <= Section3.c_Other n <= len df
                            /\ 0 <= Section3.c_Prompted n <= len df)
                df tom_col other_prefix promp_prefix max_num mapping exclude_values)
    as Hinv.
  rewrite Forall_forall in Hinv.
  assert (Hb : 0 <= Section3.c_TOM n <= len df
               /\ 0 <= Section3.c_Other n <= len df
               /\ 0 <= Section3.c_Prompted n <= len df).
  { apply (fun H1 H2 H3 H4 => Hinv H1 H2 H3 H4 (Section3.channel r, n) Hin).
    - intros _. simpl. lia.
    - intros _ m k Hk Hm. simpl. lia.
    - intros _ m k Hk Hm. simpl. lia.
    - intros ch m k _ _ Hk Hm. simpl. lia. }
  rewrite Hrow.
  destruct (code_row_fields (len df) (Section3.channel r) n) as [H1 [H2 [H3 H4]]].
  rewrite H1, H2, H3, H4.
  repeat split;
    try (apply percent_of_nonneg; lia);
    try (apply percent_of_at_most_100; lia);
    try (apply percent_of_monotone; lia).
  replace 3000 with (1000 * 3) by reflexivity. apply percent_of_at_most; lia.
Qed.

(** X17.  With a non-empty set of excluded codes, the label of an excluded
    code gets no first mention: a row under that label has TOM 0.0. *)
Theorem X17_excluded_code_has_no_tom (df : DataFrame)
    (tom_col other_prefix promp_prefix : string) (max_num : nat) (mapping : Mapping)
    (ex : list value) (v : value) (l : string) :
  In v ex ->
  map_get mapping v = Some l ->
  match Section3.combine_tom_other_promp df tom_col other_prefix promp_prefix max_num
          mapping (Some ex) with
  | Some table =>
      Forall (fun r => Section3.channel r = VStr l -> Section3.TOM r = 0) table
  | None => False
  end.
Proof.
  intros Hv Hl.
  destruct (Section3.combine_tom_other_promp df tom_col other_prefix promp_prefix
              max_num mapping (Some ex)) as [table|] eqn:E.
  2: { rewrite combine_defined in E. discriminate. }
  apply Forall_forall. intros r Hr Hch.
  destruct (combine_rows _ _ _ _ _ _ _ _ _ E Hr) as [n [Hin Hrow]].
  assert (Hname : In (VStr l) (Section3.exclude_names mapping ex)).
  { unfold Section3.exclude_names. apply in_map_iff. exists v. rewrite Hl.
    split; [reflexivity|]. apply filter_In. split; [assumption|].
    unfold map_mem, od_mem. unfold map_get in Hl. now rewrite Hl. }
  pose proof (all_channels_invariant
                (fun ch n => ch = VStr l -> Section3.c_TOM n = 0)
                df tom_col other_prefix promp_prefix max_num mapping (Some ex))
    as Hinv.
  rewrite Forall_forall in Hinv.
  assert (Ht : Section3.c_TOM n = 0).
  { apply (Hinv ltac:(reflexivity) ltac:(auto) ltac:(auto)) with
      (x := (Section3.channel r, n)); [|exact Hin | exact Hch].
    intros ch m k Hser _ _ _ Heq. exfalso. subst ch.
    unfold Section3.tom_series in Hser.
    destruct ex as [|v0 ex']; [contradiction|].
    unfold drop_isin in Hser. apply filter_In in Hser as [_ Hser].
    cbv beta in Hser. unfold isin in Hser. apply negb_true_iff in Hser.
    assert (Hm : mem_value (VStr l) (Section3.exclude_names mapping (v0 :: ex')) = true).
    { unfold mem_value. apply existsb_exists. exists (VStr l).
      split; [assumption | apply value_eqb_refl]. }
    congruence. }
  rewrite Hrow. destruct (code_row_fields (len df) (Section3.channel r) n) as [H _].
  rewrite H, Ht. apply percent_of_zero.
Qed.

Lemma X17_excluded_code_has_no_tom_witness :
  In (VNum 1) [VNum 1; VNum 999]
  /\ map_get tv_map (VNum 1) = Some "H1"
  /\ match Section3.combine_tom_other_promp tv_df "R1TOM" "R1Other_" "R1Propm_" 2
             tv_map (Some [VNum 1; VNum 999]) with
     | Some table =>
         Forall (fun r => Section3.channel r = VStr "H1" -> Section3.TOM r = 0) table
     | None => False
     end.
Proof.
  assert (H1 : In (VNum 1) [VNum 1; VNum 999]) by (simpl; tauto).
  assert (H2 : map_get tv_map (VNum 1) = Some "H1") by reflexivity.
  split; [exact H1 | split; [exact H2|]].
  exact (X17_excluded_code_has_no_tom tv_df "R1TOM" "R1Other_" "R1Propm_" 2 tv_map
           [VNum 1; VNum 999] (VNum 1) "H1" H1 H2).
Defined.

(** ** The rows charted *)

Lemma descending_firstn {A : Type} (key : A -> Z) (n : nat) (l : list A) :
  descending key l -> descending key (firstn n l).
Proof.
  unfold descending. intro Hs. revert n.
  induction Hs as [|x l Hs IH Hhd]; intros [|n]; simpl; try constructor.
  - apply IH.
  - destruct Hhd as [|y l' Hxy]; destruct n; simpl; constructor. assumption.
Qed.

Lemma descending_split {A : Type} (key : A -> Z) (n : nat) (l : list A) :
  descending key l ->
  forall a b, In a (firstn n l) -> In b (skipn n l) -> key b <= key a.
Proof.
  intro Hs. apply Sorted_StronglySorted in Hs; [|intros x y z; lia].
  revert n. induction Hs as [|x l Hs IH Hx]; intros n a b Ha Hb.
  - rewrite firstn_nil in Ha. contradiction.
  - destruct n as [|n]; simpl in *; [contradiction|].
    destruct Ha as [<-|Ha].
    + rewrite Forall_forall in Hx. apply Hx.
      rewrite <- (firstn_skipn n l). apply in_or_app. now right.
    + now apply (IH n).
Qed.

(** X18.  [grouped_bar_chart] draws at most 15 rows of the table it is
    given: the rows drawn and the rows left out make up the table, the rows
    drawn are in descending order of Total, and no row left out has a higher
    Total than a row drawn. *)
Theorem X18_chart_shows_top_15 (tab : list Section3.CombRow) :
  exists hidden,
    Permutation (Section3.tab_sorted tab ++ hidden) tab
    /\ List.length (Section3.tab_sorted tab) = Nat.min 15 (List.length tab)
    /\ descending Section3.Total (Section3.tab_sorted tab)
    /\ Forall (fun shown =>
                 Forall (fun left_out => Section3.Total left_out <= Section3.Total shown)
                   hidden)
         (Section3.tab_sorted tab).
Proof.
  exists (beyond 15 (sort_desc Section3.Total tab)).
  unfold Section3.tab_sorted, head, beyond.
  assert (Hs : descending Section3.Total (sort_desc Section3.Total tab))
    by apply sort_desc_sorted.
  assert (Hp : Permutation tab (sort_desc Section3.Total tab))
    by apply sort_by_perm.
  split; [|split; [|split]].
  - rewrite firstn_skipn. now apply Permutation_sym.
  - rewrite length_firstn. now rewrite (Permutation_length Hp).
  - now apply descending_firstn.
  - apply Forall_forall. intros a Ha. apply Forall_forall. intros b Hb.
    now apply (descending_split Section3.Total 15 _ Hs).
Qed.

(** ** Excluded codes *)

Lemma drop_isin_In (ex : list value) (s : Series) (v : value) :
  In (Some v) (drop_isin ex s) -> ~ In v ex.
Proof.
  unfold drop_isin. intro H. apply filter_In in H as [_ H]. simpl in H.
  apply negb_true_iff in H. intro Hin.
  assert (Hm : mem_value v ex = true).
  { unfold mem_value. apply existsb_exists. exists v.
    split; [assumption | apply value_eqb_refl]. }
  congruence.
Qed.

Lemma slot_values_not_excluded df col_prefix (ex : list value) (i : nat) (v : value) :
  In (Some v) (Section3.slot_values df col_prefix (Some ex) i) -> ~ In v ex.
Proof.
  unfold Section3.slot_values, Section3.drop_excluded.
  destruct (negb (has_column df _)); [contradiction|].
  destruct ex as [|v0 ex]; [auto|]. apply drop_isin_In.
Qed.

(** X19.  In [freq_multi_numbered] an excluded code is never counted: a
    label all of whose codes are excluded has no row. *)
Theorem X19_numbered_excluded_codes (df : DataFrame) (col_prefix : string)
    (max_num : nat) (mapping : Mapping) (ex : list value) (l : string) :
  (forall v, map_get mapping v = Some l -> In v ex) ->
  ~ In l (map answer (Section3.freq_multi_numbered df col_prefix max_num mapping (Some ex))).
Proof.
  intros Hex Hin. apply numbered_answers_counted in Hin.
  unfold counted_labels in Hin.
  apply in_flat_map in Hin as [i [_ Hin]].
  apply in_flat_map in Hin as [c [Hc Hin]]. unfold slot_labels in Hin.
  destruct c as [v|]; [|contradiction].
  destruct (map_get mapping v) as [l'|] eqn:E; [|contradiction].
  destruct Hin as [<-|[]].
  apply slot_values_not_excluded in Hc. apply Hc. now apply Hex.
Qed.

Lemma X19_numbered_excluded_codes_witness :
  (forall v, map_get xy_map v = Some "Y" -> In v [VNum 2; VNum 999])
  /\ ~ In "Y" (map answer (Section3.freq_multi_numbered slots_df "Q" 3 xy_map
                             (Some [VNum 2; VNum 999]))).
Proof.
  assert (H : forall v, map_get xy_map v = Some "Y" -> In v [VNum 2; VNum 999]).
  { intros v Hv. unfold map_get, xy_map in Hv. simpl in Hv.
    destruct (value_eqb v (VNum 1)) eqn:E1; [discriminate|].
    destruct (value_eqb v (VNum 2)) eqn:E2; [|discriminate].
    apply value_eqb_eq in E2. subst. now left. }
  split; [exact H|].
  exact (X19_numbered_excluded_codes slots_df "Q" 3 xy_map [VNum 2; VNum 999] "Y" H).
Defined.

(** X20.  Without a mapping, no excluded code is an answer of
    [freq_single]. *)
Theorem X20_freq_single_excluded_codes (df : DataFrame) (col : string)
    (ex : list value) (include_null : bool) (v : value) :
  In v ex ->
  ~ In v (map answer (App.freq_single df col None (Some ex) include_null)).
Proof.
  intros Hv Hin. rewrite freq_single_table, with_percent_answers in Hin.
  apply value_counts_keys in Hin. simpl in Hin. unfold eligible_single in Hin.
  destruct (negb (has_column df col)); [contradiction|].
  apply drop_isin_In in Hin. contradiction.
Qed.

Lemma X20_freq_single_excluded_codes_witness :
  In (VNum 2) [VNum 2; VNum 999]
  /\ ~ In (VNum 2) (map answer (App.freq_single sex_df "SEX" None
                                  (Some [VNum 2; VNum 999]) false)).
Proof.
  assert (H : In (VNum 2) [VNum 2; VNum 999]) by (simpl; tauto).
  split; [exact H|].
  exact (X20_freq_single_excluded_codes sex_df "SEX" [VNum 2; VNum 999] false (VNum 2) H).
Defined.

(** ** Tables of YES counts *)

Lemma od_set_not_nil {K V : Type} (eqb : K -> K -> bool) (d : list (K * V))
    (k : K) (v : V) :
  od_set eqb d k v <> [].
Proof. destruct d as [|[k' v'] d]; simpl; [|destruct (eqb k k')]; discriminate. Qed.









(** ** [freq_multi] of [section2.py] *)

Lemma section2_counts_entries df labels (cols : list string) :
  let counts := fold_left (Section2.count_column df labels) cols [] in
  NoDup (map fst counts)
  /\ Forall (fun e => exists c, In c cols
                                /\ fst e = option_label labels c
                                /\ snd e = yes_count (column df c)
                                /\ 0 < snd e) counts.
Proof.
  simpl. apply (fold_left_invariant_in
                  (fun counts =>
                     NoDup (map fst counts)
                     /\ Forall (fun e => exists c, In c cols
                                                   /\ fst e = option_label labels c
                                                   /\ snd e = yes_count (column df c)
                                                   /\ 0 < snd e) counts)).
  - split; constructor.
  - intros counts c Hc [Hnd Hall]. unfold Section2.count_column.
    destruct (0 <? yes_count (column df c)) eqn:E; [|now split].
    apply Z.ltb_lt in E. split.
    + apply od_set_NoDup; [apply String.eqb_eq | assumption].
    + apply od_set_Forall; [apply String.eqb_eq | assumption|].
      exists c. simpl. auto.
Qed.

Lemma section2_counts_nil df labels (cols : list string) (acc : list (string * Z)) :
  fold_left (Section2.count_column df labels) cols acc = []
  <-> acc = [] /\ Forall (fun c => yes_count (column df c) = 0) cols.
Proof.
  revert acc. induction cols as [|c cols IH]; intro acc; simpl.
  - split; [intro H; split; [assumption | constructor] | tauto].
  - rewrite IH. unfold Section2.count_column.
    assert (Hy : 0 <= yes_count (column df c)) by (unfold yes_count; lia).
    destruct (0 <? yes_count (column df c)) eqn:E.
    + apply Z.ltb_lt in E. split.
      * intros [Ha _]. exfalso. exact (od_set_not_nil _ _ _ _ Ha).
      * intros [_ Hf]. inversion Hf. lia.
    + apply Z.ltb_ge in E. split.
      * intros [Ha Hf]. split; [assumption|]. constructor; [lia | assumption].
      * intros [Ha Hf]. inversion Hf. auto.
Qed.

Lemma section2_freq_multi_table df cols labels :
  Section2.freq_multi df cols labels
  = sort_desc percent
      (with_percent_of_sum
         (fold_left (Section2.count_column df labels) (filter (has_column df) cols) [])).
Proof.
  unfold Section2.freq_multi.
  destruct (filter (has_column df) cols) as [|c present]; [reflexivity|].
  apply finish_table.
Qed.

(** X22.  Every row of [freq_multi] of [section2.py] is the label of a
    column of the list that is in the data, with the number of its YES cells,
    which is above zero; no label comes twice, the percents are between 0.0
    and 100.0 and in descending order, and the table is empty exactly when
    no listed column of the data holds a YES. *)
Theorem X22_section2_freq_multi_rows (df : DataFrame) (cols : list string)
    (labels : list (string * string)) :
  let table := Section2.freq_multi df cols labels in
  NoDup (map answer table)
  /\ Forall (fun r => exists c,
               In c cols /\ has_column df c = true
               /\ answer r = option_label labels c
               /\ count r = yes_count (column df c)
               /\ 0 < count r
               /\ 0 <= percent r <= 1000) table
  /\ descending percent table
  /\ (table = [] <->
      Forall (fun c => yes_count (column df c) = 0) (filter (has_column df) cols)).
Proof.
  intro table. subst table. rewrite section2_freq_multi_table.
  set (present := filter (has_column df) cols).
  pose proof (section2_counts_entries df labels present) as [Hnd Hall].
  set (counts := fold_left (Section2.count_column df labels) present []) in *.
  assert (Hpos : positive_counts counts).
  { unfold positive_counts. eapply Forall_impl; [|exact Hall].
    intros e [c [_ [_ [_ H]]]]. exact H. }
  split; [|split; [|split]].
  - eapply Permutation_NoDup; [apply sorted_table_answers | exact Hnd].
  - pose proof (with_percent_bounds counts Hpos) as Hb.
    apply Forall_forall. intros r Hr.
    assert (Hr' : In r (with_percent_of_sum counts))
      by (unfold sort_desc in Hr; now apply sort_by_In in Hr).
    rewrite Forall_forall in Hb. specialize (Hb r Hr').
    apply sorted_table_rows in Hr as [Hin _].
    rewrite Forall_forall in Hall. destruct (Hall _ Hin) as [c [Hc [Ha [Hn H0]]]].
    simpl in *. exists c. unfold present in Hc. apply filter_In in Hc as [Hc Hcol].
    repeat split; auto; lia.
  - apply sort_desc_sorted.
  - split.
    + intro H. unfold sort_desc in H.
      assert (Hw : with_percent_of_sum counts = []).
      { apply Permutation_nil. rewrite <- H. apply Permutation_sym, sort_by_perm. }
      apply with_percent_nil in Hw. now apply section2_counts_nil in Hw.
    + intro H. assert (Hc : counts = []) by (apply section2_counts_nil; auto).
      now rewrite Hc.
Qed.

(** ** The spellings of YES *)







(** ** Age brackets *)

Lemma age_label_rank (a : Z) :
  exists i, index_of (App.age_label a) AGE_GROUPS = Some i
            /\ nth i AGE_GROUPS EmptyString = App.age_label a
            /\ ((i = 0%nat /\ a < 16) \/ (i = 1%nat /\ 16 <= a <= 20)
                \/ (i = 2%nat /\ 21 <= a <= 29) \/ (i = 3%nat /\ 30 <= a <= 39)
                \/ (i = 4%nat /\ 40 <= a <= 49) \/ (i = 5%nat /\ 50 <= a <= 59)
                \/ (i = 6%nat /\ 60 <= a <= 69) \/ (i = 7%nat /\ 70 <= a)).
Proof.
  unfold App.age_label.
  destruct (a <? 16) eqn:E0.
  { apply Z.ltb_lt in E0. exists 0%nat. repeat split; try reflexivity. tauto. }
  apply Z.ltb_ge in E0.
  destruct ((16 <=? a) && (a <=? 20)) eqn:E1.
  { apply andb_true_iff in E1 as [H1 H2]. apply Z.leb_le in H1, H2.
    exists 1%nat. repeat split; try reflexivity. tauto. }
  apply andb_false_iff in E1. rewrite !Z.leb_gt in E1.
  destruct ((21 <=? a) && (a <=? 29)) eqn:E2.
  { apply andb_true_iff in E2 as [H1 H2]. apply Z.leb_le in H1, H2.
    exists 2%nat. repeat split; try reflexivity. tauto. }
  apply andb_false_iff in E2. rewrite !Z.leb_gt in E2.
  destruct ((30 <=? a) && (a <=? 39)) eqn:E3.
  { apply andb_true_iff in E3 as [H1 H2]. apply Z.leb_le in H1, H2.
    exists 3%nat. repeat split; try reflexivity. tauto. }
  apply andb_false_iff in E3. rewrite !Z.leb_gt in E3.
  destruct ((40 <=? a) && (a <=? 49)) eqn:E4.
  { apply andb_true_iff in E4 as [H1 H2]. apply Z.leb_le in H1, H2.
    exists 4%nat. repeat split; try reflexivity. tauto. }
  apply andb_false_iff in E4. rewrite !Z.leb_gt in E4.
  destruct ((50 <=? a) && (a <=? 59)) eqn:E5.
  { apply andb_true_iff in E5 as [H1 H2]. apply Z.leb_le in H1, H2.
    exists 5%nat. repeat split; try reflexivity. tauto. }
  apply andb_false_iff in E5. rewrite !Z.leb_gt in E5.
  destruct ((60 <=? a) && (a <=? 69)) eqn:E6.
  { apply andb_true_iff in E6 as [H1 H2]. apply Z.leb_le in H1, H2.
    exists 6%nat. repeat split; try reflexivity. tauto. }
  apply andb_false_iff in E6. rewrite !Z.leb_gt in E6.
  exists 7%nat. repeat split; try reflexivity.
  repeat right. split; [reflexivity | lia].
Qed.

(** X24.  [age_to_group] puts every whole age in one of the eight
    brackets, and an older respondent never in a younger bracket than a
    younger one; an age of 70 or more and no other gets the last bracket. *)
Theorem X24_age_brackets_monotone (int_of_text : string -> option Z) (a b : Z) :
  a <= b ->
  exists i j,
    App.age_to_group int_of_text (Some (VNum a)) = Some (VStr (nth i AGE_GROUPS EmptyString))
    /\ App.age_to_group int_of_text (Some (VNum b)) = Some (VStr (nth j AGE_GROUPS EmptyString))
    /\ (i <= j < 8)%nat
    /\ (j = 7%nat <-> 70 <= b).
Proof.
  intro Hab.
  destruct (age_label_rank a) as [i [_ [Hni Ha]]].
  destruct (age_label_rank b) as [j [_ [Hnj Hb]]].
  exists i, j. unfold App.age_to_group, App.to_int. rewrite Hni, Hnj.
  split; [reflexivity | split; [reflexivity|]].
  lia.
Qed.

Lemma X24_age_brackets_monotone_witness :
  20 <= 21
  /\ exists i j,
       App.age_to_group (fun _ => None) (Some (VNum 20))
         = Some (VStr (nth i AGE_GROUPS EmptyString))
       /\ App.age_to_group (fun _ => None) (Some (VNum 21))
         = Some (VStr (nth j AGE_GROUPS EmptyString))
       /\ (i <= j < 8)%nat
       /\ (j = 7%nat <-> 70 <= 21).
Proof.
  assert (H : 20 <= 21) by lia.
  split; [exact H|].
  exact (X24_age_brackets_monotone (fun _ => None) 20 21 H).
Defined.

(** ** The login form *)

Lemma login_defined known secret (s : App.Session) (u p : string) :
  exists s',
    App.login known secret s u p = Some s'
    /\ (App.check_password s' = true <-> known u = true /\ p = secret)
    /\ (App.check_password s' = true ->
        App.s_username s' = None /\ App.s_password s' = None)
    /\ (App.check_password s' = false ->
        App.s_username s' = Some u /\ App.s_password s' = Some p).
Proof.
  unfold App.login, App.password_entered. simpl.
  destruct (known u) eqn:Ek.
  - destruct (String.eqb p secret) eqn:Ep.
    + apply String.eqb_eq in Ep. eexists. split; [reflexivity|].
      unfold App.check_password. simpl. repeat split; auto; discriminate.
    + eexists. split; [reflexivity|]. unfold App.check_password. simpl.
      repeat split; try discriminate; auto.
      * intros [_ H]. subst. now rewrite String.eqb_refl in Ep.
  - eexists. split; [reflexivity|]. unfold App.check_password. simpl.
    repeat split; try discriminate; auto.
    intros [H _]. discriminate.
Qed.

(** X25.  From a new session, whatever forms are sent, [password_entered]
    finds the keys it reads, and the session passes [check_password] exactly
    when one of the forms held a known user name together with the
    configured password; a session that passes holds neither the user name
    nor the password. *)
Theorem X25_login_sessions (username_known : string -> bool) (secret : string)
    (attempts : list (string * string)) :
  exists s,
    session_after username_known secret App.new_session attempts = Some s
    /\ (App.check_password s = true <->
        Exists (fun a => username_known (fst a) = true /\ snd a = secret) attempts)
    /\ (App.check_password s = true ->
        App.s_username s = None /\ App.s_password s = None).
Proof.
  assert (Hgen : forall attempts s0,
            exists s,
              session_after username_known secret s0 attempts = Some s
              /\ (App.check_password s = true <->
                  App.check_password s0 = true
                  \/ Exists (fun a => username_known (fst a) = true /\ snd a = secret)
                       attempts)
              /\ (App.check_password s0 = false ->
                  App.check_password s = true ->
                  App.s_username s = None /\ App.s_password s = None)).
  { clear attempts. induction attempts as [|[u p] rest IH]; intro s0; simpl.
    - exists s0. split; [reflexivity|]. split.
      + split; [now left|]. intros [H|H]; [exact H | inversion H].
      + intros H0 H1. congruence.
    - destruct (App.check_password s0) eqn:E0.
      + exists s0. split; [reflexivity|]. split.
        * rewrite E0. split; auto.
        * discriminate.
      + destruct (login_defined username_known secret s0 u p)
          as [s1 [Hl [Hiff [Hok _]]]].
        rewrite Hl. destruct (IH s1) as [s [Hs [Hi Hc]]].
        exists s. split; [exact Hs|]. split.
        * rewrite Hi, Hiff, Exists_cons. simpl. split.
          -- intros [Hg|He]; right; [now left | now right].
          -- intros [Hf|[Hg|He]]; [discriminate | now left | now right].
        * intros _ Hpass. destruct (App.check_password s1) eqn:E1.
          -- assert (Hs1 : s = s1).
             { destruct rest as [|[u' p'] rest']; simpl in Hs.
               - congruence.
               - rewrite E1 in Hs. congruence. }
             subst s. now apply Hok.
          -- now apply Hc. }
  destruct (Hgen attempts App.new_session) as [s [Hs [Hi Hc]]].
  exists s. split; [exact Hs|]. split.
  - rewrite Hi. unfold App.check_password. simpl. split.
    + intros [H|H]; [discriminate | exact H].
    + now right.
  - now apply Hc.
Qed.

(** ** Columns added at load *)

Lemma pad_row_length (n : nat) (row : list cell) : List.length (pad_row n row) = n.
Proof.
  unfold pad_row. apply firstn_length_le.
  rewrite length_app, repeat_length. lia.
Qed.

Lemma nth_firstn_below (n j : nat) (l : list cell) :
  (j < n)%nat -> nth j (firstn n l) None = nth j l None.
Proof.
  revert j l. induction n as [|n IH]; intros j l Hj; [lia|].
  destruct l as [|x l]; [reflexivity|]. simpl.
  destruct j as [|j]; [reflexivity|]. apply IH. lia.
Qed.

Lemma nth_blank (j n : nat) : nth j (repeat (@None value) n) None = None.
Proof.
  revert j. induction n as [|n IH]; intros [|j]; simpl; try reflexivity. apply IH.
Qed.

Lemma nth_pad_row (n j : nat) (row : list cell) :
  (j < n)%nat -> nth j (pad_row n row) None = nth j row None.
Proof.
  intro Hj. unfold pad_row. rewrite nth_firstn_below by assumption.
  destruct (Nat.lt_ge_cases j (List.length row)) as [Hlt | Hge].
  - now apply app_nth1.
  - rewrite app_nth2 by assumption. rewrite nth_blank.
    symmetry. now apply nth_overflow.
Qed.

Lemma index_of_bound (c : string) (cols : list string) (i : nat) :
  index_of c cols = Some i -> (i < List.length cols)%nat /\ nth i cols EmptyString = c.
Proof.
  revert i. induction cols as [|c' cols IH]; intro i; simpl; [discriminate|].
  destruct (String.eqb c c') eqn:E.
  - intro H. inversion H. apply String.eqb_eq in E. subst. split; [lia | reflexivity].
  - destruct (index_of c cols) as [j|]; [|discriminate].
    intro H. inversion H. destruct (IH j eq_refl). split; [lia | assumption].
Qed.

Lemma index_of_has (c : string) (cols : list string) :
  Str.mem c cols = match index_of c cols with Some _ => true | None => false end.
Proof.
  unfold Str.mem. induction cols as [|c' cols IH]; simpl; [reflexivity|].
  destruct (String.eqb c c'); simpl; [reflexivity|].
  rewrite IH. now destruct (index_of c cols).
Qed.

Lemma index_of_app (c name : string) (cols : list string) :
  index_of c (cols ++ [name])
  = match index_of c cols with
    | Some j => Some j
    | None => if String.eqb c name then Some (List.length cols) else None
    end.
Proof.
  induction cols as [|c' cols IH]; simpl.
  - now destruct (String.eqb c name).
  - destruct (String.eqb c c'); [reflexivity|]. rewrite IH.
    destruct (index_of c cols); [reflexivity|].
    now destruct (String.eqb c name).
Qed.

Lemma nth_replace_same (i : nat) (c : cell) (row : list cell) :
  (i < List.length row)%nat -> nth i (replace_nth i c row) None = c.
Proof.
  revert row. induction i as [|i IH]; intros [|x row] H; simpl in *; try lia.
  - reflexivity.
  - apply IH. lia.
Qed.

Lemma nth_replace_other (i j : nat) (c : cell) (row : list cell) :
  i <> j -> nth j (replace_nth i c row) None = nth j row None.
Proof.
  revert j row. induction i as [|i IH]; intros j [|x row] H; simpl.
  - reflexivity.
  - destruct j; [congruence | reflexivity].
  - reflexivity.
  - destruct j; [reflexivity|]. apply IH. congruence.
Qed.

Lemma with_cells_length put (rows : list (list cell)) (s : Series) :
  List.length (with_cells put rows s) = List.length rows.
Proof.
  revert s. induction rows as [|row rows IH]; intro s; simpl; [reflexivity|].
  now rewrite IH.
Qed.

Lemma with_cells_read (g : list cell -> cell) put (rows : list (list cell)) (s : Series) :
  (forall row x, g (put row x) = x) ->
  List.length s = List.length rows ->
  map g (with_cells put rows s) = s.
Proof.
  intro Hg. revert s. induction rows as [|row rows IH]; intros [|x s] H; simpl in *;
    try discriminate; [reflexivity|].
  rewrite Hg, IH; [reflexivity | lia].
Qed.

Lemma with_cells_kept (g f : list cell -> cell) put (rows : list (list cell))
    (s : Series) :
  (forall row x, g (put row x) = f row) ->
  map g (with_cells put rows s) = map f rows.
Proof.
  intro Hg. revert s. induction rows as [|row rows IH]; intro s; simpl; [reflexivity|].
  now rewrite Hg, IH.
Qed.

Lemma len_set_column (df : DataFrame) (name : string) (s : Series) :
  len (set_column df name s) = len df.
Proof.
  unfold set_column, len.
  destruct (index_of name (df_columns df)); simpl; now rewrite with_cells_length.
Qed.

Lemma has_column_set (df : DataFrame) (name : string) (s : Series) (c : string) :
  has_column (set_column df name s) c = has_column df c || String.eqb c name.
Proof.
  unfold has_column, set_column.
  destruct (index_of name (df_columns df)) as [i|] eqn:E; simpl.
  - rewrite !index_of_has.
    destruct (String.eqb c name) eqn:Ec.
    + apply String.eqb_eq in Ec. subst. rewrite E. reflexivity.
    + now rewrite orb_false_r.
  - rewrite !index_of_has, index_of_app.
    destruct (index_of c (df_columns df)); [reflexivity|].
    now destruct (String.eqb c name).
Qed.

(** What was written to a column is read back from it. *)
Lemma column_set_same (df : DataFrame) (name : string) (s : Series) :
  List.length s = List.length (df_rows df) ->
  column (set_column df name s) name = s.
Proof.
  intro Hlen. unfold column, set_column.
  destruct (index_of name (df_columns df)) as [i|] eqn:E; simpl.
  - apply with_cells_read; [|assumption].
    intros row x. unfold row_get. rewrite E.
    apply nth_replace_same. rewrite pad_row_length.
    now apply index_of_bound in E.
  - apply with_cells_read; [|assumption].
    intros row x. unfold row_get. rewrite index_of_app, E, String.eqb_refl.
    rewrite app_nth2 by (rewrite pad_row_length; lia).
    rewrite pad_row_length, Nat.sub_diag. reflexivity.
Qed.

(** Writing a column leaves the others as they were. *)
Lemma column_set_other (df : DataFrame) (name c : string) (s : Series) :
  c <> name -> column (set_column df name s) c = column df c.
Proof.
  intro Hne. unfold column, set_column.
  destruct (index_of name (df_columns df)) as [i|] eqn:E; simpl.
  - apply with_cells_kept. intros row x. unfold row_get.
    destruct (index_of c (df_columns df)) as [j|] eqn:Ec; [|reflexivity].
    assert (Hij : i <> j).
    { intro. subst j. apply index_of_bound in E as [_ E].
      apply index_of_bound in Ec as [_ Ec]. congruence. }
    rewrite nth_replace_other by assumption.
    apply nth_pad_row. now apply index_of_bound in Ec.
  - apply with_cells_kept. intros row x. unfold row_get.
    rewrite index_of_app.
    destruct (index_of c (df_columns df)) as [j|] eqn:Ec.
    + apply index_of_bound in Ec as [Hj _].
      rewrite app_nth1 by (rewrite pad_row_length; assumption).
      now apply nth_pad_row.
    + destruct (String.eqb c name) eqn:Ecn; [|reflexivity].
      apply String.eqb_eq in Ecn. contradiction.
Qed.

Lemma column_length (df : DataFrame) (c : string) :
  List.length (column df c) = List.length (df_rows df).
Proof. unfold column. apply length_map. Qed.

Lemma device_labels (s : Series) :
  fillna_series (series_map App.dev_map s) (astype_str s) = map device_label s.
Proof. apply labelled_series. Qed.

Lemma load_data_columns (int_of_text : string -> option Z) (raw : DataFrame)
    (c : string) :
  has_column (stripped raw) "AGE" = true ->
  has_column (stripped raw) "Dev" = true ->
  c <> "AGE_GRP" -> c <> "Dev_lbl" ->
  let df := App.load_data int_of_text raw in
  len df = len raw
  /\ column df c = column (stripped raw) c
  /\ column df "AGE_GRP" = map (App.age_to_group int_of_text) (column (stripped raw) "AGE")
  /\ column df "Dev_lbl" = map device_label (column (stripped raw) "Dev")
  /\ no_missing (column df "Dev_lbl").
Proof.
  intros Hage Hdev Hc1 Hc2 df. subst df. unfold App.load_data.
  fold (stripped raw). rewrite Hage.
  set (df1 := set_column (stripped raw) "AGE_GRP"
                (map (App.age_to_group int_of_text) (column (stripped raw) "AGE"))).
  assert (Hdev1 : has_column df1 "Dev" = true).
  { unfold df1. rewrite has_column_set, Hdev. reflexivity. }
  rewrite Hdev1.
  assert (Hcol1 : column df1 "Dev" = column (stripped raw) "Dev").
  { unfold df1. apply column_set_other. discriminate. }
  assert (Hrows1 : List.length (df_rows df1) = List.length (df_rows raw)).
  { pose proof (len_set_column (stripped raw) "AGE_GRP"
                  (map (App.age_to_group int_of_text) (column (stripped raw) "AGE")))
      as H. unfold len in H. fold df1 in H. simpl in H. lia. }
  rewrite device_labels, Hcol1.
  assert (Hdl : column (set_column df1 "Dev_lbl"
                          (map device_label (column (stripped raw) "Dev"))) "Dev_lbl"
                = map device_label (column (stripped raw) "Dev")).
  { apply column_set_same. rewrite length_map, column_length, Hrows1. reflexivity. }
  split; [|split; [|split; [|split]]].
  - rewrite len_set_column. unfold df1. rewrite len_set_column. reflexivity.
  - rewrite column_set_other by assumption. unfold df1.
    now rewrite column_set_other by assumption.
  - rewrite column_set_other by discriminate. unfold df1.
    apply column_set_same. now rewrite length_map, column_length.
  - exact Hdl.
  - rewrite Hdl. apply Forall_map, Forall_forall. intros [v|] _; discriminate.
Qed.

(** X26.  On a sheet whose column names are distinct once trimmed,
    [load_data] keeps the respondents and their answers: the number
    of rows is that of the sheet, every column other than the two derived
    ones reads as in the sheet under its trimmed name, the age group of a
    respondent is [age_to_group] of the age, and the device label is the
    label of the device code, the text of an unknown code, or "nan" for a
    missing one, so that it is never missing. *)
Theorem X26_load_data_columns (int_of_text : string -> option Z) (raw : DataFrame)
    (c : string) :
  NoDup (df_columns (stripped raw)) ->
  has_column (stripped raw) "AGE" = true ->
  has_column (stripped raw) "Dev" = true ->
  c <> "AGE_GRP" -> c <> "Dev_lbl" ->
  let df := App.load_data int_of_text raw in
  len df = len raw
  /\ column df c = column (stripped raw) c
  /\ column df "AGE_GRP" = map (App.age_to_group int_of_text) (column (stripped raw) "AGE")
  /\ column df "Dev_lbl" = map device_label (column (stripped raw) "Dev")
  /\ no_missing (column df "Dev_lbl").
Proof.
  intros _ Hage Hdev Hc1 Hc2. now apply load_data_columns.
Qed.

Lemma X26_load_data_columns_witness :
  NoDup (df_columns (stripped raw_sheet))
  /\ has_column (stripped raw_sheet) "AGE" = true
  /\ has_column (stripped raw_sheet) "Dev" = true
  /\ "S2" <> "AGE_GRP" /\ "S2" <> "Dev_lbl"
  /\ len (App.load_data (fun _ => None) raw_sheet) = 3
  /\ column (App.load_data (fun _ => None) raw_sheet) "S2" = [txt "F"; txt "M"; txt "F"]
  /\ column (App.load_data (fun _ => None) raw_sheet) "AGE_GRP"
     = map (App.age_to_group (fun _ => None)) [num 15; num 34; None]
  /\ column (App.load_data (fun _ => None) raw_sheet) "Dev_lbl"
     = map device_label [num 1; num 3; None]
  /\ no_missing (column (App.load_data (fun _ => None) raw_sheet) "Dev_lbl").
Proof.
  assert (H1 : has_column (stripped raw_sheet) "AGE" = true) by reflexivity.
  assert (H2 : has_column (stripped raw_sheet) "Dev" = true) by reflexivity.
  assert (H3 : "S2" <> "AGE_GRP") by discriminate.
  assert (H4 : "S2" <> "Dev_lbl") by discriminate.
  assert (H0 : NoDup (df_columns (stripped raw_sheet))) by
    (vm_compute; repeat constructor; simpl; intuition discriminate).
  repeat (split; [assumption|]).
  exact (X26_load_data_columns (fun _ => None) raw_sheet "S2" H0 H1 H2 H3 H4).
Defined.

(** X27.  On the data of [load_data], the table of the device labels
    counts every respondent: its counts add up to the number of rows of the
    sheet, the respondents without a device code being counted under
    "nan". *)
Theorem X27_device_table_counts_everyone (int_of_text : string -> option Z)
    (raw : DataFrame) :
  NoDup (df_columns (stripped raw)) ->
  has_column (stripped raw) "AGE" = true ->
  has_column (stripped raw) "Dev" = true ->
  sum_Z (map count
           (App.freq_single (App.load_data int_of_text raw) "Dev_lbl" None None false))
  = len raw.
Proof.
  intros Hnd Hage Hdev. rewrite freq_single_sum.
  assert (Hne : "Dev" <> "AGE_GRP") by discriminate.
  assert (Hne' : "Dev" <> "Dev_lbl") by discriminate.
  destruct (load_data_columns int_of_text raw "Dev" Hage Hdev Hne Hne')
    as [Hlen [_ [_ [Hcol Hclean]]]].
  assert (Hhas : has_column (App.load_data int_of_text raw) "Dev_lbl" = true).
  { unfold App.load_data. fold (stripped raw). rewrite Hage.
    assert (Hd : has_column
                   (set_column (stripped raw) "AGE_GRP"
                      (map (App.age_to_group int_of_text) (column (stripped raw) "AGE")))
                   "Dev" = true)
      by (rewrite has_column_set, Hdev; reflexivity).
    rewrite Hd, has_column_set, String.eqb_refl. apply orb_true_r. }
  unfold eligible_single. rewrite Hhas. simpl negb. cbv iota.
  rewrite (dropna_no_missing _ Hclean), column_length.
  rewrite <- Hlen. reflexivity.
Qed.

Lemma X27_device_table_counts_everyone_witness :
  NoDup (df_columns (stripped raw_sheet))
  /\ has_column (stripped raw_sheet) "AGE" = true
  /\ has_column (stripped raw_sheet) "Dev" = true
  /\ sum_Z (map count
              (App.freq_single (App.load_data (fun _ => None) raw_sheet) "Dev_lbl"
                 None None false)) = 3.
Proof.
  assert (H1 : has_column (stripped raw_sheet) "AGE" = true) by reflexivity.
  assert (H2 : has_column (stripped raw_sheet) "Dev" = true) by reflexivity.
  assert (H0 : NoDup (df_columns (stripped raw_sheet))) by
    (vm_compute; repeat constructor; simpl; intuition discriminate).
  split; [exact H0 | split; [exact H1 | split; [exact H2|]]].
  exact (X27_device_table_counts_everyone (fun _ => None) raw_sheet H0 H1 H2).
Defined.

(** ** The twenty most mentioned, and the options of a label filter *)

Lemma mentions_table_descending (mentions : list string) :
  descending Section4.Count (Section4.mentions_table mentions).
Proof.
  unfold Section4.mentions_table.
  eapply descending_map; [|apply sort_desc_sorted]. auto.
Qed.

(** X28.  The "Top 20" charts of the comments show the twenty most
    mentioned names: [head(20)] of the mentions table holds twenty rows, or
    the whole table when it is shorter, and no row left out was mentioned
    more often than a row shown. *)
Theorem X28_top_20_mentions (df : DataFrame) (prefix : string) (max_slots : nat) :
  let table := snd (Section4.process_open_ended_comments df prefix max_slots) in
  List.length (Section4.top_20 table) = Nat.min 20 (List.length table)
  /\ Forall (fun shown =>
               Forall (fun hidden => Section4.Count hidden <= Section4.Count shown)
                 (beyond 20 table))
       (Section4.top_20 table).
Proof.
  intro table. subst table. rewrite mentions_of_process.
  set (table := Section4.mentions_table _).
  assert (Hs : descending Section4.Count table) by apply mentions_table_descending.
  unfold Section4.top_20, head, beyond. split.
  - apply length_firstn.
  - apply Forall_forall. intros a Ha. apply Forall_forall. intros b Hb.
    now apply (descending_split Section4.Count 20 table Hs).
Qed.

Lemma unique_codes_In (df : DataFrame) (col : string) (x : value) :
  In x (Filters.unique_codes df col) <-> x <> VNum 99 /\ In (Some x) (column df col).
Proof.
  unfold Filters.unique_codes. rewrite filter_In, unique_In, dropna_In.
  rewrite negb_true_iff. split.
  - intros [[Hin _] Hne]. split; [|assumption].
    intro Heq. apply value_eqb_eq in Heq. congruence.
  - intros [Hne Hin]. split; [split; [assumption | intros []]|].
    destruct (value_eqb x (VNum 99)) eqn:E; [|reflexivity].
    apply value_eqb_eq in E. contradiction.
Qed.

(** X29.  The options of a filter on labels (marital status, employment,
    income) are "all" followed by one label per distinct code of the
    column: a label is offered exactly when it is the label, or for an
    unmapped code the text, of a code other than 99 that some respondent
    of the unfiltered data has. *)
Theorem X29_label_options (df : DataFrame) (m : Mapping) (col : string)
    (opts : list value) :
  Filters.label_options df m col = Some opts ->
  exists rest,
    opts = VStr Filters.ALL :: rest
    /\ List.length rest = List.length (Filters.unique_codes df col)
    /\ forall l, In (VStr l) rest
         <-> exists x, x <> VNum 99 /\ In (Some x) (column df col) /\ label_of m x = l.
Proof.
  unfold Filters.label_options. intro H.
  destruct (Filters.sorted _) as [codes|] eqn:E; [|discriminate].
  inversion H. subst opts. clear H.
  apply sorted_perm in E.
  exists (map (fun x => VStr (label_of m x)) codes).
  split; [reflexivity | split].
  - rewrite length_map. symmetry. now apply Permutation_length.
  - intro l. rewrite in_map_iff. split.
    + intros [x [Hx Hin]]. exists x. inversion Hx. subst l.
      apply (Permutation_in _ (Permutation_sym E)) in Hin.
      apply unique_codes_In in Hin. tauto.
    + intros [x [Hne [Hin Hl]]]. exists x. split; [now rewrite Hl|].
      apply (Permutation_in _ E). apply unique_codes_In. tauto.
Qed.

Lemma X29_label_options_witness :
  Filters.label_options marital_df marital_map "D1"
  = Some [VStr Filters.ALL; VStr "Single"; VStr "Married"; VStr "7"]
  /\ exists rest,
       [VStr Filters.ALL; VStr "Single"; VStr "Married"; VStr "7"]
       = VStr Filters.ALL :: rest
       /\ List.length rest = List.length (Filters.unique_codes marital_df "D1")
       /\ forall l, In (VStr l) rest
            <-> exists x, x <> VNum 99 /\ In (Some x) (column marital_df "D1")
                          /\ label_of marital_map x = l.
Proof.
  assert (H : Filters.label_options marital_df marital_map "D1"
              = Some [VStr Filters.ALL; VStr "Single"; VStr "Married"; VStr "7"])
    by reflexivity.
  split; [exact H|].
  exact (X29_label_options marital_df marital_map "D1" _ H).
Defined.

(** ** The ticked boxes of section 4 *)

Lemma checked_count_at_most_len (df : DataFrame) (c : string) :
  Section4.checked_count (column df c) <= len df.
Proof.
  unfold Section4.checked_count, len, dropna.
  pose proof (filter_length_le Section4.is_checked (filter (fun x => negb (isna x)) (column df c))).
  pose proof (filter_length_le (fun x => negb (isna x)) (column df c)).
  pose proof (column_length df c). lia.
Qed.

Lemma section4_counts_entries df labels (cols : list string) :
  let counts := fold_left (Section4.count_column df labels) cols [] in
  NoDup (map fst counts)
  /\ Forall (fun e => exists c, In c cols
                                /\ fst e = option_label labels c
                                /\ snd e = Section4.checked_count (column df c)
                                /\ 0 < snd e) counts.
Proof.
  simpl. apply (fold_left_invariant_in
                  (fun counts =>
                     NoDup (map fst counts)
                     /\ Forall (fun e => exists c,
                                  In c cols
                                  /\ fst e = option_label labels c
                                  /\ snd e = Section4.checked_count (column df c)
                                  /\ 0 < snd e) counts)).
  - split; constructor.
  - intros counts c Hc [Hnd Hall]. unfold Section4.count_column.
    destruct (0 <? Section4.checked_count (column df c)) eqn:E; [|now split].
    apply Z.ltb_lt in E. split.
    + apply od_set_NoDup; [apply String.eqb_eq | assumption].
    + apply od_set_Forall; [apply String.eqb_eq | assumption|].
      exists c. simpl. auto.
Qed.

Lemma section4_freq_multi_table df cols labels :
  Section4.freq_multi df cols labels
  = sort_desc percent
      (map (fun e => mkRow (fst e) (snd e)
                       (if 0 <? len df then percent_of (snd e) (len df) else round1 0))
         (Section4.multi_counts df cols labels)).
Proof.
  unfold Section4.freq_multi.
  destruct (filter (has_column df) cols) as [|c present] eqn:E.
  - unfold Section4.multi_counts. now rewrite E.
  - now destruct (Section4.multi_counts df cols labels).
Qed.

(** X30.  Every row of [freq_multi] of [section4.py] is the label of a
    listed column of the data with the number of its ticked cells, which is
    above zero and at most the number of filtered respondents; no label
    comes twice and the rows are in descending order of percent.  The
    percent is always the share of the filtered respondents, between 0.0
    and 100.0: the branch that writes 0 for an empty frame never fills a
    row. *)
Theorem X30_section4_freq_multi_rows (df : DataFrame) (cols : list string)
    (labels : list (string * string)) :
  let table := Section4.freq_multi df cols labels in
  NoDup (map answer table)
  /\ Forall (fun r => exists c,
               In c cols /\ has_column df c = true
               /\ answer r = option_label labels c
               /\ count r = Section4.checked_count (column df c)
               /\ 0 < count r <= len df
               /\ percent r = percent_of (count r) (len df)
               /\ 0 <= percent r <= 1000) table
  /\ descending percent table.
Proof.
  intro table. subst table. rewrite section4_freq_multi_table.
  unfold Section4.multi_counts.
  set (present := filter (has_column df) cols).
  pose proof (section4_counts_entries df labels present) as [Hnd Hall].
  set (counts := fold_left (Section4.count_column df labels) present []) in *.
  set (mk := fun e : string * Z => _).
  split; [|split].
  - eapply Permutation_NoDup; [|exact Hnd].
    assert (Heq : map fst counts = map answer (map mk counts)).
    { rewrite map_map. apply map_ext. now intros [a n]. }
    rewrite Heq. apply Permutation_map. apply sort_by_perm.
  - apply Forall_forall. intros r Hr.
    unfold sort_desc in Hr. apply sort_by_In in Hr.
    apply in_map_iff in Hr as [e [<- He]].
    rewrite Forall_forall in Hall. destruct (Hall e He) as [c [Hc [Ha [Hn H0]]]].
    unfold present in Hc. apply filter_In in Hc as [Hc Hcol].
    pose proof (checked_count_at_most_len df c) as Hle.
    assert (Hlen : 0 < len df) by lia.
    assert (Hpct : percent (mk e) = percent_of (snd e) (len df)).
    { unfold mk. simpl. apply Z.ltb_lt in Hlen. now rewrite Hlen. }
    assert (Hans : answer (mk e) = fst e) by reflexivity.
    assert (Hcnt : count (mk e) = snd e) by reflexivity.
    exists c. rewrite Hpct, Hans, Hcnt.
    repeat split; auto; try lia.
    + apply percent_of_nonneg; lia.
    + apply percent_of_at_most_100; lia.
  - apply sort_desc_sorted.
Qed.
